(** * pg-data-listener: the notification dispatcher of [main.go]

    A shallow embedding of [main.go]: the change-event envelope
    ([ChangeNotification]), its decoding with [json.Unmarshal], the handler
    registry ([RegisterHandler]), the routing of one notification
    ([handleNotification]), the subscription loop ([Start]) and [main];
    and of the trigger of the schema, [generic_table_notify], which
    publishes the events.

    Go strings and byte slices are sequences of 8-bit bytes: [string] and
    [list ascii].  The registry, a Go [map[string]TableChangeHandler], is a
    [gmap string H]. *)

From Stdlib Require Import ZArith NArith List Ascii String Bool Lia.
From stdpp Require Import gmap strings.
Import ListNotations.

Local Open Scope list_scope.
Local Open Scope char_scope.

(** ** Bytes *)

Abbreviation bytes := (list ascii).

(** [[]byte(s)] and [string(b)]. *)
Definition bytesOf (s : string) : bytes := list_ascii_of_string s.
Definition stringOf (b : bytes) : string := string_of_list_ascii b.

Definition dquote : ascii := "034".
Definition backslash : ascii := "\".

Definition code (c : ascii) : N := N_of_ascii c.

Definition inRange (lo hi : N) (c : ascii) : bool :=
  ((lo <=? code c) && (code c <=? hi))%N.

Definition isDigit (c : ascii) : bool := inRange 48 57 c.
Definition isDigit19 (c : ascii) : bool := inRange 49 57 c.

(** [s[:len(s)-len(rest)]]: what a scanner that stopped at [rest] has read. *)
Definition consumed (s rest : bytes) : bytes :=
  firstn (length s - length rest) s.

(** ** encoding/json: the scanner

    [json.Unmarshal] first runs [checkValid] over the whole input.  The
    grammar below is the one of scanner.go, written by recursive descent:
    every function is given the input at the first byte it has to read and
    answers with what is left after it. *)

Module Json.

(** [isSpace]: space, tab, carriage return, line feed. *)
Definition isSpace (c : ascii) : bool :=
  (c =? " ") || (c =? "009") || (c =? "013") || (c =? "010").

Fixpoint skipSpace (s : bytes) : bytes :=
  match s with
  | c :: r => if isSpace c then skipSpace r else s
  | [] => []
  end.

Definition isHex (c : ascii) : bool :=
  isDigit c || inRange 97 102 c || inRange 65 70 c.

(** The byte after a backslash: one of  b f n r t \ / and the quote. *)
Definition isSimpleEscape (c : ascii) : bool :=
  (c =? "b") || (c =? "f") || (c =? "n") || (c =? "r") || (c =? "t")
  || (c =? backslash) || (c =? "/") || (c =? dquote).

(** [stateInString] and its escape states; the input starts after the
    opening quote, the answer starts after the closing one. *)
Fixpoint scanString (s : bytes) : option bytes :=
  match s with
  | [] => None
  | c :: r =>
    if c =? dquote then Some r
    else if c =? backslash then
      match r with
      | e :: r1 =>
        if isSimpleEscape e then scanString r1
        else if e =? "u" then
          match r1 with
          | h1 :: h2 :: h3 :: h4 :: r2 =>
            if isHex h1 && isHex h2 && isHex h3 && isHex h4
            then scanString r2 else None
          | _ => None
          end
        else None
      | [] => None
      end
    else if (code c <? 32)%N then None
    else scanString r
  end.

Fixpoint skipDigits (s : bytes) : bytes :=
  match s with
  | c :: r => if isDigit c then skipDigits r else s
  | [] => []
  end.

(** [stateE], [stateESign], [stateE0]: after the [e] of an exponent. *)
Definition scanExp (s : bytes) : option bytes :=
  let s1 := match s with
            | c :: r => if (c =? "+") || (c =? "-") then r else s
            | [] => s
            end in
  match s1 with
  | d :: r => if isDigit d then Some (skipDigits r) else None
  | [] => None
  end.

Definition isE (c : ascii) : bool := (c =? "e") || (c =? "E").

(** [stateDot0]: after the digits of a fraction. *)
Definition scanAfterFrac (s : bytes) : option bytes :=
  match s with
  | c :: r => if isE c then scanExp r else Some s
  | [] => Some s
  end.

(** [state0]: after the integer part. *)
Definition scanAfterInt (s : bytes) : option bytes :=
  match s with
  | c :: r =>
    if c =? "." then
      match r with
      | d :: r1 => if isDigit d then scanAfterFrac (skipDigits r1) else None
      | [] => None
      end
    else if isE c then scanExp r
    else Some s
  | [] => Some s
  end.

(** A number whose first byte [c] (a minus sign or a digit) is read. *)
Definition scanNumber (c : ascii) (r : bytes) : option bytes :=
  if c =? "-" then
    match r with
    | d :: r1 =>
      if d =? "0" then scanAfterInt r1
      else if isDigit19 d then scanAfterInt (skipDigits r1)
      else None
    | [] => None
    end
  else if c =? "0" then scanAfterInt r
  else scanAfterInt (skipDigits r).

(** The rest of [true], [false] or [null]. *)
Fixpoint scanWord (w s : bytes) : option bytes :=
  match w with
  | [] => Some s
  | x :: w1 =>
    match s with
    | c :: r => if c =? x then scanWord w1 r else None
    | [] => None
    end
  end.

(** [maxNestingDepth] of scanner.go. *)
Definition maxNestingDepth : N := 10000.

(** A member of an object: the key literal and the text of its value, both
    as they stand in the input. *)
Definition member : Type := bytes * bytes.

Inductive mode := MValue | MMembers | MElements.

(** One value ([MValue]), the members of an object up to its closing brace
    ([MMembers], the input at the first key) or the elements of an array up
    to its closing bracket ([MElements], the input at the first element).
    [depth] is [len(s.parseState)].  The answer holds the members of the
    object read (none for any other value) and the rest of the input. *)
Fixpoint scan (fuel : nat) (m : mode) (depth : N) (s : bytes)
  : option (list member * bytes) :=
  match fuel with
  | O => None
  | S fuel' =>
    match m with
    | MValue =>
      match s with
      | [] => None
      | c :: r =>
        if c =? "{" then
          if (maxNestingDepth <=? depth)%N then None
          else match skipSpace r with
               | c1 :: r1 =>
                 if c1 =? "}" then Some ([], r1)
                 else scan fuel' MMembers (depth + 1) (c1 :: r1)
               | [] => None
               end
        else if c =? "[" then
          if (maxNestingDepth <=? depth)%N then None
          else match skipSpace r with
               | c1 :: r1 =>
                 if c1 =? "]" then Some ([], r1)
                 else match scan fuel' MElements (depth + 1) (c1 :: r1) with
                      | Some (_, r2) => Some ([], r2)
                      | None => None
                      end
               | [] => None
               end
        else if c =? dquote then option_map (pair []) (scanString r)
        else if (c =? "-") || isDigit c then option_map (pair []) (scanNumber c r)
        else if c =? "t" then option_map (pair []) (scanWord (bytesOf "rue") r)
        else if c =? "f" then option_map (pair []) (scanWord (bytesOf "alse") r)
        else if c =? "n" then option_map (pair []) (scanWord (bytesOf "ull") r)
        else None
      end
    | MMembers =>
      match s with
      | c :: r =>
        if c =? dquote then
          match scanString r with
          | Some r1 =>
            match skipSpace r1 with
            | c2 :: r2 =>
              if c2 =? ":" then
                let v := skipSpace r2 in
                match scan fuel' MValue depth v with
                | Some (_, r3) =>
                  let kv := (consumed s r1, consumed v r3) in
                  match skipSpace r3 with
                  | c4 :: r4 =>
                    if c4 =? "," then
                      match scan fuel' MMembers depth (skipSpace r4) with
                      | Some (ms, r5) => Some (kv :: ms, r5)
                      | None => None
                      end
                    else if c4 =? "}" then Some ([kv], r4)
                    else None
                  | [] => None
                  end
                | None => None
                end
              else None
            | [] => None
            end
          | None => None
          end
        else None
      | [] => None
      end
    | MElements =>
      match scan fuel' MValue depth s with
      | Some (_, r3) =>
        match skipSpace r3 with
        | c4 :: r4 =>
          if c4 =? "," then scan fuel' MElements depth (skipSpace r4)
          else if c4 =? "]" then Some ([], r4)
          else None
        | [] => None
        end
      | None => None
      end
    end
  end.

(** The top-level value of a document: blanks, one value, blanks, and
    nothing more.  The answer is the text of the value and, when it is an
    object, its members. *)
Definition document (data : bytes) : option (bytes * list member) :=
  let v := skipSpace data in
  match scan (S (length v)) MValue 0 v with
  | Some (ms, rest) =>
    match skipSpace rest with
    | [] => Some (consumed v rest, ms)
    | _ :: _ => None
    end
  | None => None
  end.

(** [checkValid]. *)
Definition checkValid (data : bytes) : bool :=
  match document data with Some _ => true | None => false end.

(** *** Strings: [unquote] of decode.go *)

Definition chr (n : N) : ascii := ascii_of_N n.

Definition hexVal (c : ascii) : N :=
  (if isDigit c then code c - 48
   else if inRange 97 102 c then code c - 87
   else code c - 55)%N.

(** [getu4]: the code unit of a [\uXXXX] at the head of [s], if there is one. *)
Definition getu4 (s : bytes) : option N :=
  match s with
  | b :: u :: h1 :: h2 :: h3 :: h4 :: _ =>
    if (b =? backslash) && (u =? "u")
       && isHex h1 && isHex h2 && isHex h3 && isHex h4
    then Some (((hexVal h1 * 16 + hexVal h2) * 16 + hexVal h3) * 16 + hexVal h4)%N
    else None
  | _ => None
  end.

(** [unicode.ReplacementChar], U+FFFD, in UTF-8. *)
Definition replacementChar : bytes := [chr 239; chr 191; chr 189].

(** [utf8.EncodeRune]. *)
Definition encodeRune (r : N) : bytes :=
  (if r <=? 127 then [chr r]
   else if r <=? 2047 then [chr (192 + r / 64); chr (128 + r mod 64)]
   else if ((55296 <=? r) && (r <=? 57343)) || (1114111 <? r) then replacementChar
   else if r <=? 65535 then
     [chr (224 + r / 4096); chr (128 + (r / 64) mod 64); chr (128 + r mod 64)]
   else
     [chr (240 + r / 262144); chr (128 + (r / 4096) mod 64);
      chr (128 + (r / 64) mod 64); chr (128 + r mod 64)])%N.

(** [utf16.IsSurrogate] and [utf16.DecodeRune]. *)
Definition isSurrogate (r : N) : bool := ((55296 <=? r) && (r <? 57344))%N.

Definition decodeSurrogates (r1 r2 : N) : option N :=
  (if (55296 <=? r1) && (r1 <? 56320) && (56320 <=? r2) && (r2 <? 57344)
   then Some ((r1 - 55296) * 1024 + (r2 - 56320) + 65536)
   else None)%N.

(** [utf8.DecodeRune], as far as [unquote] needs it: the number of bytes of
    the well-formed encoding at the head of [s], and 0 when the head is not
    one (the rune is then [RuneError] of width 1). *)
Definition runeLen (s : bytes) : nat :=
  match s with
  | c0 :: r =>
    if inRange 0 127 c0 then 1
    else if inRange 194 223 c0 then
      match r with
      | c1 :: _ => if inRange 128 191 c1 then 2 else 0
      | _ => 0
      end
    else if inRange 224 239 c0 then
      match r with
      | c1 :: c2 :: _ =>
        let lo := if c0 =? chr 224 then 160%N else 128%N in
        let hi := if c0 =? chr 237 then 159%N else 191%N in
        if inRange lo hi c1 && inRange 128 191 c2 then 3 else 0
      | _ => 0
      end
    else if inRange 240 244 c0 then
      match r with
      | c1 :: c2 :: c3 :: _ =>
        let lo := if c0 =? chr 240 then 144%N else 128%N in
        let hi := if c0 =? chr 244 then 143%N else 191%N in
        if inRange lo hi c1 && inRange 128 191 c2 && inRange 128 191 c3
        then 4 else 0
      | _ => 0
      end
    else 0
  | [] => 0
  end.

Definition simpleEscape (e : ascii) : option ascii :=
  if (e =? dquote) || (e =? backslash) || (e =? "/") then Some e
  else if e =? "b" then Some (chr 8)
  else if e =? "f" then Some (chr 12)
  else if e =? "n" then Some (chr 10)
  else if e =? "r" then Some (chr 13)
  else if e =? "t" then Some (chr 9)
  else None.

(** The loop of [unquoteBytes] over the text between the quotes.  [copy] is
    the number of bytes still to copy of a multi-byte rune found well
    formed. *)
Fixpoint unquoteBody (copy : nat) (s : bytes) : option bytes :=
  match s with
  | [] => Some []
  | c :: r =>
    match copy with
    | S k => option_map (cons c) (unquoteBody k r)
    | O =>
      if c =? backslash then
        match r with
        | e :: r1 =>
          if e =? "u" then
            match getu4 s, r1 with
            | Some rr, _ :: _ :: _ :: _ :: r2 =>
              if isSurrogate rr then
                match getu4 r2, r2 with
                | Some rr1, _ :: _ :: _ :: _ :: _ :: _ :: r3 =>
                  match decodeSurrogates rr rr1 with
                  | Some dec => option_map (app (encodeRune dec)) (unquoteBody 0 r3)
                  | None => option_map (app replacementChar) (unquoteBody 0 r2)
                  end
                | _, _ => option_map (app replacementChar) (unquoteBody 0 r2)
                end
              else option_map (app (encodeRune rr)) (unquoteBody 0 r2)
            | _, _ => None
            end
          else
            match simpleEscape e with
            | Some b => option_map (cons b) (unquoteBody 0 r1)
            | None => None
            end
        | [] => None
        end
      else if (c =? dquote) || (code c <? 32)%N then None
      else if (code c <? 128)%N then option_map (cons c) (unquoteBody 0 r)
      else
        match runeLen s with
        | O => option_map (app replacementChar) (unquoteBody 0 r)
        | S k => option_map (cons c) (unquoteBody k r)
        end
    end
  end.

(** [unquote]: the Go string a string literal stands for. *)
Definition unquote (lit : bytes) : option bytes :=
  match lit with
  | c :: r =>
    if (c =? dquote) && (List.last r "000" =? dquote) && negb (Nat.eqb (length r) 0)
    then unquoteBody 0 (List.removelast r)
    else None
  | [] => None
  end.

(** *** Field names: [foldName]

    Keys are matched against the field names without regard to case.  Of
    the folding of non-ASCII runes only the two that fold to an ASCII
    letter are kept, U+017F to S and U+212A to K: the names of the fields
    are ASCII, and no other rune folds to an ASCII letter. *)
Fixpoint foldName (s : bytes) : bytes :=
  match s with
  | [] => []
  | c :: r =>
    if inRange 97 122 c then chr (code c - 32) :: foldName r
    else
      match r with
      | c1 :: r1 =>
        if (c =? chr 197) && (c1 =? chr 191) then "S" :: foldName r1
        else
          match r1 with
          | c2 :: r2 =>
            if (c =? chr 226) && (c1 =? chr 132) && (c2 =? chr 170)
            then "K" :: foldName r2
            else c :: foldName r
          | [] => c :: foldName r
          end
      | [] => c :: foldName r
      end
  end.

(** *** What the scanner guarantees: the notions the proofs use *)

(** Blanks and nothing else. *)
Definition allSpace (ws : bytes) : Prop := Forall (fun c => isSpace c = true) ws.

(** A byte a number may go on with. *)
Definition isNumCont (c : ascii) : bool := isDigit c || (c =? ".") || isE c.

(** A tail before which a number ends. *)
Definition numTail (t : bytes) : Prop :=
  match t with
  | [] => True
  | c :: _ => isNumCont c = false
  end.

(** [f] reads a prefix of its input, and reads the same prefix before every
    tail that satisfies [P]. *)
Definition reads (P : bytes -> Prop) (f : bytes -> option bytes) : Prop :=
  forall s rest, f s = Some rest ->
    exists raw, s = raw ++ rest /\ forall t, P t -> f (raw ++ t) = Some t.

(** A tail that does not begin with a digit. *)
Definition noDigit (t : bytes) : Prop :=
  match t with
  | [] => True
  | c :: _ => isDigit c = false
  end.

(** The tails before which a scan in mode [m] ends as it did. *)
Definition tailOK (m : mode) (t : bytes) : Prop :=
  match m with
  | MValue => numTail t
  | _ => True
  end.

(** The next [k] bytes are there and are not ASCII. *)
Fixpoint highPrefix (k : nat) (l : bytes) : Prop :=
  match k with
  | O => True
  | S k' =>
    match l with
    | c :: l' => (code c <? 128)%N = false /\ highPrefix k' l'
    | [] => False
    end
  end.

(** [v] stands in [s], byte for byte. *)
Definition within (v s : bytes) : Prop := exists pre post, s = pre ++ v ++ post.

(** A member as the scanner hands it over: the key is a string literal
    that unquotes, the value is a document of its own, and a value that
    begins with a quote is a string literal that unquotes. *)
Definition memberOK (kv : member) : Prop :=
  is_Some (unquote (fst kv))
  /\ (exists msv, document (snd kv) = Some (snd kv, msv))
  /\ (forall r, snd kv = dquote :: r -> is_Some (unquote (snd kv))).

End Json.

(** ** time.Time and RFC 3339

    [Timestamp] is a [time.Time].  [main.go] never reads it, so an instant
    is kept as the fields of its civil date, time and zone offset. *)

Record Time := mkTime {
  year : Z; month : Z; day : Z;
  hour : Z; minute : Z; second : Z; nanosecond : Z;
  zoneOffset : Z  (* seconds east of UTC *)
}.

(** [Time{}]: January 1, year 1, 00:00:00 UTC. *)
Definition zeroTime : Time := mkTime 1 1 1 0 0 0 0 0.

Module RFC3339.

Local Open Scope Z_scope.

(** [s[a:b]] and [s[i]]. *)
Definition slice (a b : nat) (s : bytes) : bytes := firstn (b - a) (skipn a s).
Definition at_ (i : nat) (s : bytes) : ascii := nth i s "000"%char.

Fixpoint digitsValue (acc : Z) (s : bytes) : option Z :=
  match s with
  | [] => Some acc
  | c :: r =>
    if isDigit c then digitsValue (acc * 10 + (Z.of_N (code c) - 48)) r
    else None
  end.

(** The [parseUint] closure of [parseRFC3339]: a decimal number within
    [lo..hi]. *)
Definition parseUint (s : bytes) (lo hi : Z) : option Z :=
  match digitsValue 0 s with
  | Some x => if (x <? lo) || (hi <? x) then None else Some x
  | None => None
  end.

Definition isLeap (y : Z) : bool :=
  (y mod 4 =? 0) && (negb (y mod 100 =? 0) || (y mod 400 =? 0)).

Definition daysIn (m y : Z) : Z :=
  if m =? 2 then (if isLeap y then 29 else 28)
  else if (m =? 4) || (m =? 6) || (m =? 9) || (m =? 11) then 30
  else 31.

(** [parseNanoseconds]: the digits after the point, as nanoseconds (the
    digits beyond the ninth are dropped). *)
Definition parseNanoseconds (ds : bytes) : Z :=
  let ds9 := firstn 9 ds in
  match digitsValue 0 ds9 with
  | Some x => x * 10 ^ (9 - Z.of_nat (length ds9))
  | None => 0
  end.

(** [parseRFC3339] of format_rfc3339.go, which [Time.UnmarshalJSON] tries
    first: [2006-01-02T15:04:05], an optional fraction, then [Z] or a
    [+07:00] offset.  (What it rejects Go hands to the general [time.Parse],
    which accepts a few more spellings; the decoder below takes the parser
    as a parameter.) *)
Definition parse (s : bytes) : option Time :=
  if (length s <? 19)%nat then None else
  match parseUint (slice 0 4 s) 0 9999, parseUint (slice 5 7 s) 1 12 with
  | Some y, Some mo =>
    match parseUint (slice 8 10 s) 1 (daysIn mo y),
          parseUint (slice 11 13 s) 0 23,
          parseUint (slice 14 16 s) 0 59,
          parseUint (slice 17 19 s) 0 59 with
    | Some d, Some h, Some mi, Some se =>
      if ((at_ 4 s =? "-") && (at_ 7 s =? "-") && (at_ 10 s =? "T")
          && (at_ 13 s =? ":") && (at_ 16 s =? ":"))%char
      then
        let s1 := skipn 19 s in
        let '(ns, s2) :=
          match s1 with
          | c :: d1 :: r =>
            if ((c =? ".")%char && isDigit d1)
            then (parseNanoseconds (consumed (d1 :: r) (Json.skipDigits r)),
                  Json.skipDigits r)
            else (0, s1)
          | _ => (0, s1)
          end in
        match s2 with
        | [z] => if (z =? "Z")%char then Some (mkTime y mo d h mi se ns 0)
                 else None
        | [sg; _; _; c3; _; _] =>
          match parseUint (slice 1 3 s2) 0 23, parseUint (slice 4 6 s2) 0 59 with
          | Some hr, Some mm =>
            if (((sg =? "-") || (sg =? "+")) && (c3 =? ":"))%char
            then
              let off := (hr * 60 + mm) * 60 in
              Some (mkTime y mo d h mi se ns
                           (if (sg =? "-")%char then - off else off))
            else None
          | _, _ => None
          end
        | _ => None
        end
      else None
    | _, _, _, _ => None
    end
  | _, _ => None
  end.

End RFC3339.

(** ** Errors *)

Inductive error :=
| SyntaxError
    (* *json.SyntaxError: the text is not a JSON document *)
| UnmarshalTypeError (value : string) (type : string)
    (* *json.UnmarshalTypeError: a JSON [value] met where Go type [type] is decoded *)
| TimeError
    (* what Time.UnmarshalJSON returns *)
| Errorf (msg : string) (e : error)
    (* fmt.Errorf(msg + ": %v", e) *)
| ErrOther (msg : string).
    (* an error made by a collaborator: a handler, the pq listener *)

(** ** The envelope *)

Record ChangeNotification := mkChangeNotification {
  Table : string;
  Operation : string;
  Data : bytes;       (* json.RawMessage *)
  Timestamp : Time
}.

(** [var notification ChangeNotification]: the zero value. *)
Definition zeroNotification : ChangeNotification :=
  mkChangeNotification "" "" [] zeroTime.

(** ** encoding/json: decoding into a [ChangeNotification] *)

Section Decode.

(** The RFC 3339 parser of the [time] package, on the text between the
    quotes. *)
Variable parseTime : bytes -> option Time.

(** [UnmarshalJSON] of [time.Time]. *)
Definition Time_UnmarshalJSON (data : bytes) (t : Time) : option error * Time :=
  if (stringOf data =? "null")%string then (None, t)
  else
    match data with
    | c :: r =>
      if ((c =? dquote) && (List.last r "000" =? dquote))%char
         && negb (Nat.eqb (length r) 0)
      then match parseTime (List.removelast r) with
           | Some t' => (None, t')
           | None => (Some TimeError, zeroTime)
           end
      else (Some TimeError, t)
    | [] => (Some TimeError, t)
    end.

(** [decodeState]: the value being filled and [savedError], the first
    type mismatch met. *)
Record decodeState := mkDecodeState {
  val : ChangeNotification;
  savedError : option error
}.

(** [saveError]: the first error is the one kept. *)
Definition saveError (e : error) (d : decodeState) : decodeState :=
  match savedError d with
  | None => mkDecodeState (val d) (Some e)
  | Some _ => d
  end.

(** The [Value] of an [UnmarshalTypeError], from the first byte of a
    value. *)
Definition valueKind (raw : bytes) : string :=
  match raw with
  | c :: _ =>
    if c =? "{" then "object"%string
    else if c =? "[" then "array"%string
    else if c =? dquote then "string"%string
    else if (c =? "t") || (c =? "f") then "bool"%string
    else if c =? "n" then "null"%string
    else "number"%string
  | [] => ""
  end.

(** Assignments to the fields. *)
Definition setTable (s : string) (v : ChangeNotification) :=
  mkChangeNotification s (Operation v) (Data v) (Timestamp v).
Definition setOperation (s : string) (v : ChangeNotification) :=
  mkChangeNotification (Table v) s (Data v) (Timestamp v).
Definition setData (b : bytes) (v : ChangeNotification) :=
  mkChangeNotification (Table v) (Operation v) b (Timestamp v).
Definition setTimestamp (t : Time) (v : ChangeNotification) :=
  mkChangeNotification (Table v) (Operation v) (Data v) t.

(** A value met for a field of Go type [string]: a string literal is
    stored, [null] leaves the field as it is, anything else is a type
    mismatch (saved; decoding goes on).  [None] is the decoder's panic on
    a literal that does not unquote; the scanner lets none through. *)
Definition storeString (raw : bytes)
           (set : string -> ChangeNotification -> ChangeNotification)
           (d : decodeState) : option decodeState :=
  match raw with
  | c :: _ =>
    if (c =? dquote)%char then
      match Json.unquote raw with
      | Some s => Some (mkDecodeState (set (stringOf s) (val d)) (savedError d))
      | None => None
      end
    else if (c =? "n")%char then Some d
    else Some (saveError (UnmarshalTypeError (valueKind raw) "string") d)
  | [] => None
  end.

(** The struct tags of [ChangeNotification], folded. *)
Definition fieldIs (name : string) (key : bytes) : bool :=
  (stringOf (Json.foldName key) =? stringOf (Json.foldName (bytesOf name)))%string.

(** One member of the object, in the [object] method of [decodeState].
    [inl] is an error that ends the decoding at once, the one of an
    [Unmarshaler]; the value is left as far as it was filled. *)
Definition decodeMember (m : Json.member) (d : decodeState)
  : (error * decodeState) + decodeState :=
  let '(k, raw) := m in
  match Json.unquote k with
  | None => inl (SyntaxError, d)
  | Some key =>
    if fieldIs "table" key then
      match storeString raw setTable d with
      | Some d' => inr d' | None => inl (SyntaxError, d)
      end
    else if fieldIs "operation" key then
      match storeString raw setOperation d with
      | Some d' => inr d' | None => inl (SyntaxError, d)
      end
    else if fieldIs "data" key then
      (* RawMessage.UnmarshalJSON copies the text of the value *)
      inr (mkDecodeState (setData raw (val d)) (savedError d))
    else if fieldIs "timestamp" key then
      match Time_UnmarshalJSON raw (Timestamp (val d)) with
      | (Some e, t) => inl (e, mkDecodeState (setTimestamp t (val d)) (savedError d))
      | (None, t) => inr (mkDecodeState (setTimestamp t (val d)) (savedError d))
      end
    else inr d
  end.

(** The members in turn. *)
Fixpoint decodeObject (ms : list Json.member) (d : decodeState)
  : (error * decodeState) + decodeState :=
  match ms with
  | [] => inr d
  | m :: ms' =>
    match decodeMember m d with
    | inl e => inl e
    | inr d' => decodeObject ms' d'
    end
  end.

(** [json.Unmarshal(data, &v)] for a [v] of type [ChangeNotification]:
    the error returned, and [v] afterwards. *)
Definition Unmarshal (data : bytes) (v : ChangeNotification)
  : option error * ChangeNotification :=
  match Json.document data with
  | None => (Some SyntaxError, v)
  | Some (raw, ms) =>
    match raw with
    | c :: _ =>
      if (c =? "{")%char then
        match decodeObject ms (mkDecodeState v None) with
        | inl (e, d) => (Some e, val d)
        | inr d => (savedError d, val d)
        end
      else if (c =? "n")%char then (None, v)
      else (Some (UnmarshalTypeError (valueKind raw) "main.ChangeNotification"), v)
    | [] => (Some SyntaxError, v)
    end
  end.

End Decode.

(** ** The process around the listener *)

(** [pq.ListenerEventType]. *)
Inductive ListenerEventType :=
| ListenerEventConnected
| ListenerEventDisconnected
| ListenerEventReconnected
| ListenerEventConnectionAttemptFailed.

(** What [log.Printf] and [log.Println] are given. *)
Inductive logArg :=
| AString (s : string)
| AError (e : error)
| AEvent (ev : ListenerEventType).

(** A line of the log, as asked for. *)
Inductive logRecord :=
| Printf (format : string) (args : list logArg)
| Println (line : string).

(** What a handler can reach: the log of the process and a state [X] of
    its own (caches and the like).  A handler is given the operation and
    the data and nothing of the listener. *)
Record World (X : Type) := mkWorld {
  log : list logRecord;
  ext : X
}.
Arguments mkWorld {X}.
Arguments log {X}.
Arguments ext {X}.

(** One more line in the log. *)
Definition logTo {X} (r : logRecord) (w : World X) : World X :=
  mkWorld (log w ++ [r]) (ext w).

(** [type TableChangeHandler interface]: values of [H] are what the
    registry holds, [HandleChange] is their one method. *)
Class TableChangeHandler (H X : Type) :=
  HandleChange : H -> string -> bytes -> World X -> option error * World X.

(** The two handlers of [main.go]. *)
Inductive manager := ConfigManager | UserManager.

(** Their [HandleChange]: a line in the log, and no error. *)
#[export] Instance manager_HandleChange {X} : TableChangeHandler manager X :=
  fun h operation data w =>
    match h with
    | ConfigManager =>
      (None, logTo (Printf "[s_config] %s: %s"
                           [AString operation; AString (stringOf data)]) w)
    | UserManager =>
      (None, logTo (Printf "[s_user] %s: %s"
                           [AString operation; AString (stringOf data)]) w)
    end.

(** [time.Duration], in nanoseconds. *)
Definition Second : Z := 1000000000.
Definition Minute : Z := 60 * Second.

(** [pq.Listener], as far as [Start] sets it up. *)
Record Listener := mkListener {
  name : string;
  minReconnectInterval : Z;
  maxReconnectInterval : Z;
  channels : list string;
  isClosed : bool
}.

(** [pq.NewListener], without the callback. *)
Definition NewListener (name : string) (minReconnect maxReconnect : Z) : Listener :=
  mkListener name minReconnect maxReconnect [] false.

(** [pq.Notification]. *)
Record Notification := mkNotification {
  BePid : Z;
  Channel : string;
  Extra : string
}.

(** What the loop of [Start] meets, in the order it meets it.  The
    callback of the listener runs on a goroutine of pq; its calls are
    taken between two turns of the loop. *)
Inductive occurrence :=
| Notified (waited : Z) (n : option Notification)
    (* case notification := <-listener.Notify, [waited] after the select
       began, before the timer fires; pq sends nil after a reconnection *)
| Elapsed (ping : option error)
    (* case <-time.After(15 * time.Second), and what listener.Ping() answers *)
| Event (ev : ListenerEventType) (err : option error).
    (* pq calls eventCallback *)

(** What has become of [Start]. *)
Inductive outcome :=
| Returned (err : error)   (* Start has returned err *)
| Waiting.                 (* the loop is blocked in its select *)

Section Listener.

Variable parseTime : bytes -> option Time.
Context {H X : Type} `{!TableChangeHandler H X}.

Record DataListener := mkDataListener {
  db : string;                  (* the database handle, by what it was opened on *)
  handlers : gmap string H
}.

(** The state of the process.  [calls] and [probes] are there to observe
    it: the invocations of [HandleChange] and the times of the calls of
    [listener.Ping], in order. *)
Record Process := mkProcess {
  dl : DataListener;
  session : option Listener;
  world : World X;
  now : Z;
  calls : list (H * string * bytes);
  probes : list Z
}.

(** A computation on the process: what it answers, and the process after
    it. *)
Definition M (A : Type) : Type := Process -> A * Process.

(** Its [mret] and [mbind]. *)
#[global] Instance M_ret : MRet M := fun A a p => (a, p).
#[global] Instance M_bind : MBind M :=
  fun A B f c p => let '(a, p') := c p in f a p'.

(** [log.Printf] and [log.Println]. *)
Definition logM (r : logRecord) : M unit := fun p =>
  (tt, mkProcess (dl p) (session p) (logTo r (world p)) (now p) (calls p) (probes p)).

(** The clock moves on by [d]. *)
Definition elapse (d : Z) : M unit := fun p =>
  (tt, mkProcess (dl p) (session p) (world p) (now p + d) (calls p) (probes p)).

(** The [listener] variable of [Start]. *)
Definition setSession (l : option Listener) : M unit := fun p =>
  (tt, mkProcess (dl p) l (world p) (now p) (calls p) (probes p)).

(** [handler.HandleChange(operation, data)]. *)
Definition invoke (h : H) (operation : string) (data : bytes) : M (option error) :=
  fun p =>
    let '(r, w) := HandleChange h operation data (world p) in
    (r, mkProcess (dl p) (session p) w (now p)
                  (calls p ++ [(h, operation, data)]) (probes p)).

(** [listener.Ping()], answering [r]. *)
Definition Ping (r : option error) : M (option error) := fun p =>
  (r, mkProcess (dl p) (session p) (world p) (now p) (calls p)
                (probes p ++ [now p])).

(** [NewDataListener]; [opened] and [pinged] are what [sql.Open] and
    [db.Ping] answer. *)
Definition NewDataListener (connStr : string) (opened pinged : option error)
  : error + DataListener :=
  match opened with
  | Some err => inl err
  | None =>
    match pinged with
    | Some err => inl err
    | None => inr (mkDataListener connStr ∅)
    end
  end.

(** [dl.handlers[tableName] = handler]. *)
Definition RegisterHandler (tableName : string) (handler : H) : M unit :=
  fun p =>
    (tt, mkProcess (mkDataListener (db (dl p)) (<[tableName := handler]> (handlers (dl p))))
                   (session p) (world p) (now p) (calls p) (probes p)).

(** [handleNotification]. *)
Definition handleNotification (payload : string) : M (option error) :=
  let notification := zeroNotification in
  let '(err, notification) := Unmarshal parseTime (bytesOf payload) notification in
  match err with
  | Some err => mret (Some (Errorf "failed to parse notification" err))
  | None =>
    fun p =>
      match handlers (dl p) !! Table notification with
      | None => (None, p)
      | Some handler =>
        invoke handler (Operation notification) (Data notification) p
      end
  end.

(** [eventCallback]. *)
Definition eventCallback (ev : ListenerEventType) (err : option error) : M unit :=
  match err with
  | Some err => logM (Printf "Listener event: %s, error: %v" [AEvent ev; AError err])
  | None => mret tt
  end.

(** The duration given to [time.After]. *)
Definition livenessWindow : Z := 15 * Second.

(** One turn of the [for] loop of [Start]; [Some err] when it returns. *)
Definition turn (o : occurrence) : M (option error) :=
  match o with
  | Notified waited notification =>
    elapse waited ;;
    match notification with
    | Some notification =>
      err ← handleNotification (Extra notification);
      match err with
      | Some err => logM (Printf "Error: %v" [AError err])
      | None => mret tt
      end
    | None => mret tt
    end ;;
    mret None
  | Elapsed ping =>
    elapse livenessWindow ;;
    Ping ping
  | Event ev err =>
    eventCallback ev err ;; mret None
  end.

(** The [for] loop, over what it meets; it is [Waiting] when it has met
    it all. *)
Fixpoint loop (os : list occurrence) : M outcome :=
  match os with
  | [] => mret Waiting
  | o :: os' =>
    err ← turn o;
    match err with
    | Some err => mret (Returned err)
    | None => loop os'
    end
  end.

(** [listener.Close()]. *)
Definition Close_listener : M unit := fun p =>
  setSession (option_map (fun l => mkListener (name l) (minReconnectInterval l)
                                     (maxReconnectInterval l) (channels l) true)
                         (session p)) p.

(** [Start]; [listened] is what [listener.Listen("data_changes")] answers,
    [os] what the loop then meets.  [defer listener.Close()] runs when
    [Start] returns. *)
Definition Start (connStr : string) (listened : option error)
           (os : list occurrence) : M outcome :=
  let listener := NewListener connStr (10 * Second) Minute in
  setSession (Some listener) ;;
  match listened with
  | Some err => Close_listener ;; mret (Returned err)
  | None =>
    setSession (Some (mkListener (name listener) (minReconnectInterval listener)
                                 (maxReconnectInterval listener)
                                 ["data_changes"%string] false)) ;;
    logM (Println "Listening on channel: data_changes") ;;
    r ← loop os;
    match r with
    | Returned err => Close_listener ;; mret (Returned err)
    | Waiting => mret Waiting
    end
  end.

(** [Close]: [dl.db.Close()], answering [closed]. *)
Definition Close (closed : option error) : M (option error) := mret closed.

End Listener.

(** * Vocabulary of the properties *)

(** ** Of decoding *)

(** The text [raw] begins with the byte [c]. *)
Definition startsWith (c : ascii) (raw : bytes) : bool :=
  match raw with
  | x :: _ => (x =? c)%char
  | [] => false
  end.

(** The key of a member names the field [name]. *)
Definition keyIs (name : string) (kv : Json.member) : bool :=
  match Json.unquote (fst kv) with
  | Some key => fieldIs name key
  | None => false
  end.

(** Some member names the field [name]. *)
Definition hasField (name : string) (ms : list Json.member) : bool :=
  existsb (keyIs name) ms.

(** A member for [table] or [operation] whose value is neither a string
    nor [null]. *)
Definition mismatch (kv : Json.member) : bool :=
  (keyIs "table" kv || keyIs "operation" kv)
  && negb (startsWith dquote (snd kv) || startsWith "n" (snd kv)).

(** A member for [timestamp] whose value [time.Time] does not take. *)
Definition badTime (parseTime : bytes -> option Time) (kv : Json.member) : bool :=
  keyIs "timestamp" kv
  && match fst (Time_UnmarshalJSON parseTime (snd kv) zeroTime) with
     | Some _ => true
     | None => false
     end.

(** What [json.Unmarshal] into a [ChangeNotification] rejects. *)
Definition rejected (parseTime : bytes -> option Time) (data : bytes) : Prop :=
  match Json.document data with
  | None => True
  | Some (raw, ms) =>
    if startsWith "{" raw
    then existsb (fun kv => mismatch kv || badTime parseTime kv) ms = true
    else startsWith "n" raw = false
  end.

(** ** Of events and of the loop *)

(** The event [handleNotification] decodes from a payload, if
    [json.Unmarshal] returns no error. *)
Definition decoded (parseTime : bytes -> option Time) (payload : string)
  : option ChangeNotification :=
  match Unmarshal parseTime (bytesOf payload) zeroNotification with
  | (None, ev) => Some ev
  | (Some _, _) => None
  end.

(** The payload is an object in which each of the four fields has a
    member. *)
Definition complete (payload : string) : bool :=
  match Json.document (bytesOf payload) with
  | Some (_, ms) =>
    hasField "table" ms && hasField "operation" ms
    && hasField "data" ms && hasField "timestamp" ms
  | None => false
  end.

(** A well-formed event, as the specification has it: the envelope decodes
    and carries the four fields. *)
Definition wellFormed (parseTime : bytes -> option Time) (payload : string)
           (ev : ChangeNotification) : Prop :=
  decoded parseTime payload = Some ev /\ complete payload = true.

(** The first failing probe the loop meets. *)
Fixpoint firstProbeFailure (os : list occurrence) : option error :=
  match os with
  | [] => None
  | Elapsed (Some err) :: _ => Some err
  | _ :: os' => firstProbeFailure os'
  end.

(** The occurrence is a notification that decodes and whose table has a
    handler in [reg]. *)
Definition delivered (parseTime : bytes -> option Time) {H} (reg : gmap string H)
           (o : occurrence) : bool :=
  match o with
  | Notified _ (Some n) =>
    match decoded parseTime (Extra n) with
    | Some ev => match reg !! Table ev with Some _ => true | None => false end
    | None => false
    end
  | _ => false
  end.

(** ** Envelopes written out *)

(** A byte that stands for itself in a string literal. *)
Definition isPlain (c : ascii) : bool :=
  inRange 32 127 c && negb (c =? dquote)%char && negb (c =? backslash)%char.

(** A string of such bytes. *)
Definition plain (s : string) : Prop :=
  Forall (fun c => isPlain c = true) (bytesOf s).

(** The string literal of a plain string. *)
Definition literal (s : string) : bytes := dquote :: bytesOf s ++ [dquote].

(** The envelope of an event, as the trigger's [json_build_object] lays the
    four members out (without its blanks). *)
Definition envelope (table operation : string) (data : bytes) (timestamp : string)
  : string :=
  stringOf ("{"%char :: literal "table" ++ ":"%char :: literal table
            ++ ","%char :: literal "operation" ++ ":"%char :: literal operation
            ++ ","%char :: literal "data" ++ ":"%char :: data
            ++ ","%char :: literal "timestamp" ++ ":"%char :: literal timestamp
            ++ ["}"%char]).

(** [v] is the text of one JSON value, valid [depth] levels down. *)
Definition valueAt (depth : N) (v : bytes) : Prop :=
  exists ms, Json.scan (S (length v)) Json.MValue depth v = Some (ms, []).

(** ** The process of [main] and some payloads *)

(** [connStr] of [main]. *)
Definition connStr : string :=
  "host=localhost port=5433 user=postgres password=post123 dbname=data_listener sslmode=disable".

(** The process of [main] once its two handlers are registered. *)
Definition started : Process (H := manager) (X := unit) :=
  snd ((RegisterHandler "s_config" ConfigManager ;;
        RegisterHandler "s_user" UserManager)
         (mkProcess (mkDataListener connStr ∅) None (mkWorld [] tt) 0 [] [])).

(** The row of the specification's scenario. *)
Definition configRow : bytes :=
  bytesOf "{" ++ literal "id" ++ bytesOf ":1," ++ literal "config_key"
  ++ bytesOf ":" ++ literal "debug_mode" ++ bytesOf "," ++ literal "config_value"
  ++ bytesOf ":" ++ literal "true" ++ bytesOf "}".

(** The payload of the specification's first scenario: an update of
    [s_config]. *)
Definition configUpdate : string :=
  envelope "s_config" "UPDATE" configRow "2024-01-01T12:00:00Z".

(** The payload of its second scenario: an event of [s_product], a table
    without a handler. *)
Definition productInsert : string :=
  envelope "s_product" "INSERT" (bytesOf "{}") "2024-01-01T12:00:00Z".

(** An envelope with the four fields, an empty table and an operation
    outside INSERT, UPDATE, DELETE. *)
Definition truncateOfNothing : string :=
  envelope "" "TRUNCATE" (bytesOf "{}") "2024-01-01T12:00:00Z".

(** A handler that fails every change. *)
Inductive failing := Failing.

(** Its [HandleChange]. *)
#[export] Instance failing_HandleChange {X} : TableChangeHandler failing X :=
  fun _ _ _ w => (Some (ErrOther "change refused"), w).

(** A process with that handler registered for [s_config]. *)
Definition startedFailing : Process (H := failing) (X := unit) :=
  snd (RegisterHandler "s_config" Failing
         (mkProcess (mkDataListener connStr ∅) None (mkWorld [] tt) 0 [] [])).

(** The occurrence is a notification whose payload is a well-formed event. *)
Definition wellFormedOccurrence (parseTime : bytes -> option Time)
           (o : occurrence) : bool :=
  match o with
  | Notified _ (Some n) =>
    match decoded parseTime (Extra n) with
    | Some _ => complete (Extra n)
    | None => false
    end
  | _ => false
  end.

(** Lengths of lists put together. *)
Ltac lens H :=
  cbn [app length] in H;
  repeat (rewrite ?length_app in H; cbn [length] in H);
  cbn [length]; lia.


(** ** What the loop takes, invokes and writes *)

(** The occurrences the loop takes of those it is given: all of them up to
    the first failing probe, that probe included. *)
Fixpoint taken (os : list occurrence) : list occurrence :=
  match os with
  | [] => []
  | Elapsed (Some err) :: _ => [Elapsed (Some err)]
  | o :: os' => o :: taken os'
  end.

(** The invocation an occurrence leads to under the registry [reg]: the one
    of the handler of the event's table, when the payload decodes and the
    table has a handler. *)
Definition invocationOf (parseTime : bytes -> option Time) {H}
           (reg : gmap string H) (o : occurrence) : list (H * string * bytes) :=
  match o with
  | Notified _ (Some n) =>
    match decoded parseTime (Extra n) with
    | Some ev =>
      match reg !! Table ev with
      | Some h => [(h, Operation ev, Data ev)]
      | None => []
      end
    | None => []
    end
  | _ => []
  end.

(** The lines an occurrence adds to the log when the registry holds the
    handlers of [main.go]. *)
Definition linesOf (parseTime : bytes -> option Time)
           (reg : gmap string manager) (o : occurrence) : list logRecord :=
  match o with
  | Notified _ (Some n) =>
    match Unmarshal parseTime (bytesOf (Extra n)) zeroNotification with
    | (Some err, _) =>
      [Printf "Error: %v" [AError (Errorf "failed to parse notification" err)]]
    | (None, ev) =>
      match reg !! Table ev with
      | Some ConfigManager =>
        [Printf "[s_config] %s: %s"
                [AString (Operation ev); AString (stringOf (Data ev))]]
      | Some UserManager =>
        [Printf "[s_user] %s: %s"
                [AString (Operation ev); AString (stringOf (Data ev))]]
      | None => []
      end
    end
  | Notified _ None => []
  | Elapsed _ => []
  | Event ev (Some err) =>
    [Printf "Listener event: %s, error: %v" [AEvent ev; AError err]]
  | Event _ None => []
  end.

(** The times [ts], in order, each at least [d] after the one before, the
    first at least [d] after [from]. *)
Fixpoint apart (d from : Z) (ts : list Z) : Prop :=
  match ts with
  | [] => True
  | t :: ts' => (from + d <= t)%Z /\ apart d t ts'
  end.

(** No notification is received before the select that receives it has
    begun. *)
Definition causal (o : occurrence) : Prop :=
  match o with
  | Notified waited _ => (0 <= waited)%Z
  | _ => True
  end.

(** ** The listener of [Start] *)

(** The listener of [Start] once [Listen] has succeeded. *)
Definition subscribed (connection : string) (closed : bool) : Listener :=
  mkListener connection (10 * Second) Minute ["data_changes"%string] closed.

(** The process when the loop begins. *)
Definition listening {H X} (connection : string) (p : Process (H := H) (X := X))
  : Process (H := H) (X := X) :=
  mkProcess (dl p) (Some (subscribed connection false))
            (logTo (Println "Listening on channel: data_changes") (world p))
            (now p) (calls p) (probes p).

(** The registry of [main]. *)
Definition mainHandlers : gmap string manager :=
  <["s_user"%string := UserManager]> (<["s_config"%string := ConfigManager]> ∅).

(** ** Of the members of an object *)

(** The member names one of the four fields. *)
Definition named (kv : Json.member) : bool :=
  keyIs "table" kv || keyIs "operation" kv || keyIs "data" kv
  || keyIs "timestamp" kv.

(** The member names the field [name] and its value is a string literal. *)
Definition stringMember (name : string) (kv : Json.member) : bool :=
  keyIs name kv && startsWith dquote (snd kv).

(** The Go string the value of a member stands for, when it is a string
    literal. *)
Definition textOf (kv : Json.member) : string :=
  match Json.unquote (snd kv) with
  | Some s => stringOf s
  | None => ""
  end.

(** A text of ASCII bytes. *)
Definition ascii7 (s : string) : Prop :=
  Forall (fun c => (code c <? 128)%N = true) (bytesOf s).

(** ** The trigger of the schema

    [generic_table_notify] of the schema, with what it calls of
    PostgreSQL: [json_build_object] and [escape_json] of json.c, and
    [pg_notify] of async.c. *)

Module Pg.

(** A hexadecimal digit of [\u%04x]. *)
Definition hexDigit (n : N) : ascii :=
  (if n <? 10 then ascii_of_N (48 + n) else ascii_of_N (87 + n))%N.

(** One byte of a text, in [escape_json]. *)
Definition escapeChar (c : ascii) : bytes :=
  if c =? "008" then [backslash; "b"]
  else if c =? "012" then [backslash; "f"]
  else if c =? "010" then [backslash; "n"]
  else if c =? "013" then [backslash; "r"]
  else if c =? "009" then [backslash; "t"]
  else if c =? dquote then [backslash; dquote]
  else if c =? backslash then [backslash; backslash]
  else if (code c <? 32)%N
       then [backslash; "u"; "0"; "0"; hexDigit (code c / 16); hexDigit (code c mod 16)]
  else [c].

(** [escape_json]: the string literal of a text. *)
Definition escape_json (s : string) : bytes :=
  dquote :: flat_map escapeChar (bytesOf s) ++ [dquote].

(** The arguments the trigger gives to [json_build_object], by their SQL
    type. *)
Inductive datum :=
| DText (s : string)           (* text and name: escaped, between quotes *)
| DJson (j : bytes)            (* json: its text as it stands *)
| DTimestamptz (iso : string). (* timestamptz: its ISO 8601 text between quotes *)

(** [datum_to_json]. *)
Definition datum_to_json (d : datum) : bytes :=
  match d with
  | DText s => escape_json s
  | DJson j => j
  | DTimestamptz iso => dquote :: bytesOf iso ++ [dquote]
  end.

(** The members of [json_build_object]: the separator, the key, a colon
    between two blanks, the value. *)
Fixpoint build_members (sep : bytes) (args : list (string * datum)) : bytes :=
  match args with
  | [] => []
  | (k, v) :: args' =>
    sep ++ escape_json k ++ bytesOf " : " ++ datum_to_json v
    ++ build_members (bytesOf ", ") args'
  end.

(** [json_build_object]. *)
Definition json_build_object (args : list (string * datum)) : bytes :=
  "{" :: build_members [] args ++ ["}"].

(** [NAMEDATALEN] and [NOTIFY_PAYLOAD_MAX_LENGTH] (BLCKSZ - NAMEDATALEN - 128,
    with blocks of 8192 bytes). *)
Definition NAMEDATALEN : N := 64.
Definition NOTIFY_PAYLOAD_MAX_LENGTH : N := 8192 - NAMEDATALEN - 128.

(** [pg_notify]: the notification queued, from the backend [pid]; [None]
    when it raises, on a channel name that is empty or too long and on a
    payload that is too long. *)
Definition pg_notify (pid : Z) (channel payload : string) : option Notification :=
  let channel_len := N.of_nat (String.length channel) in
  let payload_len := N.of_nat (String.length payload) in
  if (channel_len =? 0)%N then None
  else if (NAMEDATALEN <=? channel_len)%N then None
  else if (NOTIFY_PAYLOAD_MAX_LENGTH <=? payload_len)%N then None
  else Some (mkNotification pid channel payload).

Section Trigger.

(** The rows of a table and [row_to_json] on them. *)
Variable Row : Type.
Variable row_to_json : Row -> bytes.

(** What a row-level trigger is called with. *)
Record TriggerData := mkTriggerData {
  TG_OP : string;
  TG_TABLE_NAME : string;
  OLD : Row;
  NEW : Row
}.

(** [generic_table_notify], at [CURRENT_TIMESTAMP] (given by its ISO 8601
    text) in the backend [pid]: what it publishes, [None] when it raises.
    The [NULL] it returns is of no effect, the trigger being an AFTER
    trigger. *)
Definition generic_table_notify (td : TriggerData) (CURRENT_TIMESTAMP : string)
           (pid : Z) : option Notification :=
  let row_data :=
    if (TG_OP td =? "DELETE")%string then row_to_json (OLD td)
    else row_to_json (NEW td) in
  let payload :=
    json_build_object [("table"%string, DText (TG_TABLE_NAME td));
                       ("operation"%string, DText (TG_OP td));
                       ("data"%string, DJson row_data);
                       ("timestamp"%string, DTimestamptz CURRENT_TIMESTAMP)] in
  pg_notify pid "data_changes" (stringOf payload).

End Trigger.

Arguments mkTriggerData {Row}.
Arguments TG_OP {Row}.
Arguments TG_TABLE_NAME {Row}.
Arguments OLD {Row}.
Arguments NEW {Row}.
Arguments generic_table_notify {Row}.

(** The tables the schema binds the trigger to, after insert, update or
    delete of a row. *)
Definition triggerTables : list string := ["s_config"; "s_user"]%string.

End Pg.

(** ** [main] *)

(** What has become of the process: [os.Exit(code)], or blocked in the
    loop of [Start]. *)
Inductive status :=
| Exited (code : Z)
| Blocked.

(** A run of [main]: its end, the log, the invocations of the handlers. *)
Record Run := mkRun {
  exit : status;
  output : list logRecord;
  invoked : list (manager * string * bytes)
}.

(** [main]; [opened], [pinged] and [listened] are what [sql.Open],
    [db.Ping] and [listener.Listen] answer, [os] is what the loop meets.
    [log.Fatalf] writes its line and exits with status 1, and what was
    deferred is not run. *)
Definition main (parseTime : bytes -> option Time)
           (opened pinged listened : option error) (os : list occurrence) : Run :=
  match NewDataListener connStr opened pinged with
  | inl err =>
    mkRun (Exited 1) [Printf "Failed to create listener: %v" [AError err]] []
  | inr listener =>
    let '(r, p) :=
      (RegisterHandler "s_config" ConfigManager ;;
       RegisterHandler "s_user" UserManager ;;
       logM (Println "Starting listener...") ;;
       Start parseTime connStr listened os)
        (mkProcess listener None (mkWorld [] tt) 0 [] []) in
    match r with
    | Returned err =>
      mkRun (Exited 1)
            (log (world p) ++ [Printf "Failed to start: %v" [AError err]])
            (calls p)
    | Waiting => mkRun Blocked (log (world p)) (calls p)
    end
  end.

(** * Properties *)

(** ** Lists of bytes *)

Lemma consumed_app (a b : bytes) : consumed (a ++ b) b = a.
Proof.
  unfold consumed. rewrite length_app.
  replace (length a + length b - length b)%nat with (length a) by lia.
  rewrite firstn_app, Nat.sub_diag, firstn_all. simpl. apply app_nil_r.
Qed.

Lemma consumed_nil (a : bytes) : consumed a [] = a.
Proof. rewrite <- (app_nil_r a) at 1. apply consumed_app. Qed.

Module JsonFacts.
Import Json.

(** ** The scanner reads a prefix, and reads it alike before any other tail *)

Lemma skipSpace_split (s : bytes) :
  exists ws, s = ws ++ skipSpace s /\ allSpace ws.
Proof.
  induction s as [|c r [ws [E A]]]; simpl.
  - exists []. split; [reflexivity | constructor].
  - destruct (isSpace c) eqn:Ec.
    + exists (c :: ws). split; [simpl; congruence | constructor; assumption].
    + exists []. split; [reflexivity | constructor].
Qed.

Lemma skipSpace_app (ws x : bytes) :
  allSpace ws -> skipSpace (ws ++ x) = skipSpace x.
Proof.
  induction 1 as [|c ws Hc _ IH]; simpl; [reflexivity|].
  rewrite Hc. exact IH.
Qed.

Lemma skipSpace_head (s : bytes) c r : skipSpace s = c :: r -> isSpace c = false.
Proof.
  induction s as [|a s IH]; simpl; [discriminate|].
  destruct (isSpace a) eqn:Ea; [exact IH|].
  intros E. inversion E. subst. exact Ea.
Qed.

Lemma skipSpace_cons c r : isSpace c = false -> skipSpace (c :: r) = c :: r.
Proof. intros E. simpl. rewrite E. reflexivity. Qed.

Lemma numTail_digit c t : numTail (c :: t) -> isDigit c = false.
Proof. unfold numTail, isNumCont. intros E. repeat (apply orb_false_elim in E as [E ?]). exact E. Qed.

Lemma numTail_dot c t : numTail (c :: t) -> (c =? ".") = false.
Proof. unfold numTail, isNumCont. intros E. repeat (apply orb_false_elim in E as [E ?]). assumption. Qed.

Lemma numTail_E c t : numTail (c :: t) -> isE c = false.
Proof. unfold numTail, isNumCont. intros E. repeat (apply orb_false_elim in E as [E ?]). assumption. Qed.

Lemma numTail_noDigit t : numTail t -> noDigit t.
Proof. destruct t; [trivial|]. apply numTail_digit. Qed.

Lemma skipDigits_noDigit (s : bytes) : noDigit (skipDigits s).
Proof.
  induction s as [|c r IH]; simpl; [trivial|].
  destruct (isDigit c) eqn:Ec; [exact IH | exact Ec].
Qed.

Lemma noDigit_retail (raw rest t : bytes) :
  noDigit (raw ++ rest) -> noDigit t -> noDigit (raw ++ t).
Proof. destruct raw; simpl; auto. Qed.

Lemma skipDigits_split (s : bytes) :
  exists ds, s = ds ++ skipDigits s
             /\ forall t, noDigit t -> skipDigits (ds ++ t) = t.
Proof.
  induction s as [|c r [ds [E A]]]; simpl.
  - exists []. split; [reflexivity|]. intros [|c t] Ht; simpl; [reflexivity|].
    simpl in Ht. rewrite Ht. reflexivity.
  - destruct (isDigit c) eqn:Ec.
    + exists (c :: ds). split; [simpl; congruence|].
      intros t Ht. simpl. rewrite Ec. auto.
    + exists []. split; [reflexivity|]. intros [|c' t] Ht; simpl; [reflexivity|].
      simpl in Ht. rewrite Ht. reflexivity.
Qed.

Lemma scanExp_reads : reads numTail scanExp.
Proof.
  intros s rest. unfold scanExp.
  destruct s as [|c r]; [discriminate|].
  destruct ((c =? "+") || (c =? "-")) eqn:Es.
  - destruct r as [|d r1]; [discriminate|].
    destruct (isDigit d) eqn:Ed; [|discriminate].
    intros E. inversion E. subst rest.
    destruct (skipDigits_split r1) as [ds [E1 A]].
    exists (c :: d :: ds). split; [simpl; congruence|].
    intros t Ht. simpl. rewrite Es, Ed. f_equal. auto using numTail_noDigit.
  - destruct (isDigit c) eqn:Ed; [|discriminate].
    intros E. inversion E. subst rest.
    destruct (skipDigits_split r) as [ds [E1 A]].
    exists (c :: ds). split; [simpl; congruence|].
    intros t Ht. simpl. rewrite Es, Ed. f_equal. auto using numTail_noDigit.
Qed.

Lemma scanAfterFrac_reads : reads numTail scanAfterFrac.
Proof.
  intros s rest. unfold scanAfterFrac.
  assert (Hnil : forall t, numTail t ->
            match t with c :: r => if isE c then scanExp r else Some t | [] => Some t end = Some t).
  { intros [|c t] Ht; [reflexivity|]. rewrite (numTail_E _ _ Ht). reflexivity. }
  destruct s as [|c r].
  - intros E. inversion E. exists []. split; [reflexivity|]. exact Hnil.
  - destruct (isE c) eqn:Ec.
    + intros E. destruct (scanExp_reads _ _ E) as [raw [E1 A]].
      exists (c :: raw). split; [simpl; congruence|].
      intros t Ht. simpl. rewrite Ec. auto.
    + intros E. inversion E. exists []. split; [reflexivity|]. exact Hnil.
Qed.

Lemma scanAfterInt_reads : reads numTail scanAfterInt.
Proof.
  intros s rest. unfold scanAfterInt.
  assert (Hnil : forall t, numTail t ->
            match t with
            | c :: r =>
              if c =? "." then
                match r with
                | d :: r1 => if isDigit d then scanAfterFrac (skipDigits r1) else None
                | [] => None
                end
              else if isE c then scanExp r else Some t
            | [] => Some t end = Some t).
  { intros [|c t] Ht; [reflexivity|].
    rewrite (numTail_dot _ _ Ht), (numTail_E _ _ Ht). reflexivity. }
  destruct s as [|c r].
  - intros E. inversion E. exists []. split; [reflexivity|]. exact Hnil.
  - destruct (c =? ".") eqn:Ec.
    + destruct r as [|d r1]; [discriminate|].
      destruct (isDigit d) eqn:Ed; [|discriminate].
      intros E. destruct (scanAfterFrac_reads _ _ E) as [raw [E1 A]].
      destruct (skipDigits_split r1) as [ds [E2 B]].
      exists (c :: d :: ds ++ raw). split.
      * simpl. rewrite <- app_assoc. congruence.
      * intros t Ht. simpl. rewrite Ec, Ed. rewrite <- app_assoc.
        assert (Hs : skipDigits (ds ++ raw ++ t) = raw ++ t).
        { apply B. apply noDigit_retail with (rest := rest).
          - rewrite <- E1. apply skipDigits_noDigit.
          - apply numTail_noDigit, Ht. }
        rewrite Hs. auto.
    + destruct (isE c) eqn:Ee.
      * intros E. destruct (scanExp_reads _ _ E) as [raw [E1 A]].
        exists (c :: raw). split; [simpl; congruence|].
        intros t Ht. simpl. rewrite Ec, Ee. auto.
      * intros E. inversion E. exists []. split; [reflexivity|]. exact Hnil.
Qed.

Lemma scanNumber_reads c : reads numTail (scanNumber c).
Proof.
  intros r rest. unfold scanNumber.
  destruct (c =? "-") eqn:Em.
  - destruct r as [|d r1]; [discriminate|].
    destruct (d =? "0") eqn:E0.
    + intros E. destruct (scanAfterInt_reads _ _ E) as [raw [E1 A]].
      exists (d :: raw). split; [simpl; congruence|].
      intros t Ht. simpl. rewrite E0. auto.
    + destruct (isDigit19 d) eqn:E9; [|discriminate].
      intros E. destruct (scanAfterInt_reads _ _ E) as [raw [E1 A]].
      destruct (skipDigits_split r1) as [ds [E2 B]].
      exists (d :: ds ++ raw). split.
      * simpl. rewrite <- app_assoc. congruence.
      * intros t Ht. simpl. rewrite E0, E9, <- app_assoc.
        rewrite B; [auto|].
        apply noDigit_retail with (rest := rest).
        -- rewrite <- E1. apply skipDigits_noDigit.
        -- apply numTail_noDigit, Ht.
  - destruct (c =? "0") eqn:E0.
    + exact (scanAfterInt_reads r rest).
    + intros E. destruct (scanAfterInt_reads _ _ E) as [raw [E1 A]].
      destruct (skipDigits_split r) as [ds [E2 B]].
      exists (ds ++ raw). split.
      * rewrite <- app_assoc. congruence.
      * intros t Ht. rewrite <- app_assoc.
        rewrite B; [auto|].
        apply noDigit_retail with (rest := rest).
        -- rewrite <- E1. apply skipDigits_noDigit.
        -- apply numTail_noDigit, Ht.
Qed.

Lemma scanWord_reads w : reads (fun _ => True) (scanWord w).
Proof.
  induction w as [|x w IH]; intros s rest; simpl.
  - intros E. inversion E. exists []. split; [reflexivity|]. reflexivity.
  - destruct s as [|c r]; [discriminate|].
    destruct (c =? x) eqn:Ec; [|discriminate].
    intros E. destruct (IH _ _ E) as [raw [E1 A]].
    exists (c :: raw). split; [simpl; congruence|].
    intros t Ht. simpl. rewrite Ec. auto.
Qed.

Lemma scanString_reads : reads (fun _ => True) scanString.
Proof.
  intros s. remember (length s) as n eqn:En.
  revert s En. induction n as [n IH] using lt_wf_ind. intros s En rest.
  destruct s as [|c r]; simpl; [discriminate|].
  destruct (c =? dquote) eqn:Eq.
  { intros E. inversion E. subst rest. exists [c]. split; [reflexivity|].
    intros t _. simpl. rewrite Eq. reflexivity. }
  destruct (c =? backslash) eqn:Eb.
  { destruct r as [|e r1]; [discriminate|].
    destruct (isSimpleEscape e) eqn:Ee.
    { intros E. destruct (IH (length r1)) with (s := r1) (rest := rest)
        as [raw [E1 A]]; [simpl in En; lia | reflexivity | exact E |].
      exists (c :: e :: raw). split; [simpl; congruence|].
      intros t Ht. simpl. rewrite Eq, Eb, Ee. auto. }
    destruct (e =? "u") eqn:Eu; [|discriminate].
    destruct r1 as [|h1 [|h2 [|h3 [|h4 r2]]]]; try discriminate.
    destruct (isHex h1 && isHex h2 && isHex h3 && isHex h4) eqn:Eh; [|discriminate].
    intros E. destruct (IH (length r2)) with (s := r2) (rest := rest)
      as [raw [E1 A]]; [simpl in En; lia | reflexivity | exact E |].
    exists (c :: e :: h1 :: h2 :: h3 :: h4 :: raw). split; [simpl; congruence|].
    intros t Ht. simpl. rewrite Eq, Eb, Ee, Eu, Eh. auto. }
  destruct (code c <? 32)%N eqn:Ec; [discriminate|].
  intros E. destruct (IH (length r)) with (s := r) (rest := rest)
    as [raw [E1 A]]; [simpl in En; lia | reflexivity | exact E |].
  exists (c :: raw). split; [simpl; congruence|].
  intros t Ht. simpl. rewrite Eq, Eb, Ec. auto.
Qed.

Lemma scan_S fuel m depth s :
  scan (S fuel) m depth s =
    match m with
    | MValue =>
      match s with
      | [] => None
      | c :: r =>
        if c =? "{" then
          if (maxNestingDepth <=? depth)%N then None
          else match skipSpace r with
               | c1 :: r1 =>
                 if c1 =? "}" then Some ([], r1)
                 else scan fuel MMembers (depth + 1) (c1 :: r1)
               | [] => None
               end
        else if c =? "[" then
          if (maxNestingDepth <=? depth)%N then None
          else match skipSpace r with
               | c1 :: r1 =>
                 if c1 =? "]" then Some ([], r1)
                 else match scan fuel MElements (depth + 1) (c1 :: r1) with
                      | Some (_, r2) => Some ([], r2)
                      | None => None
                      end
               | [] => None
               end
        else if c =? dquote then option_map (pair []) (scanString r)
        else if (c =? "-") || isDigit c then option_map (pair []) (scanNumber c r)
        else if c =? "t" then option_map (pair []) (scanWord (bytesOf "rue") r)
        else if c =? "f" then option_map (pair []) (scanWord (bytesOf "alse") r)
        else if c =? "n" then option_map (pair []) (scanWord (bytesOf "ull") r)
        else None
      end
    | MMembers =>
      match s with
      | c :: r =>
        if c =? dquote then
          match scanString r with
          | Some r1 =>
            match skipSpace r1 with
            | c2 :: r2 =>
              if c2 =? ":" then
                let v := skipSpace r2 in
                match scan fuel MValue depth v with
                | Some (_, r3) =>
                  let kv := (consumed s r1, consumed v r3) in
                  match skipSpace r3 with
                  | c4 :: r4 =>
                    if c4 =? "," then
                      match scan fuel MMembers depth (skipSpace r4) with
                      | Some (ms, r5) => Some (kv :: ms, r5)
                      | None => None
                      end
                    else if c4 =? "}" then Some ([kv], r4)
                    else None
                  | [] => None
                  end
                | None => None
                end
              else None
            | [] => None
            end
          | None => None
          end
        else None
      | [] => None
      end
    | MElements =>
      match scan fuel MValue depth s with
      | Some (_, r3) =>
        match skipSpace r3 with
        | c4 :: r4 =>
          if c4 =? "," then scan fuel MElements depth (skipSpace r4)
          else if c4 =? "]" then Some ([], r4)
          else None
        | [] => None
        end
      | None => None
      end
    end.
Proof. reflexivity. Qed.

Lemma depth_ok (d d' : N) :
  (maxNestingDepth <=? d)%N = false -> (d' <= d)%N ->
  (maxNestingDepth <=? d')%N = false.
Proof. rewrite !N.leb_gt. lia. Qed.

Lemma app_head_eq (c : ascii) (r raw rest : bytes) :
  c :: r = raw ++ rest -> raw <> [] -> exists raw', raw = c :: raw'.
Proof.
  destruct raw as [|x raw']; [congruence|]. simpl. intros E _.
  inversion E. eauto.
Qed.

(** The heart of the matter: a scan reads a non-empty prefix, and reads
    it again, with the same members, before any fitting tail, at any
    smaller depth, with any fuel that is at least the length of what is
    read. *)
Lemma scan_reads fuel : forall m depth s ms rest,
  scan fuel m depth s = Some (ms, rest) ->
  exists raw,
    s = raw ++ rest /\ raw <> [] /\
    forall fuel' depth' t,
      (length raw <= fuel')%nat -> (depth' <= depth)%N -> tailOK m t ->
      scan fuel' m depth' (raw ++ t) = Some (ms, t).
Proof.
  induction fuel as [|fuel IH]; intros m depth s ms rest; [discriminate|].
  rewrite scan_S. destruct m.
  - (* a value *)
    destruct s as [|c r]; [discriminate|].
    destruct (c =? "{") eqn:Eobj.
    { destruct (maxNestingDepth <=? depth)%N eqn:Ed; [discriminate|].
      destruct (skipSpace r) as [|c1 r1] eqn:Er; [discriminate|].
      destruct (skipSpace_split r) as [ws [Ews Aws]]. rewrite Er in Ews.
      pose proof (skipSpace_head _ _ _ Er) as Hc1.
      destruct (c1 =? "}") eqn:Ec1.
      - intros E. inversion E. subst ms rest.
        exists (c :: ws ++ [c1]). split; [|split; [discriminate|]].
        { simpl. rewrite <- app_assoc. simpl. congruence. }
        intros [|f'] d' t Hlen Hd _; [simpl in Hlen; lia|].
        rewrite scan_S. cbn [app]. rewrite Eobj, (depth_ok _ _ Ed Hd).
        rewrite <- app_assoc, skipSpace_app by assumption.
        cbn [app]. rewrite skipSpace_cons by assumption.
        rewrite Ec1. reflexivity.
      - intros E. destruct (IH _ _ _ _ _ E) as [raw [E1 [Hne A]]].
        destruct (app_head_eq _ _ _ _ E1 Hne) as [raw' ->].
        exists (c :: ws ++ c1 :: raw'). split; [|split; [discriminate|]].
        { simpl. rewrite <- app_assoc. rewrite <- E1. congruence. }
        intros [|f'] d' t Hlen Hd _; [simpl in Hlen; lia|].
        rewrite scan_S. cbn [app]. rewrite Eobj, (depth_ok _ _ Ed Hd).
        rewrite <- app_assoc, skipSpace_app by assumption.
        cbn [app]. rewrite skipSpace_cons by assumption.
        rewrite Ec1. apply (A f' (d' + 1)%N t); [|lia|exact I].
        simpl in Hlen. rewrite length_app in Hlen. simpl in *. lia. }
    destruct (c =? "[") eqn:Earr.
    { destruct (maxNestingDepth <=? depth)%N eqn:Ed; [discriminate|].
      destruct (skipSpace r) as [|c1 r1] eqn:Er; [discriminate|].
      destruct (skipSpace_split r) as [ws [Ews Aws]]. rewrite Er in Ews.
      pose proof (skipSpace_head _ _ _ Er) as Hc1.
      destruct (c1 =? "]") eqn:Ec1.
      - intros E. inversion E. subst ms rest.
        exists (c :: ws ++ [c1]). split; [|split; [discriminate|]].
        { simpl. rewrite <- app_assoc. simpl. congruence. }
        intros [|f'] d' t Hlen Hd _; [simpl in Hlen; lia|].
        rewrite scan_S. cbn [app]. rewrite Eobj, Earr, (depth_ok _ _ Ed Hd).
        rewrite <- app_assoc, skipSpace_app by assumption.
        cbn [app]. rewrite skipSpace_cons by assumption.
        rewrite Ec1. reflexivity.
      - destruct (scan fuel MElements (depth + 1) (c1 :: r1))
          as [[ms1 r2]|] eqn:Es; [|discriminate].
        intros E. inversion E. subst ms rest.
        destruct (IH _ _ _ _ _ Es) as [raw [E1 [Hne A]]].
        destruct (app_head_eq _ _ _ _ E1 Hne) as [raw' ->].
        exists (c :: ws ++ c1 :: raw'). split; [|split; [discriminate|]].
        { simpl. rewrite <- app_assoc. rewrite <- E1. congruence. }
        intros [|f'] d' t Hlen Hd _; [simpl in Hlen; lia|].
        rewrite scan_S. cbn [app]. rewrite Eobj, Earr, (depth_ok _ _ Ed Hd).
        rewrite <- app_assoc, skipSpace_app by assumption.
        cbn [app]. rewrite skipSpace_cons by assumption.
        rewrite Ec1.
        assert (A' : scan f' MElements (d' + 1) ((c1 :: raw') ++ t) = Some (ms1, t)).
        { apply A; [|lia|exact I].
          simpl in Hlen. rewrite length_app in Hlen. simpl in *. lia. }
        cbn [app] in A'. rewrite A'. reflexivity. }
    assert (Hlit : forall (f : bytes -> option bytes) P,
               reads P f -> (forall t, numTail t -> P t) ->
               option_map (pair []) (f r) = Some (ms, rest) ->
               exists raw', r = raw' ++ rest /\ ms = [] /\
                 forall t, numTail t ->
                   option_map (pair (@nil member)) (f (raw' ++ t)) = Some ([], t)).
    { intros f P Hf HP E. destruct (f r) as [r'|] eqn:Ef; [|discriminate].
      simpl in E. inversion E. subst ms rest.
      destruct (Hf _ _ Ef) as [raw' [E1 A]]. exists raw'.
      split; [exact E1|]. split; [reflexivity|].
      intros t Ht. rewrite (A t (HP t Ht)). reflexivity. }
    assert (Hdone : forall raw', r = raw' ++ rest -> ms = [] ->
               (forall t, numTail t ->
                  scan 1 MValue 0 ((c :: raw') ++ t) = Some ([], t)) ->
               exists raw, c :: r = raw ++ rest /\ raw <> [] /\
                 forall fuel' depth' t,
                   (length raw <= fuel')%nat -> (depth' <= depth)%N ->
                   tailOK MValue t ->
                   scan fuel' MValue depth' (raw ++ t) = Some (ms, t)).
    { intros raw' E1 -> A. exists (c :: raw').
      split; [simpl; congruence|]. split; [discriminate|].
      intros [|f'] d' t Hlen Hd Ht; [simpl in Hlen; lia|].
      specialize (A t Ht). rewrite scan_S in A. rewrite scan_S.
      cbn [app] in *. rewrite Eobj, Earr in *. exact A. }
    destruct (c =? dquote) eqn:Estr.
    { intros E.
      destruct (Hlit _ _ scanString_reads (fun _ _ => I) E) as [raw' [E1 [Ems A]]].
      apply (Hdone raw' E1 Ems). intros t Ht. rewrite scan_S. cbn [app].
      rewrite Eobj, Earr, Estr. auto. }
    destruct ((c =? "-") || isDigit c) eqn:Enum.
    { intros E.
      destruct (Hlit _ _ (scanNumber_reads c) (fun _ H => H) E) as [raw' [E1 [Ems A]]].
      apply (Hdone raw' E1 Ems). intros t Ht. rewrite scan_S. cbn [app].
      rewrite Eobj, Earr, Estr, Enum. auto. }
    destruct (c =? "t") eqn:Et.
    { intros E.
      destruct (Hlit _ _ (scanWord_reads _) (fun _ _ => I) E) as [raw' [E1 [Ems A]]].
      apply (Hdone raw' E1 Ems). intros t Ht. rewrite scan_S. cbn [app].
      rewrite Eobj, Earr, Estr, Enum, Et. auto. }
    destruct (c =? "f") eqn:Ef.
    { intros E.
      destruct (Hlit _ _ (scanWord_reads _) (fun _ _ => I) E) as [raw' [E1 [Ems A]]].
      apply (Hdone raw' E1 Ems). intros t Ht. rewrite scan_S. cbn [app].
      rewrite Eobj, Earr, Estr, Enum, Et, Ef. auto. }
    destruct (c =? "n") eqn:En; [|discriminate].
    intros E.
    destruct (Hlit _ _ (scanWord_reads _) (fun _ _ => I) E) as [raw' [E1 [Ems A]]].
    apply (Hdone raw' E1 Ems). intros t Ht. rewrite scan_S. cbn [app].
    rewrite Eobj, Earr, Estr, Enum, Et, Ef, En. auto.
  - (* the members of an object *)
    destruct s as [|c r]; [discriminate|].
    destruct (c =? dquote) eqn:Eq; [|discriminate].
    destruct (scanString r) as [r1|] eqn:Ek; [|discriminate].
    destruct (scanString_reads _ _ Ek) as [body [Ebody Abody]].
    destruct (skipSpace r1) as [|c2 r2] eqn:Er1; [discriminate|].
    destruct (skipSpace_split r1) as [ws1 [Ews1 Aws1]]. rewrite Er1 in Ews1.
    pose proof (skipSpace_head _ _ _ Er1) as Hc2.
    destruct (c2 =? ":") eqn:Ec2; [|discriminate].
    cbv zeta.
    destruct (scan fuel MValue depth (skipSpace r2)) as [[msv r3]|] eqn:Ev;
      [|discriminate].
    destruct (skipSpace_split r2) as [ws2 [Ews2 Aws2]].
    destruct (IH _ _ _ _ _ Ev) as [rawv [Erawv [Hnev Av]]].
    destruct (skipSpace r2) as [|cv rv] eqn:Er2; [destruct rawv; [congruence|discriminate]|].
    pose proof (skipSpace_head _ _ _ Er2) as Hcv.
    destruct (app_head_eq _ _ _ _ Erawv Hnev) as [rawv' ->].
    destruct (skipSpace r3) as [|c4 r4] eqn:Er3; [discriminate|].
    destruct (skipSpace_split r3) as [ws3 [Ews3 Aws3]]. rewrite Er3 in Ews3.
    pose proof (skipSpace_head _ _ _ Er3) as Hc4.
    assert (Hkey : consumed (c :: r) r1 = c :: body).
    { rewrite Ebody. change (c :: body ++ r1) with ((c :: body) ++ r1).
      apply consumed_app. }
    assert (Hval : consumed (cv :: rv) r3 = cv :: rawv').
    { rewrite Erawv. apply consumed_app. }
    rewrite Hkey, Hval.
    assert (Hsp : forall x, (c4 =? ",") || (c4 =? "}") = true ->
                            numTail (ws3 ++ c4 :: x)).
    { intros x H4. destruct ws3 as [|w ws3']; simpl.
      - apply orb_prop in H4 as [H4|H4]; apply Ascii.eqb_eq in H4;
          subst c4; reflexivity.
      - inversion Aws3 as [|? ? Hw _]. subst.
        unfold isSpace in Hw.
        repeat (apply orb_prop in Hw as [Hw|Hw]);
          apply Ascii.eqb_eq in Hw; subst w; reflexivity. }
    (* what is read up to and including the value, before any tail *)
    assert (Hpre : forall f' d' u,
              (length (cv :: rawv') <= f')%nat -> (d' <= depth)%N ->
              numTail u ->
              scan (S f') MMembers d'
                   ((c :: body ++ ws1 ++ c2 :: ws2 ++ (cv :: rawv')) ++ u)
              = match skipSpace u with
                | c4 :: r4 =>
                  if c4 =? "," then
                    match scan f' MMembers d' (skipSpace r4) with
                    | Some (ms, r5) => Some ((c :: body, cv :: rawv') :: ms, r5)
                    | None => None
                    end
                  else if c4 =? "}" then Some ([(c :: body, cv :: rawv')], r4)
                  else None
                | [] => None
                end).
    { intros f' d' u Hlen Hd Hu.
      rewrite scan_S. cbn [app]. rewrite Eq.
      rewrite <- !app_assoc. rewrite Abody by exact I.
      rewrite skipSpace_app by assumption. cbn [app].
      rewrite skipSpace_cons by assumption. rewrite Ec2. cbv zeta.
      rewrite <- !app_assoc, skipSpace_app by assumption.
      change ((cv :: rawv') ++ u) with (cv :: rawv' ++ u).
      rewrite skipSpace_cons by assumption.
      change (cv :: rawv' ++ u) with ((cv :: rawv') ++ u).
      rewrite (Av f' d' u Hlen Hd Hu).
      rewrite !consumed_app.
      replace (consumed (c :: body ++ ws1 ++ c2 :: ws2 ++ (cv :: rawv') ++ u)
                        (ws1 ++ c2 :: ws2 ++ (cv :: rawv') ++ u))
        with (c :: body)
        by (symmetry;
            change (c :: body ++ ws1 ++ c2 :: ws2 ++ (cv :: rawv') ++ u)
              with ((c :: body) ++ ws1 ++ c2 :: ws2 ++ (cv :: rawv') ++ u);
            apply consumed_app).
      reflexivity. }
    assert (Hs : c :: r = (c :: body ++ ws1 ++ c2 :: ws2 ++ (cv :: rawv')) ++ r3).
    { rewrite Ebody, Ews1, Ews2, Erawv. cbn [app]. rewrite <- !app_assoc.
      cbn [app]. rewrite <- !app_assoc. reflexivity. }
    destruct (c4 =? ",") eqn:E4.
    + destruct (scan fuel MMembers depth (skipSpace r4)) as [[ms5 r5]|] eqn:Em;
        [|discriminate].
      intros E. inversion E. subst ms rest.
      destruct (skipSpace_split r4) as [ws4 [Ews4 Aws4]].
      destruct (IH _ _ _ _ _ Em) as [rawm [Erawm [Hnem Am]]].
      destruct (skipSpace r4) as [|cm rm] eqn:Er4;
        [destruct rawm; [congruence|discriminate]|].
      pose proof (skipSpace_head _ _ _ Er4) as Hcm.
      destruct (app_head_eq _ _ _ _ Erawm Hnem) as [rawm' ->].
      exists ((c :: body ++ ws1 ++ c2 :: ws2 ++ (cv :: rawv'))
                ++ ws3 ++ c4 :: ws4 ++ cm :: rawm').
      split; [|split; [discriminate|]].
      { rewrite Hs, Ews3, Ews4, Erawm. rewrite <- !app_assoc. cbn [app].
        rewrite <- !app_assoc. reflexivity. }
      intros [|f'] d' t Hlen Hd _; [simpl in Hlen; lia|].
      rewrite <- app_assoc.
      assert (Hl : (length (cv :: rawv') <= f')%nat
                   /\ (length (cv :: rawm') <= f')%nat).
      { clear - Hlen. try split; lens Hlen. }
      rewrite Hpre; [|tauto|assumption|].
      2:{ rewrite <- app_assoc. apply Hsp. rewrite ?E4, ?E5. reflexivity. }
      rewrite <- app_assoc, skipSpace_app by assumption.
      cbn [app]. rewrite skipSpace_cons by assumption. rewrite E4.
      rewrite <- app_assoc, skipSpace_app by assumption.
      cbn [app]. rewrite skipSpace_cons by assumption.
      assert (Am' : scan f' MMembers d' ((cm :: rawm') ++ t) = Some (ms5, t)).
      { apply Am; [|assumption|exact I]. cbn [length] in *. lia. }
      cbn [app] in Am'. rewrite Am'. reflexivity.
    + destruct (c4 =? "}") eqn:E5; [|discriminate].
      intros E. inversion E. subst ms rest.
      exists ((c :: body ++ ws1 ++ c2 :: ws2 ++ (cv :: rawv')) ++ ws3 ++ [c4]).
      split; [|split; [discriminate|]].
      { rewrite Hs, Ews3. rewrite <- !app_assoc. reflexivity. }
      intros [|f'] d' t Hlen Hd _; [simpl in Hlen; lia|].
      rewrite <- app_assoc.
      assert (Hl : (length (cv :: rawv') <= f')%nat).
      { clear - Hlen. try split; lens Hlen. }
      rewrite Hpre; [|tauto|assumption|].
      2:{ rewrite <- app_assoc. apply Hsp. rewrite ?E4, ?E5. reflexivity. }
      rewrite <- app_assoc, skipSpace_app by assumption.
      cbn [app]. rewrite skipSpace_cons by assumption. rewrite E4, E5.
      reflexivity.
  - (* the elements of an array *)
    destruct (scan fuel MValue depth s) as [[msv r3]|] eqn:Ev; [|discriminate].
    destruct (IH _ _ _ _ _ Ev) as [rawv [Erawv [Hnev Av]]].
    destruct (skipSpace r3) as [|c4 r4] eqn:Er3; [discriminate|].
    destruct (skipSpace_split r3) as [ws3 [Ews3 Aws3]]. rewrite Er3 in Ews3.
    pose proof (skipSpace_head _ _ _ Er3) as Hc4.
    assert (Hsp : forall x, (c4 =? ",") || (c4 =? "]") = true ->
                            numTail (ws3 ++ c4 :: x)).
    { intros x H4. destruct ws3 as [|w ws3']; simpl.
      - apply orb_prop in H4 as [H4|H4]; apply Ascii.eqb_eq in H4;
          subst c4; reflexivity.
      - inversion Aws3 as [|? ? Hw _]. subst.
        unfold isSpace in Hw.
        repeat (apply orb_prop in Hw as [Hw|Hw]);
          apply Ascii.eqb_eq in Hw; subst w; reflexivity. }
    destruct (c4 =? ",") eqn:E4.
    + intros Em.
      destruct (skipSpace_split r4) as [ws4 [Ews4 Aws4]].
      destruct (IH _ _ _ _ _ Em) as [rawm [Erawm [Hnem Am]]].
      destruct (skipSpace r4) as [|cm rm] eqn:Er4;
        [destruct rawm; [congruence|discriminate]|].
      pose proof (skipSpace_head _ _ _ Er4) as Hcm.
      destruct (app_head_eq _ _ _ _ Erawm Hnem) as [rawm' ->].
      exists (rawv ++ ws3 ++ c4 :: ws4 ++ cm :: rawm').
      split; [|split].
      { rewrite Erawv, Ews3, Ews4, Erawm. rewrite <- !app_assoc. cbn [app].
        rewrite <- !app_assoc. reflexivity. }
      { destruct rawv; [congruence|discriminate]. }
      intros [|f'] d' t Hlen Hd _.
      { destruct rawv; [congruence|simpl in Hlen; lia]. }
      rewrite scan_S. rewrite <- app_assoc.
      assert (Hl : (length rawv <= f')%nat /\ (length (cm :: rawm') <= f')%nat).
      { clear - Hlen. try split; lens Hlen. }
      rewrite (Av f' d'); [|tauto|assumption|].
      2:{ rewrite <- app_assoc. apply Hsp. rewrite ?E4, ?E5. reflexivity. }
      rewrite <- app_assoc, skipSpace_app by assumption.
      cbn [app]. rewrite skipSpace_cons by assumption. rewrite E4.
      rewrite <- app_assoc, skipSpace_app by assumption.
      cbn [app]. rewrite skipSpace_cons by assumption.
      assert (Am' : scan f' MElements d' ((cm :: rawm') ++ t) = Some (ms, t)).
      { apply Am; [|assumption|exact I]. cbn [length] in *. lia. }
      cbn [app] in Am'. exact Am'.
    + destruct (c4 =? "]") eqn:E5; [|discriminate].
      intros E. inversion E. subst ms rest.
      exists (rawv ++ ws3 ++ [c4]).
      split; [|split].
      { rewrite Erawv, Ews3. rewrite <- !app_assoc. reflexivity. }
      { destruct rawv; [congruence|discriminate]. }
      intros [|f'] d' t Hlen Hd _.
      { destruct rawv; [congruence|simpl in Hlen; lia]. }
      rewrite scan_S. rewrite <- app_assoc.
      assert (Hl : (length rawv <= f')%nat).
      { clear - Hlen. lens Hlen. }
      rewrite (Av f' d'); [|tauto|assumption|].
      2:{ rewrite <- app_assoc. apply Hsp. rewrite ?E4, ?E5. reflexivity. }
      rewrite <- app_assoc, skipSpace_app by assumption.
      cbn [app]. rewrite skipSpace_cons by assumption. rewrite E4, E5.
      reflexivity.
Qed.

(** ** What the scanner lets through, [unquote] takes *)

Lemma inRange_high lo hi c :
  (128 <= lo)%N -> inRange lo hi c = true -> (code c <? 128)%N = false.
Proof.
  unfold inRange. intros Hlo H. apply andb_prop in H as [H _].
  apply N.leb_le in H. apply N.ltb_ge. lia.
Qed.

Lemma runeLen_high c l k : runeLen (c :: l) = S k -> highPrefix k l.
Proof.
  unfold runeLen.
  destruct (inRange 0 127 c).
  { intros E. inversion E. exact I. }
  destruct (inRange 194 223 c).
  { destruct l as [|c1 l]; [discriminate|].
    destruct (inRange 128 191 c1) eqn:E1; [|discriminate].
    intros E. inversion E. simpl. split; [|exact I].
    apply (inRange_high 128 191); [lia | exact E1]. }
  destruct (inRange 224 239 c).
  { destruct l as [|c1 [|c2 l]]; try discriminate.
    match goal with |- context [inRange ?lo ?hi c1] =>
      destruct (inRange lo hi c1) eqn:E1; [|discriminate];
      assert (H1 : (code c1 <? 128)%N = false)
        by (apply (inRange_high lo hi); [destruct (c =? chr 224); lia | exact E1])
    end.
    destruct (inRange 128 191 c2) eqn:E2; [|discriminate].
    intros E. inversion E. simpl. repeat split; [exact H1|].
    apply (inRange_high 128 191); [lia | exact E2]. }
  destruct (inRange 240 244 c); [|discriminate].
  destruct l as [|c1 [|c2 [|c3 l]]]; try discriminate.
  match goal with |- context [inRange ?lo ?hi c1] =>
    destruct (inRange lo hi c1) eqn:E1; [|discriminate];
    assert (H1 : (code c1 <? 128)%N = false)
      by (apply (inRange_high lo hi); [destruct (c =? chr 240); lia | exact E1])
  end.
  destruct (inRange 128 191 c2) eqn:E2; [|discriminate].
  destruct (inRange 128 191 c3) eqn:E3; [|discriminate].
  intros E. inversion E. simpl. repeat split; [exact H1| |].
  - apply (inRange_high 128 191); [lia | exact E2].
  - apply (inRange_high 128 191); [lia | exact E3].
Qed.

Lemma isSimpleEscape_simpleEscape e :
  isSimpleEscape e = true ->
  (e =? "u") = false /\ exists b, simpleEscape e = Some b.
Proof.
  unfold isSimpleEscape. intros H.
  repeat (apply orb_prop in H as [H|H]);
    apply Ascii.eqb_eq in H; subst e; (split; [reflexivity|]);
    eexists; reflexivity.
Qed.

Lemma option_map_is_Some {A B} (f : A -> B) (o : option A) :
  is_Some o -> is_Some (option_map f o).
Proof. intros [x ->]. simpl. eauto. Qed.

Lemma high_not_special c :
  (code c <? 128)%N = false ->
  (c =? dquote) = false /\ (c =? backslash) = false /\ (code c <? 32)%N = false.
Proof.
  intros H. apply N.ltb_ge in H. repeat split.
  - apply Ascii.eqb_neq. intros ->. vm_compute in H. apply H. reflexivity.
  - apply Ascii.eqb_neq. intros ->. vm_compute in H. apply H. reflexivity.
  - apply N.ltb_ge. lia.
Qed.

Lemma scanString_unquote (s : bytes) : forall rest,
  scanString s = Some rest ->
  exists body, s = body ++ dquote :: rest
               /\ forall k, highPrefix k body -> is_Some (unquoteBody k body).
Proof.
  remember (length s) as n eqn:En.
  revert s En. induction n as [n IH] using lt_wf_ind. intros s En rest.
  destruct s as [|c r]; [discriminate|].
  (* the bytes of a rune being copied are passed over by the scanner *)
  assert (Hcopy : forall body', 
            (forall k, highPrefix k body' -> is_Some (unquoteBody k body')) ->
            forall k, highPrefix (S k) (c :: body') ->
                      is_Some (unquoteBody (S k) (c :: body'))).
  { intros body' A k [_ Hk]. simpl. apply option_map_is_Some. auto. }
  cbn [scanString].
  destruct (c =? dquote) eqn:Eq.
  { apply Ascii.eqb_eq in Eq. subst c.
    intros E. inversion E. subst rest. exists []. split; [reflexivity|].
    intros [|k] Hk; [simpl; eauto | destruct Hk]. }
  destruct (c =? backslash) eqn:Eb.
  { apply Ascii.eqb_eq in Eb. subst c.
    destruct r as [|e r1]; [discriminate|].
    destruct (isSimpleEscape e) eqn:Ee.
    { intros E. destruct (IH (length r1)) with (s := r1) (rest := rest)
        as [body [E1 A]]; [simpl in En; lia | reflexivity | exact E |].
      exists (backslash :: e :: body). split; [simpl; congruence|].
      intros [|k] Hk; [|destruct Hk as [Hk _]; discriminate Hk].
      destruct (isSimpleEscape_simpleEscape e Ee) as [Eu [b Eb]].
      cbn [unquoteBody]. rewrite Ascii.eqb_refl, Eu, Eb.
      apply option_map_is_Some, A. exact I. }
    destruct (e =? "u") eqn:Eu; [|discriminate].
    destruct r1 as [|h1 [|h2 [|h3 [|h4 r2]]]]; try discriminate.
    destruct (isHex h1 && isHex h2 && isHex h3 && isHex h4) eqn:Eh; [|discriminate].
    intros E. destruct (IH (length r2)) with (s := r2) (rest := rest)
      as [body [E1 A]]; [simpl in En; lia | reflexivity | exact E |].
    exists (backslash :: e :: h1 :: h2 :: h3 :: h4 :: body).
    split; [simpl; congruence|].
    intros [|k] Hk; [|destruct Hk as [Hk _]; discriminate Hk].
    cbn [unquoteBody]. rewrite Ascii.eqb_refl, Eu.
    unfold getu4 at 1. rewrite Ascii.eqb_refl, Eu. cbn [andb]. rewrite Eh.
    match goal with |- context [isSurrogate ?x] => destruct (isSurrogate x) end;
      [|apply option_map_is_Some, A; exact I].
    destruct (getu4 body) as [rr1|] eqn:Eg;
      [|apply option_map_is_Some, A; exact I].
    destruct body as [|b0 [|b1 [|b2 [|b3 [|b4 [|b5 r3]]]]]];
      try (apply option_map_is_Some, A; exact I).
    destruct (decodeSurrogates _ rr1);
      [|apply option_map_is_Some, A; exact I].
    apply option_map_is_Some.
    (* the second escape is passed over by the scanner *)
    unfold getu4 in Eg.
    destruct ((b0 =? backslash) && (b1 =? "u") && isHex b2 && isHex b3
              && isHex b4 && isHex b5) eqn:Eg'; [|discriminate].
    repeat (apply andb_prop in Eg' as [Eg' ?]).
    apply Ascii.eqb_eq in Eg'. subst b0.
    match goal with H : (b1 =? "u") = true |- _ =>
      apply Ascii.eqb_eq in H; subst b1 end.
    rewrite E1 in E. cbn [app scanString] in E.
    change (backslash =? dquote) with false in E.
    rewrite Ascii.eqb_refl in E.
    change (isSimpleEscape "u") with false in E.
    change ("u" =? "u") with true in E. cbv iota in E.
    match type of E with (if ?b then _ else _) = _ =>
      replace b with true in E
        by (symmetry; repeat (apply andb_true_intro; split); assumption) end.
    destruct (IH (length (r3 ++ dquote :: rest))) with
        (s := r3 ++ dquote :: rest) (rest := rest) as [body3 [E3 A3]];
      [ | reflexivity | exact E | ].
    { subst n. rewrite E1. cbn [length app].
      repeat (rewrite ?length_app; cbn [length]). lia. }
    apply app_inv_tail in E3. subst body3. apply A3. exact I. }
  destruct (code c <? 32)%N eqn:Ec; [discriminate|].
  intros E. destruct (IH (length r)) with (s := r) (rest := rest)
    as [body [E1 A]]; [simpl in En; lia | reflexivity | exact E |].
  exists (c :: body). split; [simpl; congruence|].
  intros [|k] Hk; [|apply Hcopy; assumption].
  cbn [unquoteBody]. rewrite Eb, Eq, Ec. cbn [orb].
  destruct (code c <? 128)%N; [apply option_map_is_Some, A; exact I|].
  destruct (runeLen (c :: body)) as [|k] eqn:Er.
  - apply option_map_is_Some, A. exact I.
  - apply option_map_is_Some, A. apply (runeLen_high c). exact Er.
Qed.

Lemma unquote_literal (body : bytes) :
  unquote (dquote :: body ++ [dquote]) = unquoteBody 0 body.
Proof.
  unfold unquote. rewrite Ascii.eqb_refl, last_last, Ascii.eqb_refl.
  rewrite length_app. cbn [length]. rewrite Nat.add_1_r. cbn [Nat.eqb negb andb].
  rewrite removelast_last. reflexivity.
Qed.

(** ** The members of an object *)

Lemma within_tail (v x pre : bytes) : within v x -> within v (pre ++ x).
Proof.
  intros [p [q ->]]. exists (pre ++ p), q. rewrite <- app_assoc. reflexivity.
Qed.

Lemma within_cons (v x : bytes) c : within v x -> within v (c :: x).
Proof. apply (within_tail v x [c]). Qed.

Lemma within_mid (v pre post : bytes) : within v (pre ++ v ++ post).
Proof. exists pre, post. reflexivity. Qed.

Lemma scan_string_value fuel depth r ms rest :
  scan fuel MValue depth (dquote :: r) = Some (ms, rest) ->
  scanString r = Some rest.
Proof.
  destruct fuel; [discriminate|]. rewrite scan_S.
  change (dquote =? "{") with false. change (dquote =? "[") with false.
  rewrite Ascii.eqb_refl. cbv iota.
  destruct (scanString r); [|discriminate]. simpl. congruence.
Qed.

Lemma string_literal (r rest : bytes) :
  scanString r = Some rest ->
  exists body, dquote :: r = (dquote :: body ++ [dquote]) ++ rest
               /\ is_Some (unquote (dquote :: body ++ [dquote])).
Proof.
  intros E. destruct (scanString_unquote _ _ E) as [body [E1 A]].
  exists body. split.
  - rewrite E1. cbn [app]. rewrite <- app_assoc. reflexivity.
  - rewrite unquote_literal. apply A. exact I.
Qed.

Lemma scan_value_document fuel depth ms rest c r :
  scan fuel MValue depth (c :: r) = Some (ms, rest) ->
  isSpace c = false ->
  exists raw, c :: r = raw ++ rest /\ raw <> [] /\
              document raw = Some (raw, ms).
Proof.
  intros E Hc. destruct (scan_reads _ _ _ _ _ _ E) as [raw [E1 [Hne A]]].
  exists raw. split; [exact E1|]. split; [exact Hne|].
  destruct (app_head_eq _ _ _ _ E1 Hne) as [raw' ->].
  unfold document. rewrite skipSpace_cons by exact Hc.
  specialize (A (S (length (c :: raw'))) 0%N [] (Nat.le_succ_diag_r _)
                (N.le_0_l _) I).
  rewrite app_nil_r in A. rewrite A. cbn [skipSpace].
  rewrite consumed_nil. reflexivity.
Qed.

Lemma scan_members fuel : forall m depth s ms rest,
  scan fuel m depth s = Some (ms, rest) ->
  Forall (fun kv => memberOK kv /\ within (snd kv) s) ms.
Proof.
  induction fuel as [|fuel IH]; intros m depth s ms rest; [discriminate|].
  rewrite scan_S. destruct m.
  - destruct s as [|c r]; [discriminate|].
    destruct (c =? "{").
    { destruct (maxNestingDepth <=? depth)%N; [discriminate|].
      destruct (skipSpace r) as [|c1 r1] eqn:Er; [discriminate|].
      destruct (skipSpace_split r) as [ws [Ews _]]. rewrite Er in Ews.
      destruct (c1 =? "}").
      - intros E. inversion E. constructor.
      - intros E. apply IH in E. eapply List.Forall_impl; [|exact E]. clear E.
        intros kv [Hk Hw]. split; [exact Hk|].
        apply within_cons. rewrite Ews. apply within_tail. exact Hw. }
    destruct (c =? "[").
    { destruct (maxNestingDepth <=? depth)%N; [discriminate|].
      destruct (skipSpace r) as [|c1 r1]; [discriminate|].
      destruct (c1 =? "]").
      - intros E. inversion E. constructor.
      - destruct (scan fuel MElements (depth + 1) (c1 :: r1)) as [[? ?]|];
          [|discriminate].
        intros E. inversion E. constructor. }
    repeat match goal with
           | |- context [if ?b then _ else _] => destruct b
           | |- option_map _ ?o = _ -> _ =>
             destruct o; simpl; [|discriminate];
               intros E; inversion E; constructor
           end.
    discriminate.
  - destruct s as [|c r]; [discriminate|].
    destruct (c =? dquote) eqn:Eq; [|discriminate].
    apply Ascii.eqb_eq in Eq. subst c.
    destruct (scanString r) as [r1|] eqn:Ek; [|discriminate].
    destruct (string_literal _ _ Ek) as [body [Ebody Ukey]].
    destruct (skipSpace r1) as [|c2 r2] eqn:Er1; [discriminate|].
    destruct (skipSpace_split r1) as [ws1 [Ews1 _]]. rewrite Er1 in Ews1.
    destruct (c2 =? ":"); [|discriminate].
    cbv zeta.
    destruct (skipSpace_split r2) as [ws2 [Ews2 _]].
    destruct (skipSpace r2) as [|cv rv] eqn:Er2.
    { destruct fuel; discriminate. }
    pose proof (skipSpace_head _ _ _ Er2) as Hcv.
    destruct (scan fuel MValue depth (cv :: rv)) as [[msv r3]|] eqn:Ev;
      [|discriminate].
    destruct (scan_value_document _ _ _ _ _ _ Ev Hcv)
      as [rawv [Erawv [Hnev Dv]]].
    destruct (skipSpace r3) as [|c4 r4] eqn:Er3; [discriminate|].
    destruct (skipSpace_split r3) as [ws3 [Ews3 _]]. rewrite Er3 in Ews3.
    rewrite Ebody, Erawv, !consumed_app.
    assert (Hkv : memberOK (dquote :: body ++ [dquote], rawv)
                  /\ within rawv ((dquote :: body ++ [dquote]) ++ r1)).
    { split; [split; [exact Ukey | split; [eauto|]]|].
      - cbn [snd]. intros r' Er'.
        assert (Hq : cv = dquote)
          by (rewrite Er' in Erawv; cbn [app] in Erawv; congruence).
        subst cv. apply scan_string_value in Ev.
        destruct (string_literal _ _ Ev) as [bodyv [Ebv Uv]].
        assert (Hsame : rawv = dquote :: bodyv ++ [dquote])
          by (apply (app_inv_tail r3); congruence).
        rewrite Hsame. exact Uv.
      - apply within_tail. rewrite Ews1. apply within_tail, within_cons.
        rewrite Ews2. apply within_tail. rewrite Erawv.
        exists [], r3. reflexivity. }
    destruct (c4 =? ",").
    + destruct (scan fuel MMembers depth (skipSpace r4)) as [[ms5 r5]|] eqn:Em;
        [|discriminate].
      intros E. inversion E. subst ms rest.
      constructor; [exact Hkv|].
      apply IH in Em. eapply List.Forall_impl; [|exact Em]. clear Em.
      intros kv [Hk Hw]. split; [exact Hk|].
      destruct (skipSpace_split r4) as [ws4 [Ews4 _]].
      apply within_tail. rewrite Ews1. apply within_tail, within_cons.
      rewrite Ews2. apply within_tail. rewrite Erawv. apply within_tail.
      rewrite Ews3. apply within_tail, within_cons.
      rewrite Ews4. apply within_tail. exact Hw.
    + destruct (c4 =? "}"); [|discriminate].
      intros E. inversion E. subst ms rest.
      constructor; [exact Hkv | constructor].
  - destruct (scan fuel MValue depth s) as [[msv r3]|] eqn:Ev; [|discriminate].
    destruct (scan_reads _ _ _ _ _ _ Ev) as [rawv [Erawv _]].
    destruct (skipSpace r3) as [|c4 r4] eqn:Er3; [discriminate|].
    destruct (skipSpace_split r3) as [ws3 [Ews3 _]]. rewrite Er3 in Ews3.
    destruct (c4 =? ",").
    + intros Em. apply IH in Em. eapply List.Forall_impl; [|exact Em]. clear Em.
      intros kv [Hk Hw]. split; [exact Hk|].
      destruct (skipSpace_split r4) as [ws4 [Ews4 _]].
      rewrite Erawv. apply within_tail.
      rewrite Ews3. apply within_tail, within_cons.
      rewrite Ews4. apply within_tail. exact Hw.
    + destruct (c4 =? "]"); [|discriminate].
      intros E. inversion E. constructor.
Qed.

(** A document: its text stands in the input, between blanks; its
    members are as above. *)
Lemma document_members (data raw : bytes) ms :
  document data = Some (raw, ms) ->
  raw <> [] /\ within raw data
  /\ Forall (fun kv => memberOK kv /\ within (snd kv) data) ms.
Proof.
  unfold document. intros E.
  destruct (skipSpace_split data) as [ws [Ews _]].
  destruct (scan (S (length (skipSpace data))) MValue 0 (skipSpace data))
    as [[ms' rest]|] eqn:Es; [|discriminate].
  destruct (skipSpace rest) eqn:Er; [|discriminate].
  injection E as Eraw Ems. subst ms'.
  destruct (scan_reads _ _ _ _ _ _ Es) as [raw0 [E0 [Hne _]]].
  assert (raw = raw0) by (rewrite <- Eraw, E0; apply consumed_app).
  subst raw0. clear Eraw.
  split; [exact Hne|]. split.
  - rewrite Ews, E0. apply within_tail. exists [], rest. reflexivity.
  - apply scan_members in Es. eapply List.Forall_impl; [|exact Es]. clear Es.
    intros kv [Hk Hw]. split; [exact Hk|].
    rewrite Ews. apply within_tail. exact Hw.
Qed.

(** The fuel [document] gives itself is enough: a value read with any
    fuel, and followed by blanks only, is the document. *)
Lemma document_adequate fuel (data : bytes) ms rest :
  scan fuel MValue 0 (skipSpace data) = Some (ms, rest) ->
  skipSpace rest = [] ->
  document data = Some (consumed (skipSpace data) rest, ms).
Proof.
  intros E Hr.
  destruct (scan_reads _ _ _ _ _ _ E) as [raw [E1 [_ A]]].
  assert (Ht : numTail rest).
  { destruct rest as [|c r]; [exact I|]. cbn [skipSpace] in Hr.
    destruct (isSpace c) eqn:Ec; [|discriminate].
    unfold isSpace in Ec.
    repeat (apply orb_prop in Ec as [Ec|Ec]);
      apply Ascii.eqb_eq in Ec; subst c; reflexivity. }
  unfold document.
  assert (Hf : (length raw <= S (length (skipSpace data)))%nat).
  { rewrite E1, length_app. lia. }
  specialize (A _ 0%N rest Hf (N.le_refl _) Ht).
  rewrite <- E1 in A. rewrite A, Hr. reflexivity.
Qed.

End JsonFacts.

(** ** Decoding *)

Module DecodeFacts.
Import Json JsonFacts.

Lemma fieldIs_exclusive (n1 n2 : string) key :
  fieldIs n1 key = true ->
  stringOf (foldName (bytesOf n1)) <> stringOf (foldName (bytesOf n2)) ->
  fieldIs n2 key = false.
Proof.
  unfold fieldIs. intros H1 Hne. apply String.eqb_eq in H1.
  apply String.eqb_neq. congruence.
Qed.

Lemma Time_UnmarshalJSON_err parseTime raw t t' :
  fst (Time_UnmarshalJSON parseTime raw t)
  = fst (Time_UnmarshalJSON parseTime raw t').
Proof.
  unfold Time_UnmarshalJSON.
  destruct (stringOf raw =? "null")%string; [reflexivity|].
  destruct raw as [|c r]; [reflexivity|].
  destruct ((c =? dquote)%char && (List.last r "000"%char =? dquote)%char
            && negb (Nat.eqb (length r) 0)); [|reflexivity].
  destruct (parseTime (List.removelast r)); reflexivity.
Qed.

Lemma memberOK_nonempty kv : memberOK kv -> snd kv <> [].
Proof.
  intros [_ [[msv D] _]] E. rewrite E in D. discriminate D.
Qed.

Section Members.

Variable parseTime : bytes -> option Time.

(** One member: the decoder stops on it exactly when it is a bad
    timestamp, and saves an error exactly when it is a mismatch. *)
Lemma decodeMember_spec kv d :
  memberOK kv ->
  match decodeMember parseTime kv d with
  | inl _ => badTime parseTime kv = true
  | inr d' =>
    badTime parseTime kv = false
    /\ (savedError d' = None <->
        savedError d = None /\ mismatch kv = false)
  end.
Proof.
  destruct kv as [k raw]. intros OK.
  pose proof (memberOK_nonempty _ OK) as Hne.
  destruct OK as [[key Hkey] [_ Hstr]]. cbn [fst snd] in *.
  unfold decodeMember, badTime, mismatch, keyIs. cbn [fst snd].
  rewrite Hkey.
  assert (Hstore : forall set,
            match storeString raw set d with
            | Some d' =>
              (savedError d' = None <->
               savedError d = None
               /\ negb (startsWith dquote raw || startsWith "n" raw) = false)
            | None => False
            end).
  { intros set. unfold storeString, startsWith.
    destruct raw as [|c r]; [congruence|].
    destruct (c =? dquote)%char eqn:Eq.
    - apply Ascii.eqb_eq in Eq. subst c.
      destruct (Hstr r eq_refl) as [s ->]. cbn. tauto.
    - destruct (c =? "n")%char eqn:En; cbn; [tauto|].
      unfold saveError. destruct (savedError d) eqn:Es; cbn; rewrite ?Es;
        (split; intros H; [discriminate H | destruct H as [_ H]; discriminate H]). }
  destruct (fieldIs "table" key) eqn:E1.
  { rewrite (fieldIs_exclusive _ "timestamp" _ E1) by (vm_compute; discriminate).
    specialize (Hstore setTable).
    destruct (storeString raw setTable d); [|contradiction].
    cbn. split; [reflexivity | exact Hstore]. }
  destruct (fieldIs "operation" key) eqn:E2.
  { rewrite (fieldIs_exclusive _ "timestamp" _ E2) by (vm_compute; discriminate).
    specialize (Hstore setOperation).
    destruct (storeString raw setOperation d); [|contradiction].
    cbn. split; [reflexivity | exact Hstore]. }
  cbn [orb andb].
  destruct (fieldIs "data" key) eqn:E3.
  { rewrite (fieldIs_exclusive _ "timestamp" _ E3) by (vm_compute; discriminate).
    cbn. tauto. }
  destruct (fieldIs "timestamp" key) eqn:E4; [|cbn; tauto].
  cbn [andb].
  rewrite (Time_UnmarshalJSON_err parseTime raw zeroTime (Timestamp (val d))).
  destruct (Time_UnmarshalJSON parseTime raw (Timestamp (val d))) as [[e|] t];
    cbn; tauto.
Qed.

Lemma decodeObject_spec ms : forall d,
  Forall memberOK ms ->
  match decodeObject parseTime ms d with
  | inl _ => existsb (badTime parseTime) ms = true
  | inr d' =>
    existsb (badTime parseTime) ms = false
    /\ (savedError d' = None <->
        savedError d = None /\ existsb mismatch ms = false)
  end.
Proof.
  induction ms as [|kv ms IH]; intros d OK; cbn [decodeObject existsb].
  - tauto.
  - inversion OK as [|? ? Hkv Hms]. subst.
    pose proof (decodeMember_spec kv d Hkv) as Hm.
    destruct (decodeMember parseTime kv d) as [[e d1]|d1].
    + rewrite Hm. reflexivity.
    + destruct Hm as [Hb Hs]. rewrite Hb. cbn [orb].
      specialize (IH d1 Hms).
      destruct (decodeObject parseTime ms d1) as [[e d2]|d2]; [exact IH|].
      destruct IH as [Hb2 Hs2]. split; [exact Hb2|].
      rewrite Hs2, Hs. rewrite orb_false_iff. tauto.
Qed.

(** [json.Unmarshal] returns an error exactly on what is [rejected]. *)
Lemma Unmarshal_rejected data v :
  fst (Unmarshal parseTime data v) <> None <-> rejected parseTime data.
Proof.
  unfold Unmarshal, rejected.
  destruct (document data) as [[raw ms]|] eqn:D; [|cbn; split; [trivial|discriminate]].
  destruct (document_members _ _ _ D) as [Hne [_ OK]].
  destruct raw as [|c r]; [congruence|]. cbn [startsWith].
  destruct (c =? "{")%char eqn:Eo.
  - assert (OK' : Forall memberOK ms)
      by (eapply List.Forall_impl; [|exact OK]; cbn; tauto).
    pose proof (decodeObject_spec ms (mkDecodeState v None) OK') as Hd.
    assert (Hex : existsb (fun kv => mismatch kv || badTime parseTime kv) ms
                  = existsb mismatch ms || existsb (badTime parseTime) ms).
    { clear. induction ms as [|kv ms IH]; [reflexivity|]. cbn [existsb].
      rewrite IH. destruct (mismatch kv), (badTime parseTime kv),
        (existsb mismatch ms); reflexivity. }
    rewrite Hex.
    destruct (decodeObject parseTime ms (mkDecodeState v None)) as [[e d]|d];
      cbn [fst].
    + rewrite Hd, orb_true_r. split; [reflexivity | discriminate].
    + destruct Hd as [Hb Hs]. rewrite Hb, orb_false_r. cbn [savedError] in Hs.
      destruct (savedError d), (existsb mismatch ms); split; intros H;
        try reflexivity; try discriminate; try congruence.
      * exfalso. destruct Hs as [_ Hs]. discriminate Hs. split; reflexivity.
      * exfalso. destruct Hs as [Hs _]. destruct (Hs eq_refl). discriminate.
  - destruct (c =? "n")%char; cbn [fst]; split; intros H;
      try reflexivity; try discriminate; congruence.
Qed.

End Members.
End DecodeFacts.

(** ** The listener *)

Section ListenerFacts.

Variable parseTime : bytes -> option Time.
Context {H X : Type} `{!TableChangeHandler H X}.

Implicit Types (p : Process (H := H) (X := X)) (payload : string).

Lemma handleNotification_failed payload p :
  decoded parseTime payload = None ->
  exists err, fst (Unmarshal parseTime (bytesOf payload) zeroNotification) = Some err
    /\ handleNotification parseTime payload p
       = (Some (Errorf "failed to parse notification" err), p).
Proof.
  unfold decoded, handleNotification.
  destruct (Unmarshal parseTime (bytesOf payload) zeroNotification) as [[err|] ev];
    [|discriminate].
  intros _. exists err. split; reflexivity.
Qed.

Lemma handleNotification_decoded payload ev p :
  decoded parseTime payload = Some ev ->
  handleNotification parseTime payload p
  = match handlers (dl p) !! Table ev with
    | None => (None, p)
    | Some handler => invoke handler (Operation ev) (Data ev) p
    end.
Proof.
  unfold decoded, handleNotification.
  destruct (Unmarshal parseTime (bytesOf payload) zeroNotification) as [[err|] ev'];
    [discriminate|].
  intros E. inversion E. reflexivity.
Qed.

(** What [handleNotification] leaves as it was. *)
Lemma handleNotification_frame payload p :
  let p' := snd (handleNotification parseTime payload p) in
  dl p' = dl p /\ session p' = session p /\ now p' = now p
  /\ probes p' = probes p.
Proof.
  destruct (decoded parseTime payload) as [ev|] eqn:D.
  - rewrite (handleNotification_decoded _ _ _ D).
    destruct (handlers (dl p) !! Table ev) as [h|]; cbn; [|tauto].
    unfold invoke. destruct (HandleChange h (Operation ev) (Data ev) (world p)).
    cbn. tauto.
  - destruct (handleNotification_failed _ p D) as [err [_ ->]]. cbn. tauto.
Qed.

(** The turn of a notification, laid out. *)
Lemma turn_notified w n p :
  turn parseTime (Notified w (Some n)) p
  = let p0 := mkProcess (dl p) (session p) (world p) (now p + w)
                        (calls p) (probes p) in
    match handleNotification parseTime (Extra n) p0 with
    | (Some err, p1) =>
      (None, mkProcess (dl p1) (session p1)
                       (logTo (Printf "Error: %v" [AError err]) (world p1))
                       (now p1) (calls p1) (probes p1))
    | (None, p1) => (None, p1)
    end.
Proof.
  cbv [turn mbind M_bind mret M_ret elapse logM].
  destruct (handleNotification parseTime (Extra n) _) as [[err|] p1];
    reflexivity.
Qed.

(** A turn changes neither the listener nor the session. *)
Lemma turn_frame o p :
  dl (snd (turn parseTime o p)) = dl p
  /\ session (snd (turn parseTime o p)) = session p.
Proof.
  destruct o as [w [n|]|ping|ev [err|]]; try (split; reflexivity).
  rewrite turn_notified. cbv zeta.
  pose proof (handleNotification_frame (Extra n)
    (mkProcess (dl p) (session p) (world p) (now p + w) (calls p) (probes p)))
    as [Hdl [Hs _]].
  cbn in Hdl, Hs.
  destruct (handleNotification parseTime (Extra n) _) as [[err|] p1]; cbn in *;
    split; assumption.
Qed.

Lemma turn_dl o p : dl (snd (turn parseTime o p)) = dl p.
Proof. apply turn_frame. Qed.

(** A turn returns exactly when it is a probe that fails. *)
Lemma turn_result o p :
  fst (turn parseTime o p)
  = match o with Elapsed (Some err) => Some err | _ => None end.
Proof.
  destruct o as [w [n|]|[err|]|ev [err|]]; try reflexivity.
  rewrite turn_notified. cbv zeta.
  destruct (handleNotification parseTime (Extra n) _) as [[err|] p1]; reflexivity.
Qed.

Lemma loop_cons o os p :
  loop parseTime (o :: os) p
  = match turn parseTime o p with
    | (Some err, p') => (Returned err, p')
    | (None, p') => loop parseTime os p'
    end.
Proof.
  cbn [loop]. unfold mbind, M_bind.
  destruct (turn parseTime o p) as [[err|] p']; reflexivity.
Qed.

Lemma loop_outcome os : forall p,
  fst (loop parseTime os p)
  = match firstProbeFailure os with
    | Some err => Returned err
    | None => Waiting
    end.
Proof.
  induction os as [|o os IH]; intros p; [reflexivity|].
  rewrite loop_cons. pose proof (turn_result o p) as Hr.
  destruct (turn parseTime o p) as [[err|] p']; cbn [fst] in Hr.
  - destruct o as [? ?|[?|]|? ?]; try discriminate.
    inversion Hr. reflexivity.
  - rewrite IH. destruct o as [? ?|[?|]|? ?]; try discriminate; reflexivity.
Qed.

Lemma loop_frame os : forall p,
  dl (snd (loop parseTime os p)) = dl p
  /\ session (snd (loop parseTime os p)) = session p.
Proof.
  induction os as [|o os IH]; intros p; [split; reflexivity|].
  rewrite loop_cons. pose proof (turn_frame o p) as [Hd Hs].
  destruct (turn parseTime o p) as [[err|] p']; cbn [snd] in *.
  - split; assumption.
  - destruct (IH p') as [Hd' Hs']. split; congruence.
Qed.

(** A turn invokes one handler when its notification is delivered, and
    none otherwise. *)
Lemma turn_calls o p :
  length (calls (snd (turn parseTime o p)))
  = (length (calls p)
     + if delivered parseTime (handlers (dl p)) o then 1 else 0)%nat.
Proof.
  destruct o as [w [n|]|ping|ev [err|]]; cbn [delivered];
    try (cbv [turn mbind M_bind mret M_ret elapse logM eventCallback Ping];
         cbn; lia).
  rewrite turn_notified. cbv zeta.
  set (p0 := mkProcess (dl p) (session p) (world p) (now p + w) (calls p) (probes p)).
  destruct (decoded parseTime (Extra n)) as [ev|] eqn:D.
  - rewrite (handleNotification_decoded _ _ p0 D). cbn [dl p0].
    destruct (handlers (dl p) !! Table ev) as [h|].
    + unfold invoke.
      destruct (HandleChange h (Operation ev) (Data ev) (world p0)) as [[err|] w'];
        cbn; rewrite length_app; cbn; lia.
    + cbn. lia.
  - destruct (handleNotification_failed _ p0 D) as [err [_ ->]]. cbn. lia.
Qed.

Lemma loop_calls os : forall p,
  firstProbeFailure os = None ->
  length (calls (snd (loop parseTime os p)))
  = (length (calls p)
     + length (List.filter (delivered parseTime (handlers (dl p))) os))%nat.
Proof.
  induction os as [|o os IH]; intros p Hf; [cbn; lia|].
  rewrite loop_cons. pose proof (turn_result o p) as Hr.
  pose proof (turn_calls o p) as Hc. pose proof (turn_dl o p) as Hd.
  assert (Hf' : firstProbeFailure os = None
                /\ match o with Elapsed (Some _) => False | _ => True end).
  { destruct o as [? ?|[?|]|? ?]; cbn in Hf; try discriminate; tauto. }
  destruct Hf' as [Hf' Ho].
  destruct (turn parseTime o p) as [[err|] p']; cbn [fst snd] in *.
  - destruct o as [? ?|[?|]|? ?]; try discriminate; contradiction.
  - rewrite (IH p' Hf'), Hc, Hd. cbn [List.filter].
    destruct (delivered parseTime (handlers (dl p)) o); cbn [length]; lia.
Qed.

(** Windows that pass without a notification: a probe at the end of each. *)
Lemma quiet_windows k : forall os p,
  loop parseTime (List.repeat (Elapsed None) k ++ os) p
  = loop parseTime os
         (mkProcess (dl p) (session p) (world p)
            (now p + Z.of_nat k * livenessWindow)%Z (calls p)
            (probes p
             ++ map (fun i => (now p + Z.of_nat i * livenessWindow)%Z)
                    (seq 1 k))).
Proof.
  induction k as [|k IH]; intros os p.
  - destruct p. cbn. rewrite Z.add_0_r, app_nil_r. reflexivity.
  - cbn [List.repeat app]. rewrite loop_cons.
    change (turn parseTime (Elapsed None) p)
      with (@None error,
            mkProcess (dl p) (session p) (world p) (now p + livenessWindow)%Z
                      (calls p) (probes p ++ [(now p + livenessWindow)%Z])).
    cbv iota. rewrite IH. cbn [dl session world now calls probes].
    assert (Hn : forall i, (now p + livenessWindow + Z.of_nat i * livenessWindow
                            = now p + Z.of_nat (S i) * livenessWindow)%Z).
    { intros i. rewrite Nat2Z.inj_succ. unfold Z.succ. ring. }
    rewrite Hn, <- app_assoc. cbn [seq map app].
    replace (seq 2 k) with (map S (seq 1 k)) by apply seq_shift.
    rewrite List.map_map, (List.map_ext _ _ Hn).
    change (Z.of_nat 1) with 1%Z. rewrite Z.mul_1_l. reflexivity.
Qed.

End ListenerFacts.

(** ** The fields of a decoded event *)

Module EventFacts.
Import Json JsonFacts DecodeFacts.

Section Fields.

Variable parseTime : bytes -> option Time.

Lemma storeString_val raw set d d' :
  storeString raw set d = Some d' ->
  val d' = val d \/ exists s, val d' = set s (val d).
Proof.
  unfold storeString. destruct raw as [|c r]; [discriminate|].
  destruct (c =? dquote)%char.
  - destruct (unquote (c :: r)); [|discriminate].
    intros E. inversion E. right. eauto.
  - destruct (c =? "n")%char; intros E; inversion E; left; [reflexivity|].
    unfold saveError. destruct (savedError d); reflexivity.
Qed.

(** What one member does to each field. *)
Lemma decodeMember_fields kv d d1 :
  decodeMember parseTime kv d = inr d1 ->
  Data (val d1) = (if keyIs "data" kv then snd kv else Data (val d))
  /\ (keyIs "table" kv = false -> Table (val d1) = Table (val d))
  /\ (keyIs "operation" kv = false -> Operation (val d1) = Operation (val d))
  /\ (keyIs "timestamp" kv = false -> Timestamp (val d1) = Timestamp (val d)).
Proof.
  destruct kv as [k raw]. unfold decodeMember, keyIs. cbn [fst snd].
  destruct (unquote k) as [key|]; [|discriminate].
  destruct (fieldIs "table" key) eqn:E1.
  { rewrite (fieldIs_exclusive _ "data" _ E1) by (vm_compute; discriminate).
    rewrite (fieldIs_exclusive _ "operation" _ E1) by (vm_compute; discriminate).
    rewrite (fieldIs_exclusive _ "timestamp" _ E1) by (vm_compute; discriminate).
    destruct (storeString raw setTable d) as [d'|] eqn:Es; [|discriminate].
    intros E. inversion E. subst d'.
    destruct (storeString_val _ _ _ _ Es) as [->|[s ->]];
      cbn; repeat split; intros; try reflexivity; discriminate. }
  destruct (fieldIs "operation" key) eqn:E2.
  { rewrite (fieldIs_exclusive _ "data" _ E2) by (vm_compute; discriminate).
    rewrite (fieldIs_exclusive _ "timestamp" _ E2) by (vm_compute; discriminate).
    destruct (storeString raw setOperation d) as [d'|] eqn:Es; [|discriminate].
    intros E. inversion E. subst d'.
    destruct (storeString_val _ _ _ _ Es) as [->|[s ->]];
      cbn; repeat split; intros; try reflexivity; discriminate. }
  destruct (fieldIs "data" key) eqn:E3.
  { rewrite (fieldIs_exclusive _ "timestamp" _ E3) by (vm_compute; discriminate).
    intros E. inversion E. cbn. repeat split; reflexivity. }
  destruct (fieldIs "timestamp" key) eqn:E4.
  { destruct (Time_UnmarshalJSON parseTime raw (Timestamp (val d))) as [[e|] t];
      [discriminate|].
    intros E. inversion E. cbn. repeat split; intros; try reflexivity; discriminate. }
  intros E. inversion E. repeat split; reflexivity.
Qed.

(** What the members of an object do to each field: the data are the
    text of a member for [data], if there is one; a field no member names
    stays as it was. *)
Lemma decodeObject_fields ms : forall d d1,
  decodeObject parseTime ms d = inr d1 ->
  (if hasField "data" ms
   then exists k, In (k, Data (val d1)) ms /\ keyIs "data" (k, Data (val d1)) = true
   else Data (val d1) = Data (val d))
  /\ (hasField "table" ms = false -> Table (val d1) = Table (val d))
  /\ (hasField "operation" ms = false -> Operation (val d1) = Operation (val d))
  /\ (hasField "timestamp" ms = false -> Timestamp (val d1) = Timestamp (val d)).
Proof.
  unfold hasField.
  induction ms as [|kv ms IH]; intros d d1; cbn [decodeObject existsb].
  - intros E. inversion E. repeat split; reflexivity.
  - destruct (decodeMember parseTime kv d) as [[e d']|d'] eqn:Em; [discriminate|].
    intros E. destruct (IH _ _ E) as [HD [HT [HO HS]]].
    destruct (decodeMember_fields _ _ _ Em) as [MD [MT [MO MS]]].
    repeat split.
    + destruct (existsb (keyIs "data") ms) eqn:Ex.
      * rewrite orb_true_r. destruct HD as [k [Hin Hk]].
        exists k. split; [right; exact Hin | exact Hk].
      * rewrite orb_false_r. rewrite HD, MD.
        destruct kv as [k raw]. cbn [snd].
        destruct (keyIs "data" (k, raw)) eqn:Ek; [|reflexivity].
        exists k. split; [left; reflexivity | exact Ek].
    + intros Hf. apply orb_false_elim in Hf as [Hk Hf]. rewrite HT, MT; auto.
    + intros Hf. apply orb_false_elim in Hf as [Hk Hf]. rewrite HO, MO; auto.
    + intros Hf. apply orb_false_elim in Hf as [Hk Hf]. rewrite HS, MS; auto.
Qed.

Lemma scan_not_object fuel depth c r ms rest :
  scan fuel MValue depth (c :: r) = Some (ms, rest) ->
  (c =? "{")%char = false -> ms = [].
Proof.
  destruct fuel; [discriminate|]. rewrite scan_S. intros E Hc.
  rewrite Hc in E.
  repeat match type of E with
         | (if ?b then _ else _) = _ => destruct b
         | match ?o with _ => _ end = _ => destruct o
         | match ?l with _ => _ end = _ => destruct l
         | option_map _ ?o = _ => destruct o; cbn in E
         end; try discriminate; inversion E; reflexivity.
Qed.

Lemma document_not_object data raw ms :
  document data = Some (raw, ms) -> startsWith "{" raw = false -> ms = [].
Proof.
  unfold document.
  destruct (scan (S (length (skipSpace data))) MValue 0 (skipSpace data))
    as [[ms' rest]|] eqn:Es; [|discriminate].
  destruct (skipSpace rest); [|discriminate].
  intros E. injection E as Eraw Ems. subst ms'.
  destruct (scan_reads _ _ _ _ _ _ Es) as [raw0 [E0 [Hne _]]].
  assert (raw = raw0) by (rewrite <- Eraw, E0; apply consumed_app). subst raw0.
  destruct raw as [|c r0]; [congruence|]. cbn [startsWith].
  destruct (skipSpace data) as [|c' r']; [discriminate|].
  cbn [app] in E0. inversion E0. subst c'.
  intros Hc. eapply scan_not_object; eassumption.
Qed.

(** The data of a decoded event with a member for [data]: the text of such
    a member, which stands in the payload byte for byte and is a JSON
    document of its own. *)
Lemma decoded_data payload ev raw ms :
  decoded parseTime payload = Some ev ->
  document (bytesOf payload) = Some (raw, ms) ->
  hasField "data" ms = true ->
  (exists k, In (k, Data ev) ms /\ keyIs "data" (k, Data ev) = true)
  /\ within (Data ev) (bytesOf payload)
  /\ checkValid (Data ev) = true.
Proof.
  unfold decoded, Unmarshal. intros D Hdoc Hf. rewrite Hdoc in D.
  destruct (document_members _ _ _ Hdoc) as [Hne [_ OK]].
  destruct raw as [|c r]; [congruence|].
  destruct (c =? "{")%char eqn:Ec.
  - destruct (decodeObject parseTime ms (mkDecodeState zeroNotification None))
      as [[e d]|d] eqn:Ed; [discriminate|].
    destruct (savedError d); [discriminate|]. inversion D. subst ev.
    destruct (decodeObject_fields _ _ _ Ed) as [HD _]. rewrite Hf in HD.
    destruct HD as [k [Hin Hk]].
    split; [eauto|].
    rewrite List.Forall_forall in OK. destruct (OK _ Hin) as [[_ [[msv Dv] _]] Hw].
    cbn [snd] in *. split; [exact Hw|].
    unfold checkValid. rewrite Dv. reflexivity.
  - rewrite (document_not_object _ _ _ Hdoc) in Hf by (cbn; exact Ec).
    discriminate.
Qed.

(** A field the payload has no member for is left at its zero value. *)
Lemma decoded_missing payload ev raw ms :
  decoded parseTime payload = Some ev ->
  document (bytesOf payload) = Some (raw, ms) ->
  (hasField "table" ms = false -> Table ev = ""%string)
  /\ (hasField "operation" ms = false -> Operation ev = ""%string)
  /\ (hasField "data" ms = false -> Data ev = [])
  /\ (hasField "timestamp" ms = false -> Timestamp ev = zeroTime).
Proof.
  unfold decoded, Unmarshal. intros D Hdoc. rewrite Hdoc in D.
  destruct raw as [|c r]; [discriminate|].
  destruct (c =? "{")%char eqn:Ec.
  - destruct (decodeObject parseTime ms (mkDecodeState zeroNotification None))
      as [[e d]|d] eqn:Ed; [discriminate|].
    destruct (savedError d); [discriminate|]. inversion D. subst ev.
    destruct (decodeObject_fields _ _ _ Ed) as [HD [HT [HO HS]]].
    repeat split; auto.
    intros Hf. rewrite Hf in HD. exact HD.
  - destruct (c =? "n")%char; [|discriminate]. inversion D.
    repeat split; reflexivity.
Qed.

End Fields.
End EventFacts.

(** ** Envelopes decode to what they were written from *)

Module EnvelopeFacts.
Import Json JsonFacts DecodeFacts.

Lemma isPlain_tests c :
  isPlain c = true ->
  (c =? dquote)%char = false /\ (c =? backslash)%char = false
  /\ (code c <? 32)%N = false /\ (code c <? 128)%N = true.
Proof.
  unfold isPlain, inRange. intros H.
  repeat (apply andb_prop in H as [H ?]).
  repeat split; try (apply negb_true_iff; assumption).
  - apply N.ltb_ge. apply N.leb_le in H. exact H.
  - apply N.ltb_lt. match goal with h : (code c <=? 127)%N = true |- _ =>
      apply N.leb_le in h; lia end.
Qed.

Lemma scanString_plain (s rest : bytes) :
  Forall (fun c => isPlain c = true) s ->
  scanString (s ++ dquote :: rest) = Some rest.
Proof.
  induction 1 as [|c s Hc _ IH]; cbn [app scanString].
  - rewrite Ascii.eqb_refl. reflexivity.
  - destruct (isPlain_tests c Hc) as [-> [-> [-> _]]]. exact IH.
Qed.

Lemma unquoteBody_plain (s : bytes) :
  Forall (fun c => isPlain c = true) s -> unquoteBody 0 s = Some s.
Proof.
  induction 1 as [|c s Hc _ IH]; cbn [unquoteBody]; [reflexivity|].
  destruct (isPlain_tests c Hc) as [-> [-> [-> ->]]]. cbn [orb].
  rewrite IH. reflexivity.
Qed.

Lemma unquote_plain (s : string) :
  plain s -> unquote (literal s) = Some (bytesOf s).
Proof.
  intros Hs. unfold literal. rewrite unquote_literal.
  apply unquoteBody_plain, Hs.
Qed.

Lemma stringOf_bytesOf (s : string) : stringOf (bytesOf s) = s.
Proof. apply string_of_list_ascii_of_string. Qed.

Lemma bytesOf_stringOf (b : bytes) : bytesOf (stringOf b) = b.
Proof. apply list_ascii_of_string_of_list_ascii. Qed.

(** A string literal, as a value. *)
Lemma scan_literal fuel depth (s : string) (u : bytes) :
  plain s ->
  scan (S fuel) MValue depth (literal s ++ u) = Some ([], u).
Proof.
  intros Hs. rewrite scan_S. unfold literal. cbn [app].
  change (dquote =? "{")%char with false. change (dquote =? "[")%char with false.
  rewrite Ascii.eqb_refl. cbv iota.
  rewrite <- app_assoc. cbn [app]. rewrite (scanString_plain _ _ Hs).
  reflexivity.
Qed.

Lemma skipSpace_literal (s : string) (x : bytes) :
  skipSpace (literal s ++ x) = literal s ++ x.
Proof. unfold literal. cbn [app]. apply skipSpace_cons. reflexivity. Qed.

(** A member [key:v] at the head of the input, with no blanks. *)
Lemma scan_member fuel depth (key : string) (c : ascii) (v x : bytes) msv :
  plain key ->
  isSpace c = false ->
  scan fuel MValue depth ((c :: v) ++ x) = Some (msv, x) ->
  scan (S fuel) MMembers depth (literal key ++ ":"%char :: (c :: v) ++ x)
  = match skipSpace x with
    | c4 :: r4 =>
      if (c4 =? ",")%char then
        match scan fuel MMembers depth (skipSpace r4) with
        | Some (ms, r5) => Some ((literal key, c :: v) :: ms, r5)
        | None => None
        end
      else if (c4 =? "}")%char then Some ([(literal key, c :: v)], r4)
      else None
    | [] => None
    end.
Proof.
  intros Hk Hc Hv. rewrite scan_S. unfold literal at 1. cbn [app].
  rewrite Ascii.eqb_refl. rewrite <- app_assoc. cbn [app].
  rewrite (scanString_plain _ _ Hk).
  rewrite skipSpace_cons by reflexivity.
  rewrite Ascii.eqb_refl. cbv zeta.
  rewrite skipSpace_cons by exact Hc.
  change (c :: v ++ x) with ((c :: v) ++ x).
  rewrite Hv. rewrite !consumed_app. reflexivity.
Qed.

Lemma scan_value_head fuel depth c r ms rest :
  scan fuel MValue depth (c :: r) = Some (ms, rest) -> isSpace c = false.
Proof.
  destruct fuel; [discriminate|]. rewrite scan_S.
  destruct (isSpace c) eqn:Ec; [|reflexivity].
  unfold isSpace in Ec.
  repeat (apply orb_prop in Ec as [Ec|Ec]);
    apply Ascii.eqb_eq in Ec; subst c; discriminate.
Qed.

(** A value valid at [depth] reads the same before any tail a number may
    end at. *)
Lemma valueAt_reads depth (v : bytes) :
  valueAt depth v ->
  exists c v' ms, v = c :: v' /\ isSpace c = false /\
    forall fuel t, (length v <= fuel)%nat -> numTail t ->
                   scan fuel MValue depth (v ++ t) = Some (ms, t).
Proof.
  intros [ms E].
  destruct (scan_reads _ _ _ _ _ _ E) as [raw [E1 [Hne A]]].
  rewrite app_nil_r in E1. subst raw.
  destruct v as [|c v']; [congruence|].
  exists c, v', ms. split; [reflexivity|]. split.
  - eapply scan_value_head. exact E.
  - intros fuel t Hf Ht. apply A; [exact Hf | lia | exact Ht].
Qed.

(** With enough fuel for a value that ends the input, [document] has
    enough. *)
Lemma document_of_scan fuel (c : ascii) (r : bytes) ms :
  scan fuel MValue 0 (c :: r) = Some (ms, []) ->
  document (c :: r) = Some (c :: r, ms).
Proof.
  intros E. pose proof (scan_value_head _ _ _ _ _ _ E) as Hc.
  destruct (scan_value_document _ _ _ _ _ _ E Hc) as [raw [E1 [_ D]]].
  rewrite app_nil_r in E1. subst raw. exact D.
Qed.

Section RoundTrip.

Variable parseTime : bytes -> option Time.

Lemma literal_key_plain : 
  plain "table" /\ plain "operation" /\ plain "data" /\ plain "timestamp".
Proof. repeat split; repeat constructor. Qed.

(** The document of an envelope: its four members, as written. *)
Lemma document_envelope (table operation : string) (data : bytes)
      (timestamp : string) :
  plain table -> plain operation -> plain timestamp -> valueAt 1 data ->
  document (bytesOf (envelope table operation data timestamp))
  = Some (bytesOf (envelope table operation data timestamp),
          [(literal "table", literal table);
           (literal "operation", literal operation);
           (literal "data", data);
           (literal "timestamp", literal timestamp)]).
Proof.
  intros Ht Ho Hs Hd.
  destruct literal_key_plain as [K1 [K2 [K3 K4]]].
  destruct (valueAt_reads _ _ Hd) as [cd [vd [msd [Ed [Hcd Ad]]]]].
  unfold envelope. rewrite bytesOf_stringOf.
  apply (document_of_scan (6 + length data)).
  cbn [Nat.add]. rewrite scan_S.
  change ("{" =? "{")%char with true. cbv iota.
  change (maxNestingDepth <=? 0)%N with false. cbv iota.
  unfold literal at 1. cbn [app]. rewrite skipSpace_cons by reflexivity.
  change (dquote =? "}")%char with false. cbv iota.
  change (0 + 1)%N with 1%N.
  (* table *)
  assert (Hnum : forall c x, (c =? ",")%char || (c =? "}")%char = true ->
                             numTail (c :: x)).
  { intros c x H. apply orb_prop in H as [H|H]; apply Ascii.eqb_eq in H;
      subst c; reflexivity. }
  pose proof (fun f u => scan_literal f 1 table u Ht) as V1.
  pose proof (fun f u => scan_literal f 1 operation u Ho) as V2.
  pose proof (fun f u => scan_literal f 1 timestamp u Hs) as V4.
  unfold literal in V1, V2, V4. cbn [app] in V1, V2, V4.
  match goal with |- scan (S ?f) MMembers 1 ?input = _ =>
    replace input with
      (literal "table" ++ ":"%char :: (dquote :: bytesOf table ++ [dquote])
         ++ ","%char :: literal "operation"
         ++ ":"%char :: (dquote :: bytesOf operation ++ [dquote])
         ++ ","%char :: literal "data" ++ ":"%char :: (cd :: vd)
         ++ ","%char :: literal "timestamp"
         ++ ":"%char :: (dquote :: bytesOf timestamp ++ [dquote])
         ++ ["}"%char])
  end.
  2:{ subst data. unfold literal.
      repeat (cbn [app]; rewrite <- ?app_assoc). reflexivity. }
  rewrite (scan_member _ _ _ dquote _ _ [] K1 eq_refl) by apply V1.
  rewrite skipSpace_cons by reflexivity.
  change (","%char =? ",")%char with true. cbv iota.
  rewrite skipSpace_literal.
  rewrite (scan_member _ _ _ dquote _ _ [] K2 eq_refl) by apply V2.
  rewrite skipSpace_cons by reflexivity.
  change (","%char =? ",")%char with true. cbv iota.
  rewrite skipSpace_literal.
  rewrite (scan_member _ _ _ cd _ _ msd K3 Hcd).
  2:{ rewrite <- Ed. apply Ad; [lia | reflexivity]. }
  rewrite skipSpace_cons by reflexivity.
  change (","%char =? ",")%char with true. cbv iota.
  rewrite skipSpace_literal.
  rewrite (scan_member _ _ _ dquote _ _ [] K4 eq_refl) by apply V4.
  rewrite skipSpace_cons by reflexivity.
  change ("}"%char =? ",")%char with false.
  change ("}"%char =? "}")%char with true. cbv iota.
  subst data. reflexivity.
Qed.

Lemma storeString_literal (s : string) set d :
  plain s ->
  storeString (literal s) set d
  = Some (mkDecodeState (set s (val d)) (savedError d)).
Proof.
  intros Hs. unfold storeString. unfold literal at 1. cbn [app].
  rewrite Ascii.eqb_refl. rewrite (unquote_plain s Hs), stringOf_bytesOf.
  reflexivity.
Qed.

Lemma Time_UnmarshalJSON_literal (s : string) t :
  Time_UnmarshalJSON parseTime (literal s) t
  = match parseTime (bytesOf s) with
    | Some t' => (None, t')
    | None => (Some TimeError, zeroTime)
    end.
Proof.
  unfold Time_UnmarshalJSON, literal.
  change (stringOf (dquote :: bytesOf s ++ [dquote]) =? "null")%string with false.
  cbv iota. rewrite Ascii.eqb_refl, last_last, Ascii.eqb_refl.
  rewrite length_app. cbn [length]. rewrite Nat.add_1_r. cbn [Nat.eqb negb andb].
  rewrite removelast_last. reflexivity.
Qed.

(** Decoding an envelope gives back what it was written from. *)
Lemma Unmarshal_envelope (table operation : string) (data : bytes)
      (timestamp : string) (t : Time) :
  plain table -> plain operation -> plain timestamp -> valueAt 1 data ->
  parseTime (bytesOf timestamp) = Some t ->
  Unmarshal parseTime (bytesOf (envelope table operation data timestamp))
            zeroNotification
  = (None, mkChangeNotification table operation data t).
Proof.
  intros Ht Ho Hs Hd Hp.
  destruct literal_key_plain as [K1 [K2 [K3 K4]]].
  unfold Unmarshal. rewrite document_envelope by assumption.
  unfold envelope at 1. rewrite bytesOf_stringOf.
  change ("{" =? "{")%char with true. cbv iota.
  cbn [decodeObject]. unfold decodeMember.
  rewrite !unquote_plain by assumption.
  change (fieldIs "table" (bytesOf "table")) with true.
  change (fieldIs "table" (bytesOf "operation")) with false.
  change (fieldIs "operation" (bytesOf "operation")) with true.
  change (fieldIs "table" (bytesOf "data")) with false.
  change (fieldIs "operation" (bytesOf "data")) with false.
  change (fieldIs "data" (bytesOf "data")) with true.
  change (fieldIs "table" (bytesOf "timestamp")) with false.
  change (fieldIs "operation" (bytesOf "timestamp")) with false.
  change (fieldIs "data" (bytesOf "timestamp")) with false.
  change (fieldIs "timestamp" (bytesOf "timestamp")) with true.
  cbv iota.
  rewrite !storeString_literal by assumption.
  cbn [val savedError Timestamp setData setTable setOperation].
  rewrite Time_UnmarshalJSON_literal, Hp.
  reflexivity.
Qed.

End RoundTrip.
End EnvelopeFacts.

(** * The claims *)

Section Claims.

Variable parseTime : bytes -> option Time.
Context {H X : Type} `{!TableChangeHandler H X}.

Implicit Types (p : Process (H := H) (X := X)) (payload : string).

(** C1, as amended.  Decoding fails exactly on what [json.Unmarshal]
    rejects: a text that is not a JSON document, a document that is neither
    an object nor [null], a [table] or [operation] member whose value is
    neither a string nor [null], a [timestamp] member whose value
    [time.Time] does not take.  A field without a member is no failure: it
    keeps its zero value.  On failure [handleNotification] returns the
    error wrapped, and the process is left untouched: no event is produced
    and no handler is invoked. *)
Theorem decode_failure payload p :
  (decoded parseTime payload = None <-> rejected parseTime (bytesOf payload))
  /\ (decoded parseTime payload = None ->
      exists err,
        handleNotification parseTime payload p
        = (Some (Errorf "failed to parse notification" err), p))
  /\ (forall ev raw ms,
        decoded parseTime payload = Some ev ->
        Json.document (bytesOf payload) = Some (raw, ms) ->
        (hasField "table" ms = false -> Table ev = ""%string)
        /\ (hasField "operation" ms = false -> Operation ev = ""%string)
        /\ (hasField "data" ms = false -> Data ev = [])
        /\ (hasField "timestamp" ms = false -> Timestamp ev = zeroTime)).
Proof.
  split; [|split].
  - rewrite <- (DecodeFacts.Unmarshal_rejected parseTime _ zeroNotification).
    unfold decoded.
    destruct (Unmarshal parseTime (bytesOf payload) zeroNotification)
      as [[err|] ev]; cbn [fst]; split; intros E;
      try reflexivity; try discriminate; congruence.
  - intros D. destruct (handleNotification_failed parseTime payload p D)
      as [err [_ E]]. eauto.
  - intros ev raw ms. apply EventFacts.decoded_missing.
Qed.

(** C2, as amended.  The decoder puts no constraint on the table and the
    operation: whatever plain strings an envelope is written from, the
    empty one among them, it decodes to an event with exactly these, the
    data as written and the time parsed. *)
Theorem decode_envelope (table operation : string) (data : bytes)
        (timestamp : string) (t : Time) :
  plain table -> plain operation -> plain timestamp -> valueAt 1 data ->
  parseTime (bytesOf timestamp) = Some t ->
  decoded parseTime (envelope table operation data timestamp)
  = Some (mkChangeNotification table operation data t).
Proof.
  intros Ht Ho Hs Hd Hp. unfold decoded.
  rewrite (EnvelopeFacts.Unmarshal_envelope parseTime) with (t := t);
    auto.
Qed.

(** C3.  A well-formed event whose table has a handler is delivered to
    that handler and to no other: [handleNotification] makes exactly one
    invocation, of the registered handler, with the operation and the data
    of the event, and returns what the handler returns.  The data handed
    over are the text of a [data] member of the payload: they stand in the
    payload byte for byte and are a JSON document of their own. *)
Theorem routing_delivers payload ev consumer p :
  wellFormed parseTime payload ev ->
  handlers (dl p) !! Table ev = Some consumer ->
  calls (snd (handleNotification parseTime payload p))
  = calls p ++ [(consumer, Operation ev, Data ev)]
  /\ fst (handleNotification parseTime payload p)
     = fst (HandleChange consumer (Operation ev) (Data ev) (world p))
  /\ Json.within (Data ev) (bytesOf payload)
  /\ Json.checkValid (Data ev) = true.
Proof.
  intros [D C] Hh.
  rewrite (handleNotification_decoded parseTime payload ev p D), Hh.
  unfold invoke.
  destruct (HandleChange consumer (Operation ev) (Data ev) (world p))
    as [r w] eqn:Eh.
  cbn [fst snd calls]. split; [reflexivity|]. split; [reflexivity|].
  unfold complete in C.
  destruct (Json.document (bytesOf payload)) as [[raw ms]|] eqn:Hdoc;
    [|discriminate].
  repeat (apply andb_prop in C as [C ?]).
  destruct (EventFacts.decoded_data parseTime payload ev raw ms D Hdoc)
    as [_ Hd]; [assumption | exact Hd].
Qed.

(** C4.  An event that decodes and whose table has no handler is skipped:
    [handleNotification] returns no error and leaves the process as it was
    (no invocation, nothing logged), and the loop goes on to what comes
    next. *)
Theorem unknown_table_skipped payload ev p :
  decoded parseTime payload = Some ev ->
  handlers (dl p) !! Table ev = None ->
  handleNotification parseTime payload p = (None, p)
  /\ forall waited pid channel os,
       loop parseTime
            (Notified waited (Some (mkNotification pid channel payload)) :: os) p
       = loop parseTime os
              (mkProcess (dl p) (session p) (world p) (now p + waited)%Z
                         (calls p) (probes p)).
Proof.
  intros D Hh. split.
  - rewrite (handleNotification_decoded parseTime payload ev p D), Hh.
    reflexivity.
  - intros waited pid channel os. rewrite loop_cons, turn_notified.
    cbv zeta. cbn [Extra].
    rewrite (handleNotification_decoded parseTime payload ev _ D).
    cbn [dl]. rewrite Hh. reflexivity.
Qed.

(** C5, as amended.  Whatever the loop meets, as long as no probe fails it
    does not return, and it invokes a handler once for each notification
    that decodes and whose table has a handler, and for no other.  A
    payload that does not decode is logged and dropped: the loop goes on
    with what comes next, and no handler has been invoked. *)
Theorem loop_invocations os p :
  firstProbeFailure os = None ->
  fst (loop parseTime os p) = Waiting
  /\ length (calls (snd (loop parseTime os p)))
     = (length (calls p)
        + length (List.filter (delivered parseTime (handlers (dl p))) os))%nat
  /\ (forall waited n os',
        decoded parseTime (Extra n) = None ->
        exists err,
          loop parseTime (Notified waited (Some n) :: os') p
          = loop parseTime os'
                 (mkProcess (dl p) (session p)
                    (logTo (Printf "Error: %v"
                              [AError (Errorf "failed to parse notification" err)])
                           (world p))
                    (now p + waited)%Z (calls p) (probes p))).
Proof.
  intros Hf. split; [|split].
  - rewrite loop_outcome, Hf. reflexivity.
  - apply loop_calls. exact Hf.
  - intros waited n os' D. rewrite loop_cons, turn_notified. cbv zeta.
    match goal with |- context [handleNotification parseTime ?x ?q] =>
      destruct (handleNotification_failed parseTime x q D) as [err [_ E]] end.
    rewrite E. exists err. reflexivity.
Qed.

(** C6.  When the handler of an event reports a failure, the failure is
    logged and the loop goes on with what comes next, from a process whose
    registry is the one before.  The failure does not make the loop return
    (only a failing probe among what follows does), and every notification
    that follows and is for a table with a handler is still delivered. *)
Theorem handler_failure_absorbed waited n ev consumer err w os p :
  decoded parseTime (Extra n) = Some ev ->
  handlers (dl p) !! Table ev = Some consumer ->
  HandleChange consumer (Operation ev) (Data ev) (world p) = (Some err, w) ->
  loop parseTime (Notified waited (Some n) :: os) p
  = loop parseTime os
         (mkProcess (dl p) (session p)
                    (logTo (Printf "Error: %v" [AError err]) w)
                    (now p + waited)%Z
                    (calls p ++ [(consumer, Operation ev, Data ev)])
                    (probes p))
  /\ fst (loop parseTime (Notified waited (Some n) :: os) p)
     = match firstProbeFailure os with
       | Some err' => Returned err'
       | None => Waiting
       end
  /\ (firstProbeFailure os = None ->
      length (calls (snd (loop parseTime (Notified waited (Some n) :: os) p)))
      = (length (calls p) + 1
         + length (List.filter (delivered parseTime (handlers (dl p))) os))%nat).
Proof.
  intros D Hh Hc.
  assert (E : loop parseTime (Notified waited (Some n) :: os) p
              = loop parseTime os
                  (mkProcess (dl p) (session p)
                     (logTo (Printf "Error: %v" [AError err]) w)
                     (now p + waited)%Z
                     (calls p ++ [(consumer, Operation ev, Data ev)])
                     (probes p))).
  { rewrite loop_cons, turn_notified. cbv zeta.
    rewrite (handleNotification_decoded parseTime _ ev _ D).
    cbn [dl]. rewrite Hh. unfold invoke. cbn [world]. rewrite Hc.
    reflexivity. }
  split; [exact E|]. split.
  - rewrite loop_outcome. reflexivity.
  - intros Hf. rewrite E, loop_calls by exact Hf.
    cbn [calls dl]. rewrite length_app. reflexivity.
Qed.

(** C7.  Once [Listen] has succeeded, what [Start] does is decided by the
    probes alone: it returns the error of the first probe that fails, and
    as long as none fails it does not return, whatever the notifications
    (malformed, for an unknown table, refused by their handler) and the
    listener events in between. *)
Theorem start_returns_probe_failure connection os p :
  fst (Start parseTime connection None os p)
  = match firstProbeFailure os with
    | Some err => Returned err
    | None => Waiting
    end.
Proof.
  cbv [Start mbind M_bind mret M_ret setSession logM Close_listener].
  match goal with |- context [loop parseTime os ?q] =>
    pose proof (loop_outcome parseTime os q) as Ho;
      destruct (loop parseTime os q) as [[err|] p'] end;
    cbn [fst] in *; exact Ho.
Qed.

(** C8.  Registering twice for one table leaves the second handler in
    place, leaves every other table as it was, and [RegisterHandler] has
    no error to return. *)
Theorem register_overwrites k c1 c2 p :
  let p' := snd ((RegisterHandler k c1 ;; RegisterHandler k c2) p) in
  handlers (dl p') !! k = Some c2
  /\ (forall k', k' <> k -> handlers (dl p') !! k' = handlers (dl p) !! k')
  /\ fst ((RegisterHandler k c1 ;; RegisterHandler k c2) p) = tt.
Proof.
  cbv [RegisterHandler mbind M_bind]. cbn [fst snd dl handlers].
  split; [|split].
  - apply lookup_insert_eq.
  - intros k' Hk. rewrite !lookup_insert_ne by congruence. reflexivity.
  - reflexivity.
Qed.

(** C9.  The timer of a turn runs for 15 seconds.  When it fires before a
    notification arrives, the turn issues exactly one probe, at that
    moment, and the next turn starts a new timer; a turn that receives a
    notification issues none.  So [k] windows that pass without a
    notification see [k] probes, one at the end of each.  The listener is
    made with a minimum reconnect interval of 10 seconds and a maximum of
    60. *)
Theorem liveness_probe ping p :
  livenessWindow = (15 * Second)%Z
  /\ probes (snd (turn parseTime (Elapsed ping) p))
     = probes p ++ [(now p + livenessWindow)%Z]
  /\ now (snd (turn parseTime (Elapsed ping) p)) = (now p + livenessWindow)%Z
  /\ fst (turn parseTime (Elapsed ping) p) = ping
  /\ (forall waited n,
        probes (snd (turn parseTime (Notified waited n) p)) = probes p)
  /\ (forall k os,
        loop parseTime (List.repeat (Elapsed None) k ++ os) p
        = loop parseTime os
               (mkProcess (dl p) (session p) (world p)
                  (now p + Z.of_nat k * livenessWindow)%Z (calls p)
                  (probes p
                   ++ map (fun i => (now p + Z.of_nat i * livenessWindow)%Z)
                          (seq 1 k))))
  /\ (forall connection listened os,
        exists l,
          session (snd (Start parseTime connection listened os p)) = Some l
          /\ minReconnectInterval l = (10 * Second)%Z
          /\ maxReconnectInterval l = (60 * Second)%Z).
Proof.
  split; [reflexivity|]. split; [reflexivity|]. split; [reflexivity|].
  split; [reflexivity|]. split; [|split].
  - intros waited [n|]; [|reflexivity].
    rewrite turn_notified. cbv zeta.
    match goal with |- context [handleNotification parseTime ?x ?q] =>
      pose proof (handleNotification_frame parseTime x q) as [_ [_ [_ Hp]]];
        destruct (handleNotification parseTime x q) as [[err|] p'] end;
      cbn in *; exact Hp.
  - intros k os. apply quiet_windows.
  - intros connection listened os.
    cbv [Start mbind M_bind mret M_ret setSession logM Close_listener].
    destruct listened as [err|]; cbn [session snd option_map].
    + eexists. split; [reflexivity|]. split; reflexivity.
    + match goal with |- context [loop parseTime os ?q] =>
        pose proof (loop_frame parseTime os q) as [_ Hs];
          destruct (loop parseTime os q) as [[err|] p'] end;
        cbn [session snd option_map] in *; rewrite Hs;
        eexists; (split; [reflexivity|]); split; reflexivity.
Qed.

(** C10.  [handleNotification] leaves the registry as it was, whatever the
    payload. *)
Theorem dispatch_keeps_registry payload p :
  handlers (dl (snd (handleNotification parseTime payload p)))
  = handlers (dl p).
Proof.
  destruct (handleNotification_frame parseTime payload p) as [Hd _].
  cbv zeta in Hd. rewrite Hd. reflexivity.
Qed.

End Claims.

(** ** The claims at concrete inputs *)

(** C1 fails as stated: the payload [{}] has none of the four fields, and
    decoding it does not fail. *)
Lemma empty_object_decodes :
  ~ (decoded RFC3339.parse "{}" = None <-> complete "{}" = false).
Proof.
  intros [_ Hc]. assert (E : complete "{}" = false) by (vm_compute; reflexivity).
  specialize (Hc E). vm_compute in Hc. discriminate Hc.
Qed.

(** C1: [decode_failure] at a payload that is not a JSON document. *)
Lemma decode_failure_witness :
  exists err,
    handleNotification RFC3339.parse "{" started
    = (Some (Errorf "failed to parse notification" err), started).
Proof.
  apply (decode_failure RFC3339.parse "{" started).
  vm_compute. reflexivity.
Defined.

(** C2 fails as stated: an envelope with all four fields, an empty table
    and the operation TRUNCATE decodes. *)
Lemma truncate_decodes :
  ~ (forall ev,
       decoded RFC3339.parse truncateOfNothing = Some ev ->
       (Operation ev = "INSERT" \/ Operation ev = "UPDATE"
        \/ Operation ev = "DELETE")%string
       /\ Table ev <> ""%string).
Proof.
  intros Hc.
  destruct (Hc (mkChangeNotification "" "TRUNCATE" (bytesOf "{}")
                                     (mkTime 2024 1 1 12 0 0 0 0)))
    as [_ Ht]; [vm_compute; reflexivity|].
  apply Ht. reflexivity.
Qed.

(** C2: [decode_envelope] at that envelope. *)
Lemma decode_envelope_witness :
  decoded RFC3339.parse truncateOfNothing
  = Some (mkChangeNotification "" "TRUNCATE" (bytesOf "{}")
                               (mkTime 2024 1 1 12 0 0 0 0)).
Proof.
  apply (decode_envelope RFC3339.parse "" "TRUNCATE" (bytesOf "{}")
                         "2024-01-01T12:00:00Z").
  - constructor.
  - repeat constructor.
  - repeat constructor.
  - exists []. vm_compute. reflexivity.
  - vm_compute. reflexivity.
Defined.

(** C3: the scenario of the specification.  An update of [s_config]
    reaches the handler of [s_config], once, with the operation and the
    row. *)
Lemma routing_delivers_witness :
  calls (snd (handleNotification RFC3339.parse configUpdate started))
  = calls started ++ [(ConfigManager, "UPDATE"%string, configRow)]
  /\ fst (handleNotification RFC3339.parse configUpdate started)
     = fst (HandleChange ConfigManager "UPDATE" configRow (world started))
  /\ Json.within configRow (bytesOf configUpdate)
  /\ Json.checkValid configRow = true.
Proof.
  apply (routing_delivers RFC3339.parse configUpdate
           (mkChangeNotification "s_config" "UPDATE" configRow
                                 (mkTime 2024 1 1 12 0 0 0 0))
           ConfigManager started).
  - split; vm_compute; reflexivity.
  - vm_compute. reflexivity.
Defined.

(** C4: the other scenario, an event of [s_product], which has no handler. *)
Lemma unknown_table_skipped_witness :
  handleNotification RFC3339.parse productInsert started = (None, started).
Proof.
  apply (unknown_table_skipped RFC3339.parse productInsert
           (mkChangeNotification "s_product" "INSERT" (bytesOf "{}")
                                 (mkTime 2024 1 1 12 0 0 0 0))
           started).
  - vm_compute. reflexivity.
  - vm_compute. reflexivity.
Defined.

(** C5 fails as stated: one well-formed event, for a table without a
    handler, and no invocation. *)
Lemma well_formed_not_invoked :
  ~ (length (calls (snd (loop RFC3339.parse
       [Notified 0 (Some (mkNotification 1 "data_changes" productInsert))]
       started)))
     = (length (calls started)
        + length (List.filter (wellFormedOccurrence RFC3339.parse)
            [Notified 0 (Some (mkNotification 1 "data_changes" productInsert))]))%nat).
Proof. vm_compute. discriminate. Qed.

(** C5: the loop over a delivered event, a payload that does not decode,
    an event for a table without a handler and a quiet window. *)
Lemma loop_invocations_witness :
  fst (loop RFC3339.parse
         [Notified 0 (Some (mkNotification 1 "data_changes" configUpdate));
          Notified 0 (Some (mkNotification 1 "data_changes" "{"));
          Notified 0 (Some (mkNotification 1 "data_changes" productInsert));
          Elapsed None]
         started) = Waiting
  /\ length (calls (snd (loop RFC3339.parse
         [Notified 0 (Some (mkNotification 1 "data_changes" configUpdate));
          Notified 0 (Some (mkNotification 1 "data_changes" "{"));
          Notified 0 (Some (mkNotification 1 "data_changes" productInsert));
          Elapsed None]
         started)))
     = (length (calls started)
        + length (List.filter (delivered RFC3339.parse (handlers (dl started)))
         [Notified 0 (Some (mkNotification 1 "data_changes" configUpdate));
          Notified 0 (Some (mkNotification 1 "data_changes" "{"));
          Notified 0 (Some (mkNotification 1 "data_changes" productInsert));
          Elapsed None]))%nat.
Proof.
  destruct (loop_invocations RFC3339.parse
              [Notified 0 (Some (mkNotification 1 "data_changes" configUpdate));
               Notified 0 (Some (mkNotification 1 "data_changes" "{"));
               Notified 0 (Some (mkNotification 1 "data_changes" productInsert));
               Elapsed None]
              started eq_refl) as [Hw [Hc _]].
  split; [exact Hw | exact Hc].
Defined.

(** C6: two updates of [s_config] for a handler that refuses them.  The
    first is logged, the loop goes on to the second. *)
Lemma handler_failure_absorbed_witness :
  loop RFC3339.parse
       [Notified 5 (Some (mkNotification 1 "data_changes" configUpdate));
        Notified 7 (Some (mkNotification 1 "data_changes" configUpdate))]
       startedFailing
  = loop RFC3339.parse
         [Notified 7 (Some (mkNotification 1 "data_changes" configUpdate))]
         (mkProcess (dl startedFailing) (session startedFailing)
            (logTo (Printf "Error: %v" [AError (ErrOther "change refused")])
                   (world startedFailing))
            (now startedFailing + 5)%Z
            (calls startedFailing ++ [(Failing, "UPDATE"%string, configRow)])
            (probes startedFailing)).
Proof.
  apply (handler_failure_absorbed RFC3339.parse 5%Z
           (mkNotification 1 "data_changes" configUpdate)
           (mkChangeNotification "s_config" "UPDATE" configRow
                                 (mkTime 2024 1 1 12 0 0 0 0))
           Failing (ErrOther "change refused") (world startedFailing)).
  - vm_compute. reflexivity.
  - vm_compute. reflexivity.
  - reflexivity.
Defined.


(** ** The decoder at some payloads *)

(** The scenario of the specification decodes, its timestamp with it. *)
Example config_update_decodes :
  decoded RFC3339.parse configUpdate
  = Some (mkChangeNotification "s_config" "UPDATE" configRow
                               (mkTime 2024 1 1 12 0 0 0 0)).
Proof. vm_compute. reflexivity. Qed.

(** The payload [null] decodes to the zero event, as [{}] does. *)
Example null_decodes :
  Unmarshal RFC3339.parse (bytesOf "null") zeroNotification
  = (None, zeroNotification)
  /\ Unmarshal RFC3339.parse (bytesOf "{}") zeroNotification
     = (None, zeroNotification).
Proof. split; vm_compute; reflexivity. Qed.

(** An array is not an event, and a trailing comma is not JSON. *)
Example array_rejected :
  Unmarshal RFC3339.parse (bytesOf "[]") zeroNotification
  = (Some (UnmarshalTypeError "array" "main.ChangeNotification"),
     zeroNotification)
  /\ Json.checkValid (bytesOf "[1,]") = false
  /\ Json.checkValid (bytesOf " [1, 2.5e+3, true, null , {}] ") = true.
Proof. repeat split; vm_compute; reflexivity. Qed.

(** Keys are matched without regard to case; a number where the table is
    expected is a type mismatch; a [null] for the data is kept as text. *)
Example keys_fold :
  decoded RFC3339.parse
          (stringOf (bytesOf "{" ++ literal "TABLE" ++ bytesOf ":"
                     ++ literal "s_user" ++ bytesOf ","
                     ++ literal "Data" ++ bytesOf ":null}"))
  = Some (mkChangeNotification "s_user" "" (bytesOf "null") zeroTime)
  /\ Unmarshal RFC3339.parse
               (bytesOf "{" ++ literal "table" ++ bytesOf ":1}")
               zeroNotification
     = (Some (UnmarshalTypeError "number" "string"), zeroNotification).
Proof. split; vm_compute; reflexivity. Qed.

(** * More of the loop and of [Start] *)

Section LoopFacts.

Variable parseTime : bytes -> option Time.
Context {H X : Type} `{!TableChangeHandler H X}.

Implicit Types (p : Process (H := H) (X := X)).


(** What a turn invokes. *)
Lemma turn_invokes o p :
  calls (snd (turn parseTime o p))
  = calls p ++ invocationOf parseTime (handlers (dl p)) o.
Proof.
  destruct o as [w [n|]|ping|ev [err|]]; cbn [invocationOf];
    try (cbv [turn mbind M_bind mret M_ret elapse logM eventCallback Ping];
         cbn; rewrite app_nil_r; reflexivity).
  rewrite turn_notified. cbv zeta.
  set (p0 := mkProcess (dl p) (session p) (world p) (now p + w) (calls p) (probes p)).
  destruct (decoded parseTime (Extra n)) as [ev|] eqn:D.
  - rewrite (handleNotification_decoded _ _ _ p0 D). cbn [dl p0].
    destruct (handlers (dl p) !! Table ev) as [h|].
    + unfold invoke.
      destruct (HandleChange h (Operation ev) (Data ev) (world p0)) as [[err|] w'];
        reflexivity.
    + cbn. rewrite app_nil_r. reflexivity.
  - destruct (handleNotification_failed parseTime _ p0 D) as [err [_ ->]]. cbn.
    rewrite app_nil_r. reflexivity.
Qed.

Lemma loop_invokes os : forall p,
  calls (snd (loop parseTime os p))
  = calls p ++ flat_map (invocationOf parseTime (handlers (dl p))) (taken os).
Proof.
  induction os as [|o os IH]; intros p; [cbn; rewrite app_nil_r; reflexivity|].
  rewrite loop_cons. pose proof (turn_result parseTime o p) as Hr.
  pose proof (turn_invokes o p) as Hc. pose proof (turn_dl parseTime o p) as Hd.
  destruct (turn parseTime o p) as [[err|] p']; cbn [fst snd] in *.
  - destruct o as [? ?|[?|]|? ?]; try discriminate. exact Hc.
  - rewrite IH, Hc, Hd, <- app_assoc.
    destruct o as [? ?|[?|]|? ?]; try discriminate; reflexivity.
Qed.

(** The loop over two runs of occurrences, the first without failing
    probe. *)
Lemma loop_app_quiet os1 : forall os2 p,
  firstProbeFailure os1 = None ->
  loop parseTime (os1 ++ os2) p = loop parseTime os2 (snd (loop parseTime os1 p)).
Proof.
  induction os1 as [|o os1 IH]; intros os2 p Hf; [reflexivity|].
  cbn [app]. rewrite !loop_cons. pose proof (turn_result parseTime o p) as Hr.
  destruct (turn parseTime o p) as [[err|] p']; cbn [fst] in Hr.
  - destruct o as [? ?|[?|]|? ?]; discriminate.
  - apply IH. destruct o as [? ?|[?|]|? ?]; try discriminate; exact Hf.
Qed.

(** The clock and the probes of a turn. *)
Lemma turn_clock o p :
  now (snd (turn parseTime o p))
  = (now p + match o with
             | Notified w _ => w
             | Elapsed _ => livenessWindow
             | Event _ _ => 0
             end)%Z
  /\ probes (snd (turn parseTime o p))
     = probes p ++ match o with
                   | Elapsed _ => [(now p + livenessWindow)%Z]
                   | _ => []
                   end.
Proof.
  destruct o as [w [n|]|ping|ev [err|]];
    try (cbn; rewrite ?app_nil_r, ?Z.add_0_r; split; reflexivity).
  rewrite turn_notified. cbv zeta.
  pose proof (handleNotification_frame parseTime (Extra n)
    (mkProcess (dl p) (session p) (world p) (now p + w) (calls p) (probes p)))
    as [_ [_ [Hn Hp]]].
  cbn in Hn, Hp.
  destruct (handleNotification parseTime (Extra n) _) as [[err|] p1];
    cbn [snd fst now probes] in *; rewrite Hn, Hp, app_nil_r; split; reflexivity.
Qed.

(** The probes of the loop are at least a window apart. *)
Lemma loop_probes os : forall p from,
  Forall causal os -> (from <= now p)%Z ->
  exists new,
    probes (snd (loop parseTime os p)) = probes p ++ new
    /\ apart livenessWindow from new.
Proof.
  induction os as [|o os IH]; intros p from Hc Hfrom.
  { exists []. cbn. rewrite app_nil_r. split; [reflexivity | exact I]. }
  apply Forall_cons_iff in Hc as [Hc Hcs].
  rewrite loop_cons. pose proof (turn_clock o p) as [Hn Hp].
  assert (Hlw : (0 < livenessWindow)%Z) by reflexivity.
  destruct (turn parseTime o p) as [[err|] p'] eqn:Et; cbn [fst snd] in *.
  - destruct o as [w n|ping|ev e].
    + exists []. rewrite Hp. split; [reflexivity | exact I].
    + eexists. split; [exact Hp|]. cbn. split; [lia | exact I].
    + exists []. rewrite Hp. split; [reflexivity | exact I].
  - destruct o as [w n|ping|ev e]; cbn [causal] in Hc.
    + destruct (IH p' from Hcs ltac:(lia)) as [new [E A]].
      exists new. rewrite E, Hp, app_nil_r. split; [reflexivity | exact A].
    + destruct (IH p' (now p') Hcs ltac:(lia)) as [new [E A]].
      exists ((now p + livenessWindow)%Z :: new).
      rewrite E, Hp, <- app_assoc. split; [reflexivity|].
      cbn [apart]. split; [lia|]. rewrite <- Hn. exact A.
    + destruct (IH p' from Hcs ltac:(lia)) as [new [E A]].
      exists new. rewrite E, Hp, app_nil_r. split; [reflexivity | exact A].
Qed.

End LoopFacts.

Section StartFacts.

Variable parseTime : bytes -> option Time.
Context {H X : Type} `{!TableChangeHandler H X}.

Implicit Types (p : Process (H := H) (X := X)).

Lemma Start_listening connection os p :
  Start parseTime connection None os p
  = match loop parseTime os (listening connection p) with
    | (Returned err, p') =>
      (Returned err,
       mkProcess (dl p') (Some (subscribed connection true)) (world p') (now p')
                 (calls p') (probes p'))
    | (Waiting, p') => (Waiting, p')
    end.
Proof.
  cbv [Start mbind M_bind mret M_ret setSession logM Close_listener NewListener].
  cbn [dl session world now calls probes name minReconnectInterval
       maxReconnectInterval channels].
  fold (subscribed connection false). fold (listening connection p).
  pose proof (loop_frame parseTime os (listening connection p)) as [_ Hs].
  destruct (loop parseTime os (listening connection p)) as [[err|] p'];
    cbn [snd] in Hs; [|reflexivity].
  rewrite Hs. reflexivity.
Qed.

Lemma Start_result connection os p :
  fst (Start parseTime connection None os p)
  = match firstProbeFailure os with
    | Some err => Returned err
    | None => Waiting
    end.
Proof.
  rewrite Start_listening.
  pose proof (loop_outcome parseTime os (listening connection p)) as Ho.
  destruct (loop parseTime os (listening connection p)) as [[err|] p'];
    cbn [fst] in *; exact Ho.
Qed.

End StartFacts.

Section ManagerFacts.

Variable parseTime : bytes -> option Time.
Context {X : Type}.

Implicit Types (p : Process (H := manager) (X := X)).

(** What a turn writes when the handlers are those of [main.go]; they
    leave the rest of the world alone. *)
Lemma turn_lines o p :
  log (world (snd (turn parseTime o p)))
  = log (world p) ++ linesOf parseTime (handlers (dl p)) o
  /\ ext (world (snd (turn parseTime o p))) = ext (world p).
Proof.
  destruct o as [w [n|]|ping|ev [err|]]; cbn [linesOf];
    try (cbv [turn mbind M_bind mret M_ret elapse logM eventCallback Ping];
         cbn; rewrite ?app_nil_r; split; reflexivity).
  rewrite turn_notified. cbv zeta. unfold handleNotification.
  destruct (Unmarshal parseTime (bytesOf (Extra n)) zeroNotification)
    as [[err|] ev]; [cbn; split; reflexivity|].
  cbn [dl].
  destruct (handlers (dl p) !! Table ev) as [[|]|]; cbn;
    rewrite ?app_nil_r; split; reflexivity.
Qed.

Lemma loop_lines os : forall p,
  log (world (snd (loop parseTime os p)))
  = log (world p) ++ flat_map (linesOf parseTime (handlers (dl p))) (taken os)
  /\ ext (world (snd (loop parseTime os p))) = ext (world p).
Proof.
  induction os as [|o os IH]; intros p;
    [cbn; rewrite app_nil_r; split; reflexivity|].
  rewrite loop_cons. pose proof (turn_result parseTime o p) as Hr.
  pose proof (turn_lines o p) as [Hl He]. pose proof (turn_dl parseTime o p) as Hd.
  destruct (turn parseTime o p) as [[err|] p']; cbn [fst snd] in *.
  - destruct o as [? ?|[?|]|? ?]; try discriminate. split; [exact Hl | exact He].
  - destruct (IH p') as [Hl' He']. rewrite Hl', He', Hl, Hd, <- app_assoc.
    split; [|exact He].
    destruct o as [? ?|[?|]|? ?]; try discriminate; reflexivity.
Qed.

End ManagerFacts.

Section MainUnfolded.

Variable parseTime : bytes -> option Time.

(** [main] once the listener is made. *)
Lemma main_created listened os :
  main parseTime None None listened os
  = match Start parseTime connStr listened os
            (mkProcess (mkDataListener connStr mainHandlers) None
                       (mkWorld [Println "Starting listener..."] tt) 0 [] []) with
    | (Returned err, p) =>
      mkRun (Exited 1)
            (log (world p) ++ [Printf "Failed to start: %v" [AError err]])
            (calls p)
    | (Waiting, p) => mkRun Blocked (log (world p)) (calls p)
    end.
Proof. reflexivity. Qed.

End MainUnfolded.

(** * More of the decoder *)

Module MemberFacts.
Import Json JsonFacts DecodeFacts EventFacts.

Lemma allSpace_skipSpace (t : bytes) : skipSpace t = [] -> allSpace t.
Proof.
  induction t as [|c t IH]; cbn [skipSpace]; [constructor|].
  destruct (isSpace c) eqn:Ec; [|discriminate].
  intros E. constructor; [exact Ec | exact (IH E)].
Qed.

Lemma allSpace_numTail (t : bytes) : allSpace t -> numTail t.
Proof.
  destruct 1 as [|c t Hc _]; [exact I|]. cbn [numTail].
  unfold isSpace in Hc.
  repeat (apply orb_prop in Hc as [Hc|Hc]);
    apply Ascii.eqb_eq in Hc; subst c; reflexivity.
Qed.

Lemma allSpace_app (a b : bytes) : allSpace a -> allSpace b -> allSpace (a ++ b).
Proof. intros Ha Hb. apply Forall_app. split; assumption. Qed.

(** Blanks around a document change nothing of what is read. *)
Lemma document_padded (data pre post raw : bytes) ms :
  document data = Some (raw, ms) ->
  allSpace pre -> allSpace post ->
  document (pre ++ data ++ post) = Some (raw, ms).
Proof.
  unfold document at 1. intros D Hpre Hpost.
  destruct (skipSpace_split data) as [ws [Ews Hws]].
  destruct (scan (S (length (skipSpace data))) MValue 0 (skipSpace data))
    as [[ms' rest]|] eqn:Es; [|discriminate].
  destruct (skipSpace rest) eqn:Er; [|discriminate].
  injection D as Eraw Ems. subst ms'.
  destruct (scan_reads _ _ _ _ _ _ Es) as [raw0 [E0 [Hne A]]].
  assert (raw = raw0) by (rewrite <- Eraw, E0; apply consumed_app). subst raw0.
  pose proof (allSpace_skipSpace _ Er) as Hrest.
  destruct raw as [|c r]; [congruence|].
  assert (Hc : isSpace c = false).
  { apply (skipSpace_head data c (r ++ rest)). rewrite E0. reflexivity. }
  assert (Esk : skipSpace (pre ++ data ++ post) = (c :: r) ++ rest ++ post).
  { rewrite Ews, E0, <- !app_assoc, skipSpace_app by exact Hpre.
    rewrite skipSpace_app by exact Hws. cbn [app]. apply skipSpace_cons, Hc. }
  rewrite (document_adequate (length (c :: r)) _ ms (rest ++ post)).
  - rewrite Esk, consumed_app. reflexivity.
  - rewrite Esk. apply A; [lia | lia |].
    apply allSpace_numTail, allSpace_app; assumption.
  - rewrite skipSpace_app by exact Hrest.
    clear -Hpost. induction Hpost as [|x post Hx _ IH]; [reflexivity|].
    cbn [skipSpace]. rewrite Hx. exact IH.
Qed.

Section Members.

Variable parseTime : bytes -> option Time.

(** A member that names none of the four fields is passed over. *)
Lemma decodeMember_unnamed kv d :
  is_Some (unquote (fst kv)) -> named kv = false ->
  decodeMember parseTime kv d = inr d.
Proof.
  destruct kv as [k raw]. intros [key Hk]. cbn [fst] in Hk.
  unfold named, keyIs, decodeMember. cbn [fst]. rewrite Hk.
  intros Hn. repeat (apply orb_false_elim in Hn as [Hn ?]).
  rewrite Hn. repeat match goal with h : fieldIs _ key = false |- _ =>
                       rewrite h; clear h end.
  reflexivity.
Qed.

Lemma decodeObject_named ms : forall d,
  Forall memberOK ms ->
  decodeObject parseTime ms d = decodeObject parseTime (List.filter named ms) d.
Proof.
  induction ms as [|kv ms IH]; intros d OK; [reflexivity|].
  inversion OK as [|? ? Hkv Hms]. subst. cbn [List.filter decodeObject].
  destruct (named kv) eqn:En.
  - cbn [decodeObject]. destruct (decodeMember parseTime kv d) as [e|d1];
      [reflexivity | apply IH, Hms].
  - rewrite decodeMember_unnamed by (try apply Hkv; exact En). apply IH, Hms.
Qed.

(** What one member does to the table and to the operation, when no error
    is saved. *)
Lemma decodeMember_strings kv d d1 :
  decodeMember parseTime kv d = inr d1 -> savedError d1 = None ->
  Table (val d1)
  = (if stringMember "table" kv then textOf kv else Table (val d))
  /\ Operation (val d1)
     = (if stringMember "operation" kv then textOf kv else Operation (val d))
  /\ savedError d = None.
Proof.
  destruct kv as [k raw]. unfold decodeMember, stringMember, textOf, keyIs.
  cbn [fst snd].
  destruct (unquote k) as [key|]; [|discriminate].
  assert (Hstore : forall set d',
            storeString raw set d = Some d' -> savedError d' = None ->
            savedError d = None
            /\ val d'
               = if startsWith dquote raw
                 then set match unquote raw with
                          | Some s => stringOf s
                          | None => ""%string
                          end (val d)
                 else val d).
  { intros set d'. unfold storeString, startsWith.
    destruct raw as [|c r]; [discriminate|].
    destruct (c =? dquote)%char.
    - destruct (unquote (c :: r)); [|discriminate].
      intros E. inversion E. cbn. auto.
    - destruct (c =? "n")%char; intros E; inversion E; [auto|].
      unfold saveError. destruct (savedError d) eqn:Esd; cbn; rewrite ?Esd;
        discriminate. }
  destruct (fieldIs "table" key) eqn:E1.
  { rewrite (fieldIs_exclusive _ "operation" _ E1) by (vm_compute; discriminate).
    destruct (storeString raw setTable d) as [d'|] eqn:Es; [|discriminate].
    intros E Hs. inversion E. subst d'.
    destruct (Hstore _ _ Es Hs) as [H0 ->]. cbn [andb].
    destruct (startsWith dquote raw); cbn; auto. }
  destruct (fieldIs "operation" key) eqn:E2.
  { destruct (storeString raw setOperation d) as [d'|] eqn:Es; [|discriminate].
    intros E Hs. inversion E. subst d'.
    destruct (Hstore _ _ Es Hs) as [H0 ->]. cbn [andb].
    destruct (startsWith dquote raw); cbn; auto. }
  cbn [andb].
  destruct (fieldIs "data" key); [intros E Hs; inversion E; subst; cbn in *; auto|].
  destruct (fieldIs "timestamp" key).
  { destruct (Time_UnmarshalJSON parseTime raw (Timestamp (val d))) as [[e|] t];
      [discriminate|].
    intros E Hs. inversion E; subst; cbn in *; auto. }
  intros E Hs. inversion E; subst; auto.
Qed.

(** A saved error stays. *)
Lemma decodeObject_saved ms : forall d d1,
  decodeObject parseTime ms d = inr d1 -> savedError d1 = None ->
  savedError d = None.
Proof.
  induction ms as [|kv ms IH]; intros d d1; cbn [decodeObject].
  - intros E. inversion E. auto.
  - destruct (decodeMember parseTime kv d) as [[e d']|d'] eqn:Em; [discriminate|].
    intros E Hs. eapply decodeMember_strings; [exact Em|]. eapply IH; eassumption.
Qed.

(** The fields after the members of an object: each holds what the last
    member that sets it gives. *)
Lemma decodeObject_last ms : forall d d1,
  decodeObject parseTime ms d = inr d1 -> savedError d1 = None ->
  Data (val d1)
  = List.last (map snd (List.filter (keyIs "data") ms)) (Data (val d))
  /\ Table (val d1)
     = List.last (map textOf (List.filter (stringMember "table") ms))
                 (Table (val d))
  /\ Operation (val d1)
     = List.last (map textOf (List.filter (stringMember "operation") ms))
                 (Operation (val d)).
Proof.
  assert (Hlast : forall (A : Type) (x : A) l a b,
            List.last (x :: l) a = List.last l x
            /\ List.last l a = List.last l b \/ l = []).
  { intros A x l a b. destruct l as [|y l]; [right; reflexivity|]. left.
    split.
    - cbn [List.last]. revert y. induction l as [|z l IHl]; intros y; [reflexivity|].
      cbn [List.last] in *. apply IHl.
    - revert y. induction l as [|z l IHl]; intros y; [reflexivity|].
      cbn [List.last] in *. apply IHl. }
  assert (Hl : forall (A : Type) (x : A) l a, List.last (x :: l) a = List.last l x).
  { intros A x l a. destruct l as [|y l]; [reflexivity|].
    destruct (Hlast A x (y :: l) a a) as [[E _]|E]; [exact E | discriminate]. }
  induction ms as [|kv ms IH]; intros d d1; cbn [decodeObject].
  - intros E _. inversion E. repeat split; reflexivity.
  - destruct (decodeMember parseTime kv d) as [[e d']|d'] eqn:Em; [discriminate|].
    intros E Hs. destruct (IH _ _ E Hs) as [HD [HT HO]].
    destruct (decodeMember_fields _ _ _ _ Em) as [MD _].
    assert (Hs' : savedError d' = None).
    { exact (decodeObject_saved ms d' d1 E Hs). }
    destruct (decodeMember_strings _ _ _ Em Hs') as [MT [MO _]].
    cbn [List.filter]. rewrite HD, HT, HO, MD, MT, MO.
    destruct (keyIs "data" kv), (stringMember "table" kv),
      (stringMember "operation" kv); cbn [map]; rewrite ?Hl; repeat split; reflexivity.
Qed.

End Members.
End MemberFacts.

(** * The payload of the trigger *)

Module PgFacts.
Import Json JsonFacts DecodeFacts EnvelopeFacts Pg.

(** An escaped byte is read as one piece of a string. *)
Lemma escapeChar_scan (c : ascii) (r : bytes) :
  (code c <? 128)%N = true ->
  scanString (escapeChar c ++ r) = scanString r.
Proof.
  destruct c as [[|] [|] [|] [|] [|] [|] [|] [|]]; intros Hc;
    try discriminate Hc; reflexivity.
Qed.

(** And stands for the byte it was made from. *)
Lemma escapeChar_unquote (c : ascii) (r : bytes) :
  (code c <? 128)%N = true ->
  unquoteBody 0 (escapeChar c ++ r) = option_map (cons c) (unquoteBody 0 r).
Proof.
  destruct c as [[|] [|] [|] [|] [|] [|] [|] [|]]; intros Hc;
    try discriminate Hc; reflexivity.
Qed.

Lemma scanString_escaped (s t : bytes) :
  Forall (fun c => (code c <? 128)%N = true) s ->
  scanString (flat_map escapeChar s ++ dquote :: t) = Some t.
Proof.
  induction 1 as [|c s Hc _ IH]; cbn [flat_map app]; [reflexivity|].
  rewrite <- app_assoc, (escapeChar_scan _ _ Hc). exact IH.
Qed.

Lemma unquoteBody_escaped (s : bytes) :
  Forall (fun c => (code c <? 128)%N = true) s ->
  unquoteBody 0 (flat_map escapeChar s) = Some s.
Proof.
  induction 1 as [|c s Hc _ IH]; cbn [flat_map]; [reflexivity|].
  rewrite (escapeChar_unquote _ _ Hc), IH. reflexivity.
Qed.

(** [escape_json] is undone by [unquote], on ASCII. *)
Lemma unquote_escape_json (s : string) :
  ascii7 s -> unquote (escape_json s) = Some (bytesOf s).
Proof.
  intros Hs. unfold escape_json. rewrite unquote_literal.
  apply unquoteBody_escaped, Hs.
Qed.

Lemma plain_ascii7 (s : string) : plain s -> ascii7 s.
Proof.
  unfold plain, ascii7. apply List.Forall_impl. intros c Hc.
  apply isPlain_tests in Hc. tauto.
Qed.

(** A text escaped, as a value. *)
Lemma scan_escaped fuel depth (s : string) (u : bytes) :
  ascii7 s ->
  scan (S fuel) MValue depth (escape_json s ++ u) = Some ([], u).
Proof.
  intros Hs. rewrite scan_S. unfold escape_json. cbn [app].
  change (dquote =? "{")%char with false. change (dquote =? "[")%char with false.
  rewrite Ascii.eqb_refl. cbv iota.
  rewrite <- app_assoc. cbn [app]. rewrite (scanString_escaped _ _ Hs).
  reflexivity.
Qed.

Lemma skipSpace_blank (r : bytes) : skipSpace (" "%char :: r) = skipSpace r.
Proof. reflexivity. Qed.

(** A member at the head of the input, as [json_build_object] writes it:
    the key, a colon between two blanks, the value. *)
Lemma scan_member_spaced fuel depth (key : string) (c : ascii) (v x : bytes) msv :
  plain key ->
  isSpace c = false ->
  scan fuel MValue depth ((c :: v) ++ x) = Some (msv, x) ->
  scan (S fuel) MMembers depth
       (literal key ++ " "%char :: ":"%char :: " "%char :: (c :: v) ++ x)
  = match skipSpace x with
    | c4 :: r4 =>
      if (c4 =? ",")%char then
        match scan fuel MMembers depth (skipSpace r4) with
        | Some (ms, r5) => Some ((literal key, c :: v) :: ms, r5)
        | None => None
        end
      else if (c4 =? "}")%char then Some ([(literal key, c :: v)], r4)
      else None
    | [] => None
    end.
Proof.
  intros Hk Hc Hv. rewrite scan_S. unfold literal at 1. cbn [app].
  rewrite Ascii.eqb_refl. rewrite <- app_assoc. cbn [app].
  rewrite (scanString_plain _ _ Hk).
  rewrite skipSpace_blank, skipSpace_cons by reflexivity.
  rewrite Ascii.eqb_refl. cbv zeta.
  rewrite skipSpace_blank, skipSpace_cons by exact Hc.
  change (c :: v ++ x) with ((c :: v) ++ x).
  rewrite Hv.
  change (dquote :: bytesOf key ++ dquote :: " "%char :: ":"%char :: " "%char
                 :: (c :: v) ++ x)
    with (literal key ++ " "%char :: ":"%char :: " "%char :: (c :: v) ++ x)
    || (replace (dquote :: bytesOf key ++ dquote :: " "%char :: ":"%char
                        :: " "%char :: (c :: v) ++ x)
          with (literal key ++ " "%char :: ":"%char :: " "%char :: (c :: v) ++ x)
         by (unfold literal; cbn [app]; rewrite <- app_assoc; reflexivity)).
  rewrite !consumed_app. reflexivity.
Qed.

Section Payload.

Variable parseTime : bytes -> option Time.

(** The payload the trigger builds. *)
Lemma payload_members (table operation : string) (data : bytes)
      (timestamp : string) :
  ascii7 table -> ascii7 operation -> plain timestamp -> valueAt 1 data ->
  let payload :=
    json_build_object [("table"%string, DText table);
                       ("operation"%string, DText operation);
                       ("data"%string, DJson data);
                       ("timestamp"%string, DTimestamptz timestamp)] in
  document payload
  = Some (payload,
          [(literal "table", escape_json table);
           (literal "operation", escape_json operation);
           (literal "data", data);
           (literal "timestamp", literal timestamp)]).
Proof.
  intros Ht Ho Hs Hd payload.
  destruct literal_key_plain as [K1 [K2 [K3 K4]]].
  destruct (valueAt_reads _ _ Hd) as [cd [vd [msd [Ed [Hcd Ad]]]]].
  assert (Ep : payload
               = "{"%char :: literal "table" ++ " "%char :: ":"%char :: " "%char
                   :: (dquote :: flat_map escapeChar (bytesOf table) ++ [dquote])
                   ++ ","%char :: " "%char :: literal "operation"
                   ++ " "%char :: ":"%char :: " "%char
                   :: (dquote :: flat_map escapeChar (bytesOf operation) ++ [dquote])
                   ++ ","%char :: " "%char :: literal "data"
                   ++ " "%char :: ":"%char :: " "%char :: (cd :: vd)
                   ++ ","%char :: " "%char :: literal "timestamp"
                   ++ " "%char :: ":"%char :: " "%char
                   :: (dquote :: bytesOf timestamp ++ [dquote])
                   ++ ["}"%char]).
  { subst payload data. unfold json_build_object, build_members, datum_to_json,
      escape_json, literal.
    repeat (cbn [app flat_map bytesOf list_ascii_of_string]; rewrite <- ?app_assoc).
    reflexivity. }
  rewrite Ep at 1.
  apply (fun E => eq_trans (document_of_scan (6 + length data) _ _ _ E)
                           (f_equal (fun q => Some (q, _)) (eq_sym Ep))).
  cbn [Nat.add]. rewrite scan_S.
  change ("{" =? "{")%char with true. cbv iota.
  change (maxNestingDepth <=? 0)%N with false. cbv iota.
  unfold literal at 1. cbn [app]. rewrite skipSpace_cons by reflexivity.
  change (dquote =? "}")%char with false. cbv iota.
  change (0 + 1)%N with 1%N.
  pose proof (fun f u => scan_escaped f 1 table u Ht) as V1.
  pose proof (fun f u => scan_escaped f 1 operation u Ho) as V2.
  pose proof (fun f u => scan_literal f 1 timestamp u Hs) as V4.
  unfold escape_json in V1, V2. unfold literal in V4. cbn [app] in V1, V2, V4.
  change (dquote :: bytesOf "table" ++ [dquote]) with (literal "table").
  match goal with |- scan (S ?f) MMembers 1 ?input = _ =>
    replace input with
      (literal "table" ++ " "%char :: ":"%char :: " "%char
         :: (dquote :: flat_map escapeChar (bytesOf table) ++ [dquote])
         ++ ","%char :: " "%char :: literal "operation"
         ++ " "%char :: ":"%char :: " "%char
         :: (dquote :: flat_map escapeChar (bytesOf operation) ++ [dquote])
         ++ ","%char :: " "%char :: literal "data"
         ++ " "%char :: ":"%char :: " "%char :: (cd :: vd)
         ++ ","%char :: " "%char :: literal "timestamp"
         ++ " "%char :: ":"%char :: " "%char
         :: (dquote :: bytesOf timestamp ++ [dquote])
         ++ ["}"%char])
  end.
  2:{ unfold literal. repeat (cbn [app]; rewrite <- ?app_assoc). reflexivity. }
  assert (Hnum : forall x, numTail (","%char :: x)) by (intros; reflexivity).
  rewrite (scan_member_spaced _ _ _ dquote _ _ [] K1 eq_refl) by apply V1.
  rewrite skipSpace_cons by reflexivity.
  change (","%char =? ",")%char with true. cbv iota.
  rewrite skipSpace_blank, skipSpace_literal.
  rewrite (scan_member_spaced _ _ _ dquote _ _ [] K2 eq_refl) by apply V2.
  rewrite skipSpace_cons by reflexivity.
  change (","%char =? ",")%char with true. cbv iota.
  rewrite skipSpace_blank, skipSpace_literal.
  rewrite (scan_member_spaced _ _ _ cd _ _ msd K3 Hcd).
  2:{ rewrite <- Ed. apply Ad; [lia | reflexivity]. }
  rewrite skipSpace_cons by reflexivity.
  change (","%char =? ",")%char with true. cbv iota.
  rewrite skipSpace_blank, skipSpace_literal.
  rewrite (scan_member_spaced _ _ _ dquote _ _ [] K4 eq_refl) by apply V4.
  rewrite skipSpace_cons by reflexivity.
  change ("}"%char =? ",")%char with false.
  change ("}"%char =? "}")%char with true. cbv iota.
  subst data. reflexivity.
Qed.

Lemma storeString_escaped (s : string) set d :
  ascii7 s ->
  storeString (escape_json s) set d
  = Some (mkDecodeState (set s (val d)) (savedError d)).
Proof.
  intros Hs. unfold storeString. unfold escape_json at 1. cbn [app].
  rewrite Ascii.eqb_refl. rewrite (unquote_escape_json s Hs), stringOf_bytesOf.
  reflexivity.
Qed.

(** Decoding the payload of the trigger gives back what it was built
    from. *)
Lemma Unmarshal_payload (table operation : string) (data : bytes)
      (timestamp : string) (t : Time) :
  ascii7 table -> ascii7 operation -> plain timestamp -> valueAt 1 data ->
  parseTime (bytesOf timestamp) = Some t ->
  Unmarshal parseTime
            (json_build_object [("table"%string, DText table);
                                ("operation"%string, DText operation);
                                ("data"%string, DJson data);
                                ("timestamp"%string, DTimestamptz timestamp)])
            zeroNotification
  = (None, mkChangeNotification table operation data t).
Proof.
  intros Ht Ho Hs Hd Hp.
  destruct literal_key_plain as [K1 [K2 [K3 K4]]].
  unfold Unmarshal. rewrite payload_members by assumption.
  unfold json_build_object at 1.
  change ("{" =? "{")%char with true. cbv iota.
  cbn [decodeObject]. unfold decodeMember.
  rewrite !unquote_plain by assumption.
  change (fieldIs "table" (bytesOf "table")) with true.
  change (fieldIs "table" (bytesOf "operation")) with false.
  change (fieldIs "operation" (bytesOf "operation")) with true.
  change (fieldIs "table" (bytesOf "data")) with false.
  change (fieldIs "operation" (bytesOf "data")) with false.
  change (fieldIs "data" (bytesOf "data")) with true.
  change (fieldIs "table" (bytesOf "timestamp")) with false.
  change (fieldIs "operation" (bytesOf "timestamp")) with false.
  change (fieldIs "data" (bytesOf "timestamp")) with false.
  change (fieldIs "timestamp" (bytesOf "timestamp")) with true.
  cbv iota.
  rewrite !storeString_escaped by assumption.
  cbn [val savedError Timestamp setData setTable setOperation].
  rewrite Time_UnmarshalJSON_literal, Hp.
  reflexivity.
Qed.

End Payload.

(** What [pg_notify] queues. *)
Lemma pg_notify_Some pid channel payload n :
  pg_notify pid channel payload = Some n ->
  n = mkNotification pid channel payload.
Proof.
  unfold pg_notify. cbv zeta.
  destruct (_ =? 0)%N; [discriminate|].
  destruct (NAMEDATALEN <=? _)%N; [discriminate|].
  destruct (NOTIFY_PAYLOAD_MAX_LENGTH <=? _)%N; [discriminate|].
  intros E. inversion E. reflexivity.
Qed.

(** A plain byte is escaped to itself. *)
Lemma escapeChar_plain (c : ascii) : isPlain c = true -> escapeChar c = [c].
Proof.
  destruct c as [[|] [|] [|] [|] [|] [|] [|] [|]]; intros Hc;
    try discriminate Hc; reflexivity.
Qed.

Lemma escape_json_plain (s : string) : plain s -> escape_json s = literal s.
Proof.
  unfold plain, escape_json, literal. intros Hs. do 2 f_equal.
  induction Hs as [|c l Hc _ IH]; [reflexivity|].
  cbn [flat_map]. rewrite (escapeChar_plain c Hc), IH. reflexivity.
Qed.

Lemma length_stringOf (b : bytes) : String.length (stringOf b) = length b.
Proof.
  induction b as [|c b IH]; [reflexivity|].
  change (S (String.length (stringOf b)) = S (length b)). f_equal. exact IH.
Qed.

Lemma length_bytesOf (s : string) : length (bytesOf s) = String.length s.
Proof.
  induction s as [|c s IH]; [reflexivity|].
  change (S (length (bytesOf s)) = S (String.length s)). f_equal. exact IH.
Qed.

(** The length of the payload of the trigger. *)
Lemma payload_length (table operation : string) (data : bytes) (timestamp : string) :
  plain table -> plain operation ->
  length (json_build_object [("table"%string, DText table);
                             ("operation"%string, DText operation);
                             ("data"%string, DJson data);
                             ("timestamp"%string, DTimestamptz timestamp)])
  = (61 + String.length table + String.length operation + length data
     + String.length timestamp)%nat.
Proof.
  intros Ht Ho. unfold json_build_object, build_members, datum_to_json.
  rewrite !escape_json_plain by first [assumption | repeat constructor].
  unfold literal.
  repeat (cbn [app length bytesOf list_ascii_of_string];
          rewrite ?length_app).
  cbn [length]. fold (bytesOf table) (bytesOf operation) (bytesOf timestamp).
  rewrite !length_bytesOf. lia.
Qed.

End PgFacts.

(** * Properties of the decoding of a payload *)

Section Decoding.

Variable parseTime : bytes -> option Time.
Context {H X : Type} `{!TableChangeHandler H X}.

Implicit Types (p : Process (H := H) (X := X)).

(** Blanks before and after a payload that is a JSON document change
    nothing: [json.Unmarshal] gives the same event, and
    [handleNotification] does the same with it. *)
Theorem blanks_around_payload (payload : string) (pre post : bytes) v p :
  Json.checkValid (bytesOf payload) = true ->
  Json.allSpace pre -> Json.allSpace post ->
  Unmarshal parseTime (pre ++ bytesOf payload ++ post) v
  = Unmarshal parseTime (bytesOf payload) v
  /\ handleNotification parseTime (stringOf (pre ++ bytesOf payload ++ post)) p
     = handleNotification parseTime payload p.
Proof.
  unfold Json.checkValid. intros Hv Hpre Hpost.
  destruct (Json.document (bytesOf payload)) as [[raw ms]|] eqn:D; [|discriminate].
  pose proof (MemberFacts.document_padded _ pre post _ _ D Hpre Hpost) as D'.
  assert (E : forall v0, Unmarshal parseTime (pre ++ bytesOf payload ++ post) v0
                         = Unmarshal parseTime (bytesOf payload) v0).
  { intros v0. unfold Unmarshal. rewrite D, D'. reflexivity. }
  split; [apply E|].
  unfold handleNotification. rewrite EnvelopeFacts.bytesOf_stringOf, E. reflexivity.
Qed.

(** The members of an object that name none of the four fields are passed
    over, whatever their values: two objects with the same members for
    [table], [operation], [data] and [timestamp], in the same order,
    decode alike. *)
Theorem unnamed_members_ignored (data1 data2 raw1 raw2 : bytes) ms1 ms2 v :
  Json.document data1 = Some (raw1, ms1) ->
  Json.document data2 = Some (raw2, ms2) ->
  startsWith "{" raw1 = true -> startsWith "{" raw2 = true ->
  List.filter named ms1 = List.filter named ms2 ->
  Unmarshal parseTime data1 v = Unmarshal parseTime data2 v.
Proof.
  intros D1 D2 H1 H2 Hf. unfold Unmarshal. rewrite D1, D2.
  destruct (JsonFacts.document_members _ _ _ D1) as [_ [_ OK1]].
  destruct (JsonFacts.document_members _ _ _ D2) as [_ [_ OK2]].
  assert (OK1' : Forall Json.memberOK ms1)
    by (eapply List.Forall_impl; [|exact OK1]; cbn; tauto).
  assert (OK2' : Forall Json.memberOK ms2)
    by (eapply List.Forall_impl; [|exact OK2]; cbn; tauto).
  destruct raw1 as [|c1 r1]; [discriminate|].
  destruct raw2 as [|c2 r2]; [discriminate|].
  cbn [startsWith] in H1, H2. rewrite H1, H2.
  rewrite (MemberFacts.decodeObject_named parseTime ms1) by exact OK1'.
  rewrite (MemberFacts.decodeObject_named parseTime ms2) by exact OK2'.
  rewrite Hf. reflexivity.
Qed.

(** When an object has several members for one field, the last one
    counts: the event decoded holds the text of the last member for
    [data], and for the table and the operation the string of the last
    member for them whose value is a string ([null] leaves a field as it
    is).  A field without such a member keeps the value it had. *)
Theorem last_member_wins (data raw : bytes) ms v ev :
  Json.document data = Some (raw, ms) ->
  startsWith "{" raw = true ->
  Unmarshal parseTime data v = (None, ev) ->
  Data ev = List.last (map snd (List.filter (keyIs "data") ms)) (Data v)
  /\ Table ev
     = List.last (map textOf (List.filter (stringMember "table") ms)) (Table v)
  /\ Operation ev
     = List.last (map textOf (List.filter (stringMember "operation") ms))
                 (Operation v).
Proof.
  intros D Hr. unfold Unmarshal. rewrite D.
  destruct raw as [|c r]; [discriminate|]. cbn [startsWith] in Hr. rewrite Hr.
  destruct (decodeObject parseTime ms (mkDecodeState v None)) as [[e d]|d] eqn:Ed;
    [discriminate|].
  intros E. inversion E as [[Hs Hv]].
  apply (MemberFacts.decodeObject_last parseTime ms _ _ Ed Hs).
Qed.

(** A payload that decodes and has no member for the table is an event
    of the table with the empty name: it goes to the handler registered
    under the empty name if there is one, and is passed over in silence
    otherwise.  The payloads [null] and [{}] are of this kind. *)
Theorem payload_without_table payload raw ms ev p :
  decoded parseTime payload = Some ev ->
  Json.document (bytesOf payload) = Some (raw, ms) ->
  hasField "table" ms = false ->
  handleNotification parseTime payload p
  = match handlers (dl p) !! ""%string with
    | Some h => invoke h (Operation ev) (Data ev) p
    | None => (None, p)
    end.
Proof.
  intros D Hdoc Hf. rewrite (handleNotification_decoded parseTime _ _ _ D).
  destruct (EventFacts.decoded_missing parseTime _ _ _ _ D Hdoc) as [Ht _].
  rewrite (Ht Hf). destruct (handlers (dl p) !! ""%string); reflexivity.
Qed.

End Decoding.

(** * Properties of the listener beyond the specification's sentences *)

Section Listening.

Variable parseTime : bytes -> option Time.
Context {H X : Type} `{!TableChangeHandler H X}.

Implicit Types (p : Process (H := H) (X := X)).

(** [NewDataListener] fails exactly when [sql.Open] or [db.Ping] fails,
    with the error of the first of the two that does.  The listener it
    makes otherwise is on the connection asked for and has no handler:
    until one is registered the loop invokes nothing, whatever it meets. *)
Theorem new_listener_is_empty connection opened pinged :
  (forall err,
     NewDataListener (H := H) connection opened pinged = inl err
     <-> opened = Some err \/ (opened = None /\ pinged = Some err))
  /\ (forall d,
        NewDataListener (H := H) connection opened pinged = inr d ->
        opened = None /\ pinged = None /\ db d = connection /\ handlers d = ∅
        /\ forall os p, dl p = d ->
             calls (snd (loop parseTime os p)) = calls p).
Proof.
  split.
  - intros err. unfold NewDataListener.
    destruct opened as [e|]; [|destruct pinged as [e|]]; split;
      try (intros E; inversion E; subst; tauto);
      intros [E|[E1 E2]]; try discriminate; try congruence.
  - intros d. unfold NewDataListener.
    destruct opened as [e|]; [discriminate|].
    destruct pinged as [e|]; [discriminate|].
    intros E. inversion E; subst d. repeat (split; [reflexivity|]).
    intros os p Hp. rewrite loop_invokes, Hp. cbn [handlers].
    assert (E0 : forall l, flat_map (invocationOf parseTime (∅ : gmap string H)) l = []).
    { induction l as [|o l IH]; [reflexivity|]. cbn [flat_map]. rewrite IH, app_nil_r.
      destruct o as [w [n|]|?|? ?]; try reflexivity. cbn [invocationOf].
      destruct (decoded parseTime (Extra n)) as [ev|]; [|reflexivity].
      rewrite lookup_empty. reflexivity. }
    rewrite E0, app_nil_r. reflexivity.
Qed.

(** Registering a handler changes the routing of its own table and of no
    other: an event of that table now goes to the handler just
    registered, whatever was registered before, and an event of another
    table is handled as it was before. *)
Theorem register_then_dispatch k h payload ev p :
  decoded parseTime payload = Some ev ->
  let p' := snd (RegisterHandler k h p) in
  (Table ev = k ->
   calls (snd (handleNotification parseTime payload p'))
   = calls p ++ [(h, Operation ev, Data ev)]
   /\ fst (handleNotification parseTime payload p')
      = fst (HandleChange h (Operation ev) (Data ev) (world p)))
  /\ (Table ev <> k ->
      calls (snd (handleNotification parseTime payload p'))
      = calls (snd (handleNotification parseTime payload p))
      /\ world (snd (handleNotification parseTime payload p'))
         = world (snd (handleNotification parseTime payload p))
      /\ fst (handleNotification parseTime payload p')
         = fst (handleNotification parseTime payload p)).
Proof.
  intros D p'. rewrite !(handleNotification_decoded parseTime _ _ _ D).
  subst p'. cbn [RegisterHandler snd dl handlers]. split.
  - intros <-. rewrite lookup_insert_eq. unfold invoke. cbn [world calls].
    destruct (HandleChange h (Operation ev) (Data ev) (world p)); split; reflexivity.
  - intros Hk. rewrite lookup_insert_ne by congruence.
    destruct (handlers (dl p) !! Table ev) as [h0|]; [|repeat split; reflexivity].
    unfold invoke. cbn [world calls].
    destruct (HandleChange h0 (Operation ev) (Data ev) (world p));
      repeat split; reflexivity.
Qed.

(** Registrations for different tables can be made in either order: the
    process is the same. *)
Theorem register_commutes k1 k2 h1 h2 p :
  k1 <> k2 ->
  (RegisterHandler k1 h1 ;; RegisterHandler k2 h2) p
  = (RegisterHandler k2 h2 ;; RegisterHandler k1 h1) p.
Proof.
  intros Hk. cbv [mbind M_bind RegisterHandler]. cbn [dl handlers db session world now calls probes].
  rewrite insert_insert_ne by congruence. reflexivity.
Qed.

(** The handlers [Start] invokes, in order: one for each notification it
    takes whose payload decodes and whose table has a handler, in the
    order of arrival, each with the operation and the data of its event.
    The handlers are looked up in the registry as it was when [Start] was
    called, and [Start] leaves the listener with that registry. *)
Theorem start_invokes_in_order connection os p :
  calls (snd (Start parseTime connection None os p))
  = calls p ++ flat_map (invocationOf parseTime (handlers (dl p))) (taken os)
  /\ dl (snd (Start parseTime connection None os p)) = dl p.
Proof.
  rewrite Start_listening.
  pose proof (loop_invokes parseTime os (listening connection p)) as Hc.
  pose proof (loop_frame parseTime os (listening connection p)) as [Hd _].
  destruct (loop parseTime os (listening connection p)) as [[err|] p'];
    cbn [snd calls dl listening] in *; split; assumption.
Qed.

(** Nothing that arrives after the first failing probe is processed:
    [Start] ends as if the failing probe had been the last thing to
    happen. *)
Theorem start_stops_at_failure connection listened pre err post p :
  firstProbeFailure pre = None ->
  Start parseTime connection listened (pre ++ Elapsed (Some err) :: post) p
  = Start parseTime connection listened (pre ++ [Elapsed (Some err)]) p.
Proof.
  intros Hf. destruct listened as [e|]; [reflexivity|].
  rewrite !Start_listening, !(loop_app_quiet parseTime pre) by exact Hf.
  rewrite !loop_cons.
  pose proof (turn_result parseTime (Elapsed (Some err))
                (snd (loop parseTime pre (listening connection p)))) as Hr.
  destruct (turn parseTime (Elapsed (Some err)) _) as [[e|] p']; [reflexivity|].
  discriminate Hr.
Qed.

(** The pq listener of [Start] is made on the connection given; once
    [Listen] has succeeded it is subscribed to the channel
    [data_changes] and to no other, and when [Listen] fails to none; and
    it is closed exactly when [Start] has returned: the deferred [Close]
    runs on every return, and the listener stays open as long as the loop
    waits. *)
Theorem start_closes_listener connection listened os p :
  let r := Start parseTime connection listened os p in
  exists l,
    session (snd r) = Some l
    /\ name l = connection
    /\ channels l = match listened with
                    | None => ["data_changes"%string]
                    | Some _ => []
                    end
    /\ isClosed l = match fst r with Returned _ => true | Waiting => false end.
Proof.
  cbv zeta. destruct listened as [e|].
  - eexists. repeat split.
  - rewrite Start_listening.
    pose proof (loop_frame parseTime os (listening connection p)) as [_ Hs].
    destruct (loop parseTime os (listening connection p)) as [[err|] p'];
      cbn [snd fst session listening] in *.
    + eexists. repeat split.
    + exists (subscribed connection false). repeat split. exact Hs.
Qed.

(** Two probes are never less than 15 seconds apart, and the first comes
    no sooner than 15 seconds after [Start] is called: whatever the
    notifications and listener events in between, each probe is made at
    the end of a window of 15 seconds without notification. *)
Theorem probes_are_spaced connection listened os p :
  Forall causal os ->
  exists new,
    probes (snd (Start parseTime connection listened os p)) = probes p ++ new
    /\ apart (15 * Second)%Z (now p) new.
Proof.
  intros Hc. destruct listened as [e|].
  - exists []. cbn. rewrite app_nil_r. split; [reflexivity | exact I].
  - rewrite Start_listening.
    destruct (loop_probes parseTime os (listening connection p) (now p) Hc)
      as [new [E A]]; [cbn; lia|].
    exists new. split; [|exact A].
    destruct (loop parseTime os (listening connection p)) as [[err|] p'];
      exact E.
Qed.

End Listening.

Section MainFacts.

Variable parseTime : bytes -> option Time.

(** [main] ends in one way only, [log.Fatalf]: it exits with status 1
    when the listener cannot be made ([sql.Open] or [db.Ping] fails), when
    [Listen] fails or when a probe fails, and is blocked in the loop
    otherwise; it never returns.  When the listener cannot be made the log
    holds the one line of that failure and nothing is listened to; when
    [Listen] fails the log holds the starting line and the failure.  The
    last line of the log names the failure [main] exits on. *)
Theorem main_exits opened pinged listened os :
  let r := main parseTime opened pinged listened os in
  exit r = match opened, pinged, listened, firstProbeFailure os with
           | None, None, None, None => Blocked
           | _, _, _, _ => Exited 1
           end
  /\ (forall err, opened = Some err \/ (opened = None /\ pinged = Some err) ->
        output r = [Printf "Failed to create listener: %v" [AError err]]
        /\ invoked r = [])
  /\ (forall err, opened = None -> pinged = None -> listened = Some err ->
        output r = [Println "Starting listener...";
                    Printf "Failed to start: %v" [AError err]]
        /\ invoked r = [])
  /\ (forall err, opened = None -> pinged = None -> listened = None ->
        firstProbeFailure os = Some err ->
        List.last (output r) (Println "")
        = Printf "Failed to start: %v" [AError err]).
Proof.
  cbv zeta. split; [|split; [|split]].
  - destruct opened as [e|]; [reflexivity|]. destruct pinged as [e|]; [reflexivity|].
    destruct listened as [e|]; [reflexivity|].
    rewrite main_created.
    match goal with |- context [Start parseTime connStr None os ?q] =>
      pose proof (Start_result parseTime connStr os q) as Hs;
      destruct (Start parseTime connStr None os q) as [[err|] p'] end;
      cbn [fst] in Hs; destruct (firstProbeFailure os); try discriminate; reflexivity.
  - intros err [->|[-> ->]]; split; reflexivity.
  - intros err -> -> ->. split; reflexivity.
  - intros err -> -> -> Hf. rewrite main_created.
    match goal with |- context [Start parseTime connStr None os ?q] =>
      pose proof (Start_result parseTime connStr os q) as Hs;
      destruct (Start parseTime connStr None os q) as [[e|] p'] end;
      cbn [fst] in Hs; rewrite Hf in Hs; [|discriminate].
    inversion Hs; subst e. cbn [output]. apply last_last.
Qed.


End MainFacts.

(** * Properties of the trigger and of the listener together *)

Section Notify.

Variable parseTime : bytes -> option Time.
Variable Row : Type.
Variable row_to_json : Row -> bytes.

(** What the trigger publishes is what the listener decodes.  When
    [generic_table_notify] publishes a notification, it is on the channel
    [Start] listens on, and its payload decodes to the event of the change:
    the name of the table, the operation, the row as [row_to_json] wrote
    it (the old row for a DELETE, the new one otherwise) and the time; the
    payload has a member for each of the four fields. *)
Theorem trigger_payload_decodes (td : Pg.TriggerData Row) (ts : string)
        (pid : Z) (n : Notification) (t : Time) :
  ascii7 (Pg.TG_TABLE_NAME td) -> ascii7 (Pg.TG_OP td) -> plain ts ->
  valueAt 1 (row_to_json (Pg.OLD td)) -> valueAt 1 (row_to_json (Pg.NEW td)) ->
  parseTime (bytesOf ts) = Some t ->
  Pg.generic_table_notify row_to_json td ts pid = Some n ->
  Channel n = "data_changes"%string
  /\ BePid n = pid
  /\ decoded parseTime (Extra n)
     = Some (mkChangeNotification
               (Pg.TG_TABLE_NAME td) (Pg.TG_OP td)
               (if (Pg.TG_OP td =? "DELETE")%string
                then row_to_json (Pg.OLD td) else row_to_json (Pg.NEW td))
               t)
  /\ complete (Extra n) = true.
Proof.
  intros Ht Ho Hs Hold Hnew Hp. unfold Pg.generic_table_notify. cbv zeta.
  intros E. apply PgFacts.pg_notify_Some in E. rewrite E. clear E.
  cbn [Channel BePid Extra].
  split; [reflexivity|]. split; [reflexivity|].
  assert (Hrow : valueAt 1 (if (Pg.TG_OP td =? "DELETE")%string
                            then row_to_json (Pg.OLD td)
                            else row_to_json (Pg.NEW td)))
    by (destruct (Pg.TG_OP td =? "DELETE")%string; assumption).
  unfold decoded, complete. rewrite EnvelopeFacts.bytesOf_stringOf. split.
  - rewrite (PgFacts.Unmarshal_payload parseTime _ _ _ _ t); try assumption.
    reflexivity.
  - rewrite PgFacts.payload_members by assumption. reflexivity.
Qed.

(** The trigger publishes exactly when the payload is shorter than 8000
    bytes; otherwise [pg_notify] raises, and with it the statement that
    changed the row.  The payload is 61 bytes longer than the name of the
    table, the operation, the row and the time together. *)
Theorem trigger_payload_limit (td : Pg.TriggerData Row) (ts : string) (pid : Z) :
  plain (Pg.TG_TABLE_NAME td) -> plain (Pg.TG_OP td) ->
  is_Some (Pg.generic_table_notify row_to_json td ts pid)
  <-> (61 + N.of_nat (String.length (Pg.TG_TABLE_NAME td))
       + N.of_nat (String.length (Pg.TG_OP td))
       + N.of_nat (length (if (Pg.TG_OP td =? "DELETE")%string
                           then row_to_json (Pg.OLD td)
                           else row_to_json (Pg.NEW td)))
       + N.of_nat (String.length ts) < 8000)%N.
Proof.
  intros Ht Ho. unfold Pg.generic_table_notify, Pg.pg_notify. cbv zeta.
  rewrite PgFacts.length_stringOf, PgFacts.payload_length by assumption.
  change (N.of_nat (String.length "data_changes") =? 0)%N with false.
  change (Pg.NAMEDATALEN <=? N.of_nat (String.length "data_changes"))%N with false.
  cbv iota. change Pg.NOTIFY_PAYLOAD_MAX_LENGTH with 8000%N.
  destruct (8000 <=? _)%N eqn:E.
  - apply N.leb_le in E. split; [intros [x Hx]; discriminate Hx | lia].
  - apply N.leb_gt in E. split; [lia | eauto].
Qed.

(** From a change of a row to the log of [main].  For each table the
    schema binds the trigger to, [main] has a handler: when a row of it is
    inserted, updated or deleted and the trigger publishes, the listener
    [main] runs invokes the handler of that table once, with the operation
    and the row (the old row for a DELETE, the new one otherwise), and the
    handler writes them to the log under the name of the table. *)
Theorem row_change_is_logged (td : Pg.TriggerData Row) (ts : string)
        (pid waited : Z) (n : Notification) (t : Time) :
  In (Pg.TG_TABLE_NAME td) Pg.triggerTables ->
  ascii7 (Pg.TG_OP td) -> plain ts ->
  valueAt 1 (row_to_json (Pg.OLD td)) -> valueAt 1 (row_to_json (Pg.NEW td)) ->
  parseTime (bytesOf ts) = Some t ->
  Pg.generic_table_notify row_to_json td ts pid = Some n ->
  let row := if (Pg.TG_OP td =? "DELETE")%string
             then row_to_json (Pg.OLD td) else row_to_json (Pg.NEW td) in
  let r := main parseTime None None None [Notified waited (Some n)] in
  exit r = Blocked
  /\ output r
     = [Println "Starting listener...";
        Println "Listening on channel: data_changes";
        Printf ("[" ++ Pg.TG_TABLE_NAME td ++ "] %s: %s")%string
               [AString (Pg.TG_OP td); AString (stringOf row)]]
  /\ invoked r
     = [(if (Pg.TG_TABLE_NAME td =? "s_config")%string
         then ConfigManager else UserManager,
         Pg.TG_OP td, row)].
Proof.
  intros Hin Ho Hs Hold Hnew Hp E row r.
  assert (Ht : ascii7 (Pg.TG_TABLE_NAME td)).
  { destruct Hin as [<-|[<-|[]]]; repeat constructor. }
  assert (Hrow : valueAt 1 row)
    by (subst row; destruct (Pg.TG_OP td =? "DELETE")%string; assumption).
  unfold Pg.generic_table_notify in E. cbv zeta in E.
  apply PgFacts.pg_notify_Some in E.
  assert (U : Unmarshal parseTime (bytesOf (Extra n)) zeroNotification
              = (None, mkChangeNotification (Pg.TG_TABLE_NAME td) (Pg.TG_OP td)
                                            row t)).
  { rewrite E. cbn [Extra]. rewrite EnvelopeFacts.bytesOf_stringOf.
    apply PgFacts.Unmarshal_payload; assumption. }
  subst r. rewrite main_created, Start_listening.
  set (q := listening connStr _).
  pose proof (loop_lines parseTime [Notified waited (Some n)] q) as [Hl _].
  pose proof (loop_invokes parseTime [Notified waited (Some n)] q) as Hc.
  pose proof (loop_outcome parseTime [Notified waited (Some n)] q) as Hout.
  cbn [taken flat_map linesOf invocationOf firstProbeFailure] in Hl, Hc, Hout.
  unfold decoded in Hc. rewrite U in Hl, Hc. cbn [Table Operation Data] in Hl, Hc.
  destruct (loop parseTime [Notified waited (Some n)] q) as [[err|] p'];
    cbn [fst snd] in *; [discriminate|].
  cbn [exit output invoked]. rewrite Hl, Hc.
  cbn [q listening dl handlers world log logTo calls app].
  destruct Hin as [<-|[<-|[]]]; repeat split; reflexivity.
Qed.

End Notify.

(** ** These properties at concrete inputs *)

(** [register_then_dispatch]: once [s_product] has a handler, the event of
    the specification's second scenario reaches it. *)
Lemma register_then_dispatch_witness :
  calls (snd (handleNotification RFC3339.parse productInsert
                (snd (RegisterHandler "s_product" UserManager started))))
  = [(UserManager, "INSERT"%string, bytesOf "{}")].
Proof.
  destruct (register_then_dispatch RFC3339.parse "s_product" UserManager
              productInsert
              (mkChangeNotification "s_product" "INSERT" (bytesOf "{}")
                                    (mkTime 2024 1 1 12 0 0 0 0))
              started) as [Hk _].
  - vm_compute. reflexivity.
  - destruct (Hk eq_refl) as [Hc _]. exact Hc.
Defined.

(** [register_commutes]: the two registrations of [main], in the other
    order. *)
Lemma register_commutes_witness :
  (RegisterHandler "s_config" ConfigManager ;;
   RegisterHandler "s_user" UserManager)
    (mkProcess (mkDataListener connStr ∅) None (mkWorld [] tt) 0 [] [])
  = (RegisterHandler "s_user" UserManager ;;
     RegisterHandler "s_config" ConfigManager)
      (mkProcess (mkDataListener connStr ∅) None (mkWorld [] tt) 0 [] []).
Proof.
  apply (register_commutes "s_config" "s_user" ConfigManager UserManager).
  discriminate.
Defined.

(** [start_stops_at_failure]: an update that arrives after the failing
    probe is not seen. *)
Lemma start_stops_at_failure_witness :
  Start RFC3339.parse connStr None
        ([Notified 0 (Some (mkNotification 1 "data_changes" productInsert))]
           ++ Elapsed (Some (ErrOther "connection lost"))
           :: [Notified 0 (Some (mkNotification 1 "data_changes" configUpdate))])
        started
  = Start RFC3339.parse connStr None
          ([Notified 0 (Some (mkNotification 1 "data_changes" productInsert))]
             ++ [Elapsed (Some (ErrOther "connection lost"))])
          started.
Proof.
  apply (start_stops_at_failure RFC3339.parse connStr None
           [Notified 0 (Some (mkNotification 1 "data_changes" productInsert))]).
  reflexivity.
Defined.

(** [probes_are_spaced]: a quiet window, a notification five seconds into
    the next, and the window after it. *)
Lemma probes_are_spaced_witness :
  exists new,
    probes (snd (Start RFC3339.parse connStr None
                   [Elapsed None;
                    Notified (5 * Second)
                             (Some (mkNotification 1 "data_changes" configUpdate));
                    Elapsed None]
                   started))
    = probes started ++ new
    /\ apart (15 * Second)%Z (now started) new.
Proof.
  apply (probes_are_spaced RFC3339.parse connStr None).
  repeat constructor. vm_compute. discriminate.
Defined.

(** [blanks_around_payload]: the update of the specification's scenario,
    after a blank and before a line feed. *)
Lemma blanks_around_payload_witness :
  Unmarshal RFC3339.parse ([" "%char] ++ bytesOf configUpdate ++ ["010"%char])
            zeroNotification
  = Unmarshal RFC3339.parse (bytesOf configUpdate) zeroNotification
  /\ handleNotification RFC3339.parse
       (stringOf ([" "%char] ++ bytesOf configUpdate ++ ["010"%char])) started
     = handleNotification RFC3339.parse configUpdate started.
Proof.
  apply (blanks_around_payload RFC3339.parse configUpdate).
  - vm_compute. reflexivity.
  - repeat constructor.
  - repeat constructor.
Defined.

(** [unnamed_members_ignored]: an event of [s_user] with a member the
    listener does not know, and one with another such member before the
    table. *)
Lemma unnamed_members_ignored_witness :
  Unmarshal RFC3339.parse
            (bytesOf "{" ++ literal "table" ++ bytesOf ":" ++ literal "s_user"
             ++ bytesOf "," ++ literal "extra" ++ bytesOf ":[1,2]}")
            zeroNotification
  = Unmarshal RFC3339.parse
              (bytesOf "{" ++ literal "note" ++ bytesOf ":null,"
               ++ literal "table" ++ bytesOf ":" ++ literal "s_user"
               ++ bytesOf "}")
              zeroNotification.
Proof.
  apply (unnamed_members_ignored RFC3339.parse _ _
           (bytesOf "{" ++ literal "table" ++ bytesOf ":" ++ literal "s_user"
            ++ bytesOf "," ++ literal "extra" ++ bytesOf ":[1,2]}")
           (bytesOf "{" ++ literal "note" ++ bytesOf ":null,"
            ++ literal "table" ++ bytesOf ":" ++ literal "s_user"
            ++ bytesOf "}")
           [(literal "table", literal "s_user"); (literal "extra", bytesOf "[1,2]")]
           [(literal "note", bytesOf "null"); (literal "table", literal "s_user")]);
    vm_compute; reflexivity.
Defined.

(** [last_member_wins]: two members for the data, and a table that is
    given and then [null]. *)
Lemma last_member_wins_witness :
  Data (mkChangeNotification "a" "" (bytesOf "2") zeroTime)
  = List.last (map snd (List.filter (keyIs "data")
       [(literal "data", bytesOf "1"); (literal "data", bytesOf "2");
        (literal "table", literal "a"); (literal "table", bytesOf "null")]))
      (Data zeroNotification)
  /\ Table (mkChangeNotification "a" "" (bytesOf "2") zeroTime)
     = List.last (map textOf (List.filter (stringMember "table")
          [(literal "data", bytesOf "1"); (literal "data", bytesOf "2");
           (literal "table", literal "a"); (literal "table", bytesOf "null")]))
         (Table zeroNotification)
  /\ Operation (mkChangeNotification "a" "" (bytesOf "2") zeroTime)
     = List.last (map textOf (List.filter (stringMember "operation")
          [(literal "data", bytesOf "1"); (literal "data", bytesOf "2");
           (literal "table", literal "a"); (literal "table", bytesOf "null")]))
         (Operation zeroNotification).
Proof.
  apply (last_member_wins RFC3339.parse
           (bytesOf "{" ++ literal "data" ++ bytesOf ":1," ++ literal "data"
            ++ bytesOf ":2," ++ literal "table" ++ bytesOf ":" ++ literal "a"
            ++ bytesOf "," ++ literal "table" ++ bytesOf ":null}")
           (bytesOf "{" ++ literal "data" ++ bytesOf ":1," ++ literal "data"
            ++ bytesOf ":2," ++ literal "table" ++ bytesOf ":" ++ literal "a"
            ++ bytesOf "," ++ literal "table" ++ bytesOf ":null}"));
    vm_compute; reflexivity.
Defined.

(** [trigger_payload_decodes]: the row of the specification's scenario is
    deleted from [s_config]. *)
Lemma trigger_payload_decodes_witness :
  Channel (mkNotification 7 "data_changes"
             (stringOf (Pg.json_build_object
                [("table"%string, Pg.DText "s_config");
                 ("operation"%string, Pg.DText "DELETE");
                 ("data"%string, Pg.DJson configRow);
                 ("timestamp"%string,
                  Pg.DTimestamptz "2024-01-01T12:00:00.123456+00:00")])))
  = "data_changes"%string
  /\ BePid (mkNotification 7 "data_changes"
             (stringOf (Pg.json_build_object
                [("table"%string, Pg.DText "s_config");
                 ("operation"%string, Pg.DText "DELETE");
                 ("data"%string, Pg.DJson configRow);
                 ("timestamp"%string,
                  Pg.DTimestamptz "2024-01-01T12:00:00.123456+00:00")])))
     = 7%Z
  /\ decoded RFC3339.parse
       (Extra (mkNotification 7 "data_changes"
             (stringOf (Pg.json_build_object
                [("table"%string, Pg.DText "s_config");
                 ("operation"%string, Pg.DText "DELETE");
                 ("data"%string, Pg.DJson configRow);
                 ("timestamp"%string,
                  Pg.DTimestamptz "2024-01-01T12:00:00.123456+00:00")]))))
     = Some (mkChangeNotification "s_config" "DELETE" configRow
               (mkTime 2024 1 1 12 0 0 123456000 0))
  /\ complete
       (Extra (mkNotification 7 "data_changes"
             (stringOf (Pg.json_build_object
                [("table"%string, Pg.DText "s_config");
                 ("operation"%string, Pg.DText "DELETE");
                 ("data"%string, Pg.DJson configRow);
                 ("timestamp"%string,
                  Pg.DTimestamptz "2024-01-01T12:00:00.123456+00:00")]))))
     = true.
Proof.
  apply (trigger_payload_decodes RFC3339.parse bytes (fun row => row)
           (Pg.mkTriggerData "DELETE" "s_config" configRow (bytesOf "{}"))
           "2024-01-01T12:00:00.123456+00:00" 7%Z).
  - repeat constructor.
  - repeat constructor.
  - repeat constructor.
  - eexists. vm_compute. reflexivity.
  - eexists. vm_compute. reflexivity.
  - vm_compute. reflexivity.
  - vm_compute. reflexivity.
Defined.

(** [trigger_payload_limit]: that deletion is published, its payload is
    short. *)
Lemma trigger_payload_limit_witness :
  is_Some (Pg.generic_table_notify (fun row : bytes => row)
             (Pg.mkTriggerData "DELETE" "s_config" configRow (bytesOf "{}"))
             "2024-01-01T12:00:00.123456+00:00" 7).
Proof.
  apply (trigger_payload_limit bytes (fun row => row)
           (Pg.mkTriggerData "DELETE" "s_config" configRow (bytesOf "{}"))
           "2024-01-01T12:00:00.123456+00:00" 7%Z).
  - repeat constructor.
  - repeat constructor.
  - vm_compute. reflexivity.
Defined.

(** [row_change_is_logged]: a user is inserted. *)
Lemma row_change_is_logged_witness :
  output (main RFC3339.parse None None None
            [Notified 0 (Some (mkNotification 7 "data_changes"
               (stringOf (Pg.json_build_object
                  [("table"%string, Pg.DText "s_user");
                   ("operation"%string, Pg.DText "INSERT");
                   ("data"%string, Pg.DJson (bytesOf "{}"));
                   ("timestamp"%string,
                    Pg.DTimestamptz "2024-01-01T12:00:00.123456+00:00")]))))])
  = [Println "Starting listener...";
     Println "Listening on channel: data_changes";
     Printf "[s_user] %s: %s" [AString "INSERT"; AString "{}"]].
Proof.
  destruct (row_change_is_logged RFC3339.parse bytes (fun row => row)
              (Pg.mkTriggerData "INSERT" "s_user" configRow (bytesOf "{}"))
              "2024-01-01T12:00:00.123456+00:00" 7%Z 0%Z
              (mkNotification 7 "data_changes"
                 (stringOf (Pg.json_build_object
                    [("table"%string, Pg.DText "s_user");
                     ("operation"%string, Pg.DText "INSERT");
                     ("data"%string, Pg.DJson (bytesOf "{}"));
                     ("timestamp"%string,
                      Pg.DTimestamptz "2024-01-01T12:00:00.123456+00:00")])))
              (mkTime 2024 1 1 12 0 0 123456000 0)) as [_ [Hout _]].
  - right. left. reflexivity.
  - repeat constructor.
  - repeat constructor.
  - eexists. vm_compute. reflexivity.
  - eexists. vm_compute. reflexivity.
  - vm_compute. reflexivity.
  - vm_compute. reflexivity.
  - exact Hout.
Defined.

(** [payload_without_table]: the payload [null] in the process of [main],
    where the empty name has no handler. *)
Lemma payload_without_table_witness :
  handleNotification RFC3339.parse "null" started = (None, started).
Proof.
  apply (payload_without_table RFC3339.parse "null" (bytesOf "null") []
           zeroNotification started); vm_compute; reflexivity.
Defined.
